(** * The Sighthound Video launch service, embedded in Rocq

    The development follows the three C files that make up the launch
    service:

    - [launch/shlaunchMac/shlaunchMac/shlaunch.c] (module [Mac]),
    - [launch/shlaunchWin/shlaunch/shlaunch.c]   (module [Win]),
    - [launch/launch.c], the client library       (module [Client]).

    The modules [MacStop] and [WinInstall] hold functions of the first
    two files that the service runs when it stops, is installed or is
    started by command.

    The service talks to the operating system and to other processes.
    Every answer the operating system gives (a process snapshot, the
    result of [fork], the content of the configuration file, ...) is an
    explicit input of the function that asks for it, and every call that
    changes something outside of the process (a signal sent, a store to
    the shared memory, a file removed) is recorded as an [Event], in
    program order.  Calls that only write to the log file, that sleep
    or that reap finished children are left out: they touch neither the
    shared memory nor any other process.  Other processes are taken to
    store to the shared memory while the service sleeps; what the
    service itself does to it is in the trace, whatever they do. *)

From stdpp Require Import base numbers list strings sorting.
From Stdlib Require Import ZArith Ascii Lia.

Local Open Scope string_scope.
Local Open Scope list_scope.
Local Open Scope Z_scope.

(** ** C strings *)

(** A [string] stands for the characters of a NUL-terminated C string,
    the terminator excluded. *)

(** [strcmp(s1, s2) == 0] *)
Definition strcmp_eq (s1 s2 : string) : bool := String.eqb s1 s2.

(** [strncmp(s1, s2, n) == 0]: the first [n] characters agree, or both
    strings end together before that. *)
Fixpoint strncmp_eq (s1 s2 : string) (n : nat) {struct n} : bool :=
  match n with
  | O => true
  | S n' =>
      match s1, s2 with
      | EmptyString, EmptyString => true
      | String c1 r1, String c2 r2 =>
          if Ascii.eqb c1 c2 then strncmp_eq r1 r2 n' else false
      | _, _ => false
      end
  end.

(** [&s[n]], for [n] within the string. *)
Fixpoint str_from (n : nat) (s : string) : string :=
  match n, s with
  | O, _ => s
  | S n', String _ r => str_from n' r
  | S _, EmptyString => EmptyString
  end.

(** [tolower] in the C locale. *)
Definition tolower (c : ascii) : ascii :=
  let n := nat_of_ascii c in
  if ((65 <=? n)%nat && (n <=? 90)%nat)%bool then ascii_of_nat (n + 32) else c.

(** [_tcsicmp(s1, s2) == 0]: equal once both sides are lower-cased. *)
Fixpoint tcsicmp_eq (s1 s2 : string) : bool :=
  match s1, s2 with
  | EmptyString, EmptyString => true
  | String c1 r1, String c2 r2 =>
      if Ascii.eqb (tolower c1) (tolower c2) then tcsicmp_eq r1 r2 else false
  | _, _ => false
  end.

(** [_tcsncmp(prefix, s, _tcslen(prefix)) == 0] *)
Definition has_prefix (prefix s : string) : bool :=
  strncmp_eq prefix s (String.length prefix).

Definition is_digit (c : ascii) : bool :=
  let n := nat_of_ascii c in ((48 <=? n)%nat && (n <=? 57)%nat)%bool.

Definition is_space (c : ascii) : bool :=
  let n := nat_of_ascii c in
  ((n =? 32)%nat || ((9 <=? n)%nat && (n <=? 13)%nat))%bool.

Fixpoint atoi_digits (acc : Z) (s : string) : Z :=
  match s with
  | String c r =>
      if is_digit c then atoi_digits (10 * acc + (Z.of_nat (nat_of_ascii c) - 48)) r
      else acc
  | EmptyString => acc
  end.

Fixpoint atoi_skip (s : string) : string :=
  match s with
  | String c r => if is_space c then atoi_skip r else s
  | EmptyString => s
  end.

(** ** Machine integers *)

Definition wrap_u32 (z : Z) : Z := z `mod` 2 ^ 32.
Definition wrap_i32 (z : Z) : Z := (z + 2 ^ 31) `mod` 2 ^ 32 - 2 ^ 31.

(** [strtol(s, NULL, 10)] with a [long] of 64 bits: optional white
    space, optional sign, decimal digits; a value out of range is
    [LONG_MAX] or [LONG_MIN]. *)
Definition strtol (s : string) : Z :=
  let value :=
    match atoi_skip s with
    | String "-" r => - atoi_digits 0 r
    | String "+" r => atoi_digits 0 r
    | s' => atoi_digits 0 s'
    end in
  Z.max (- 2 ^ 63) (Z.min (2 ^ 63 - 1) value).

(** [atoi]: the C library of the Mac has it as
    [(int)strtol(s, NULL, 10)]. *)
Definition atoi (s : string) : Z := wrap_i32 (strtol s).

(** ** shlaunch.h: the launch word *)

Definition LAUNCH_MASK : Z := 0xffff.
Definition LAUNCH_FLAG_KILL_FIRST : Z := 0x10000.

(** ** The shared Exchange structure *)

(** The numeric members of [struct Exchange].  Both headers declare the
    same members (in a different order, and without [build] on Windows);
    the layouts are [Mac.sizeof_Exchange] and [Win.sizeof_Exchange]. *)
Inductive Field :=
  FSize | FProcessId | FCycles | FStatus | FLaunchProcessId | FLaunch | FShutdown.

Global Instance Field_eq_dec : EqDecision Field.
Proof. solve_decision. Defined.

Record Exchange := mkExchange {
  size : Z;
  processId : Z;
  cycles : Z;
  status : Z;
  launchProcessId : Z;
  launch : Z;
  shutdown : Z;
  build : string;
  dataDir : string
}.

(** Freshly created shared memory is zero-filled. *)
Definition Exchange_zero : Exchange :=
  mkExchange 0 0 0 0 0 0 0 "" "".

Definition ex_get (f : Field) (ex : Exchange) : Z :=
  match f with
  | FSize => size ex
  | FProcessId => processId ex
  | FCycles => cycles ex
  | FStatus => status ex
  | FLaunchProcessId => launchProcessId ex
  | FLaunch => launch ex
  | FShutdown => shutdown ex
  end.

Definition ex_set (f : Field) (v : Z) (ex : Exchange) : Exchange :=
  match f with
  | FSize => mkExchange v (processId ex) (cycles ex) (status ex) (launchProcessId ex) (launch ex) (shutdown ex) (build ex) (dataDir ex)
  | FProcessId => mkExchange (size ex) v (cycles ex) (status ex) (launchProcessId ex) (launch ex) (shutdown ex) (build ex) (dataDir ex)
  | FCycles => mkExchange (size ex) (processId ex) v (status ex) (launchProcessId ex) (launch ex) (shutdown ex) (build ex) (dataDir ex)
  | FStatus => mkExchange (size ex) (processId ex) (cycles ex) v (launchProcessId ex) (launch ex) (shutdown ex) (build ex) (dataDir ex)
  | FLaunchProcessId => mkExchange (size ex) (processId ex) (cycles ex) (status ex) v (launch ex) (shutdown ex) (build ex) (dataDir ex)
  | FLaunch => mkExchange (size ex) (processId ex) (cycles ex) (status ex) (launchProcessId ex) v (shutdown ex) (build ex) (dataDir ex)
  | FShutdown => mkExchange (size ex) (processId ex) (cycles ex) (status ex) (launchProcessId ex) (launch ex) v (build ex) (dataDir ex)
  end.

Definition ex_set_build (s : string) (ex : Exchange) : Exchange :=
  mkExchange (size ex) (processId ex) (cycles ex) (status ex) (launchProcessId ex) (launch ex) (shutdown ex) s (dataDir ex).

Definition ex_set_dataDir (s : string) (ex : Exchange) : Exchange :=
  mkExchange (size ex) (processId ex) (cycles ex) (status ex) (launchProcessId ex) (launch ex) (shutdown ex) (build ex) s.

(** ** Effects *)

(** What the service does to the world outside of its own memory. *)
Inductive Event :=
  | EvSignal (pid : Z)              (* kill(pid, SIGKILL), TerminateProcess *)
  | EvSpawn (ok : bool)             (* fork(), CreateProcessW, and whether it worked *)
  | EvUnlink (path : string)        (* unlink *)
  | EvCreateRegion (bytes : Z)      (* shmget(IPC_CREAT), CreateFileMapping *)
  | EvRemoveRegion                  (* shmctl(IPC_RMID) *)
  | EvZeroRegion                    (* ZeroMemory over the mapped view *)
  | EvSetuid (uid : Z)              (* setuid *)
  | EvHandler                       (* signal(), RegisterServiceCtrlHandler *)
  | EvFile (what : string)          (* a file or directory created or written *)
  | EvService (what : string)       (* a request to the service manager *)
  | EvStore (f : Field) (v : Z)     (* plain store to a member *)
  | EvIncr (f : Field)              (* member++ , InterlockedIncrement *)
  | EvSwap (f : Field) (v : Z)      (* __sync_swap, InterlockedExchange *)
  | EvFetchAnd (f : Field) (m : Z). (* __sync_fetch_and_and *)

Global Instance Event_eq_dec : EqDecision Event.
Proof. solve_decision. Defined.

(** Code that works on the shared memory: it reads and updates the
    Exchange and leaves a trace of events. *)
Definition Eff (A : Type) : Type := Exchange → A * Exchange * list Event.

Global Instance Eff_ret : MRet Eff := λ A a ex, (a, ex, []).
Global Instance Eff_bind : MBind Eff := λ A B k m ex,
  let '(a, ex1, t1) := m ex in
  let '(b, ex2, t2) := k a ex1 in
  (b, ex2, t1 ++ t2).

Definition emit (e : Event) : Eff unit := λ ex, (tt, ex, [e]).
Definition emits (t : list Event) : Eff unit := λ ex, (tt, ex, t).

(** [exchange->f] *)
Definition load (f : Field) : Eff Z := λ ex, (ex_get f ex, ex, []).
(** [exchange->f = v] *)
Definition store (f : Field) (v : Z) : Eff unit :=
  λ ex, (tt, ex_set f v ex, [EvStore f v]).
(** [__sync_swap(&exchange->f, v)], [InterlockedExchange]: the old value
    is returned. *)
Definition sync_swap (f : Field) (v : Z) : Eff Z :=
  λ ex, (ex_get f ex, ex_set f v ex, [EvSwap f v]).
(** [__sync_fetch_and_and(&exchange->f, m)] *)
Definition sync_fetch_and_and (f : Field) (m : Z) : Eff Z :=
  λ ex, (ex_get f ex, ex_set f (Z.land (ex_get f ex) m) ex, [EvFetchAnd f m]).
(** Other processes write to the shared memory. *)
Definition others (g : Exchange → Exchange) : Eff unit := λ ex, (tt, g ex, []).
(** The service fills in a text member, [build] or [dataDir]; the trace
    only follows the numeric members. *)
Definition store_text (g : Exchange → Exchange) : Eff unit := λ ex, (tt, g ex, []).

Definition run {A} (m : Eff A) (ex : Exchange) : A * Exchange * list Event := m ex.
Definition result_of {A} (r : A * Exchange * list Event) : A := r.1.1.
Definition exchange_of {A} (r : A * Exchange * list Event) : Exchange := r.1.2.
Definition trace_of {A} (r : A * Exchange * list Event) : list Event := r.2.

(** [exchange->f++] on a [uint32_t] member. *)
Definition incr_u32 (f : Field) : Eff unit :=
  λ ex, (tt, ex_set f (wrap_u32 (ex_get f ex + 1)) ex, [EvIncr f]).
(** [InterlockedIncrement(&exchange->f)] on a [LONG] member. *)
Definition interlocked_increment (f : Field) : Eff unit :=
  λ ex, (tt, ex_set f (wrap_i32 (ex_get f ex + 1)) ex, [EvIncr f]).

(** * The Mac service: shlaunchMac/shlaunch.c *)

Module Mac.

Definition RET_SUCCESS : Z := 0.
Definition RET_ERROR : Z := 1.
Definition RET_SHARED_MEMORY_ERROR : Z := 2.
Definition RET_ACTIVATE_ERROR : Z := 3.
Definition RET_ARGS_ERROR : Z := 4.
Definition RET_BUILD_MISMATCH : Z := 5.
Definition RET_SETUID_ERROR : Z := 6.

Definition CONFIG_ASSIGN : string := "=".
Definition CONFIG_KEY_AUTOSTART : string := "autostart".
Definition CONFIG_KEY_BACKEND : string := "backend".
Definition CONFIG_VALUE_TRUE : string := "TRUE".

Definition KILL_WAIT_RETRIES : nat := 20.
Definition MAX_PROCESSES : Z := 256.

Definition APP_DATA_DIR : string := "/Library/Application Support/Sighthound Video".
Definition SV_EXE : string := "Sighthound Video".
Definition SIGHTHOUND_PROCESS_NAMES : list string := [SV_EXE; "shlaunch"].
Definition PLIST_PATH : string :=
  "/Library/LaunchDaemons/com.sighthound.video.launch.plist".

Definition E2BIG : Z := 7.
Definition EPERM : Z := 1.

(** ** Configuration *)

Record SHLaunchConfig := mkConfig { autoStart : bool; backend : bool }.

Definition _cfgDefault : SHLaunchConfig := mkConfig false true.

Definition tokenAutoStart : string := CONFIG_KEY_AUTOSTART +:+ CONFIG_ASSIGN.
Definition tokenBackend : string := CONFIG_KEY_BACKEND +:+ CONFIG_ASSIGN.

(** The body of the [while (fgets(ln, sizeof(ln), f))] loop of
    [cfg_load], for one line [ln] as [fgets] returned it (its newline
    included).  The state is [*cfg] and [found]. *)
Definition cfg_line (st : SHLaunchConfig * Z) (ln : string) : SHLaunchConfig * Z :=
  let '(cfg, found) := st in
  let tokenLength := String.length tokenAutoStart in
  if strncmp_eq ln tokenAutoStart tokenLength then
    (mkConfig (strncmp_eq (str_from tokenLength ln) CONFIG_VALUE_TRUE
                 (String.length CONFIG_VALUE_TRUE))
              (backend cfg),
     Z.lor found 1)
  else
    let tokenLength := String.length tokenBackend in
    if strncmp_eq ln tokenBackend tokenLength then
      (mkConfig (autoStart cfg)
                (strncmp_eq (str_from tokenLength ln) CONFIG_VALUE_TRUE
                   (String.length CONFIG_VALUE_TRUE)),
       Z.lor found 2)
    else st.

(** [cfg_load]: [file] is [None] when [fopen] fails, and otherwise the
    lines that the successive calls of [fgets] return.  The result is
    [*cfg] and the returned flag. *)
Definition cfg_load (file : option (list string)) : SHLaunchConfig * bool :=
  match file with
  | None => (_cfgDefault, false)
  | Some lines =>
      let '(cfg, found) := foldl cfg_line (_cfgDefault, 0) lines in
      (cfg, found =? 3)
  end.

(** ** Process enumeration *)

Record Proc := mkProc { p_uid : Z; p_pid : Z; p_ppid : Z; p_comm : string }.

(** What [sysctl(KERN_PROC_ALL)] gives: an error, or the process table. *)
Inductive Snapshot :=
  | SysctlFails (res : Z)
  | Processes (kips : list Proc).

Fixpoint enum_loop {C : Type} (handler : C → Proc → C * Z) (ctx : C)
    (kips : list Proc) : C * Z :=
  match kips with
  | [] => (ctx, 0)
  | p :: rest =>
      let '(ctx', res) := handler ctx p in
      if res =? 0 then enum_loop handler ctx' rest else (ctx', res)
  end.

Definition enum_processes {C : Type} (handler : C → Proc → C * Z) (ctx : C)
    (snap : Snapshot) : C * Z :=
  match snap with
  | SysctlFails res => (ctx, res)
  | Processes kips => enum_loop handler ctx kips
  end.

Fixpoint is_sv_process_from (spn : list string) (comm : string) : Z :=
  match spn with
  | [] => 0
  | name :: spn' => if strcmp_eq name comm then 1 else is_sv_process_from spn' comm
  end.

Definition is_sv_process (comm : string) : Z :=
  is_sv_process_from SIGHTHOUND_PROCESS_NAMES comm.

(** [struct FindProcessesContext]: the array has [MAX_PROCESSES] cells. *)
Record FindProcessesContext := mkFind { pids : list Z; count : Z }.

(** [memset(&fpctx, 0, sizeof(fpctx))] *)
Definition fpctx_zero : FindProcessesContext :=
  mkFind (replicate (Z.to_nat MAX_PROCESSES) 0) 0.

Definition find_handler (fpctx : FindProcessesContext) (p : Proc)
    : FindProcessesContext * Z :=
  if negb (is_sv_process (p_comm p) =? 0) then
    if count fpctx <? MAX_PROCESSES then
      (mkFind (<[Z.to_nat (count fpctx) := p_pid p]> (pids fpctx)) (count fpctx + 1), 0)
    else (fpctx, -2)
  else (fpctx, 0).

Definition cmp_int (i1 i2 : Z) : Z := wrap_i32 (i1 - i2).

(** [qsort(base, n, sizeof(int), cmp)]: the cells in the order of [cmp]. *)
Definition qsort (cmp : Z → Z → Z) (cells : list Z) : list Z :=
  @merge_sort Z (λ a b, cmp a b ≤ 0) (λ a b, decide (cmp a b ≤ 0)) cells.

Section Process.
(** [getpid()], [getppid()] and the global [_noKillPid]. *)
Variables (ownPid parentPid _noKillPid : Z).

(** The [for] loop of [kill_old_processes] over the sorted PIDs; the
    number [killed] only goes to the log. *)
Fixpoint kill_loop (noKillPid : Z) (sorted : list Z) (result : Z)
    : list Event * Z :=
  match sorted with
  | [] => ([], result)
  | pid :: rest =>
      if (ownPid =? pid) || (parentPid =? pid) || (_noKillPid =? pid)
         || (noKillPid =? pid)
      then kill_loop noKillPid rest (result - 1)
      else
        let '(t, r) := kill_loop noKillPid rest result in
        (EvSignal pid :: t, r)
  end.

Definition kill_old_processes (noKillPid : Z) (snap : Snapshot)
    : list Event * Z :=
  let '(fpctx, err) := enum_processes find_handler fpctx_zero snap in
  let sorted := qsort cmp_int (take (Z.to_nat (count fpctx)) (pids fpctx)) in
  kill_loop noKillPid sorted (count fpctx).

(** [kill_old_processes_and_wait]: [retries] is the counter before it
    is decremented; [snaps n] is the snapshot that the [n]-th pass
    from now sees. *)
Fixpoint kill_wait_loop (noKillPid : Z) (retries : nat)
    (snaps : nat → Snapshot) : list Event * Z :=
  let '(t, remaining) := kill_old_processes noKillPid (snaps O) in
  if remaining =? 0 then (t, RET_SUCCESS)
  else
    match retries with
    | S (S _ as retries') =>
        let '(t', ret) :=
          kill_wait_loop noKillPid retries' (λ n, snaps (S n)) in
        (t ++ t', ret)
    | _ => (t, RET_ERROR)
    end.

Definition kill_old_processes_and_wait (noKillPid : Z)
    (snaps : nat → Snapshot) : list Event * Z :=
  kill_wait_loop noKillPid KILL_WAIT_RETRIES snaps.
End Process.

(** ** Launching the back end *)

(** [fork] as the service sees it: the child's PID, or a failure.  The
  child itself never returns into the service code: it runs [execve]
  and, if that fails, [exit(0)]. *)
Inductive ForkResult := Forked (child : positive) | ForkFails.

(** The local variable [result] of [launch_backend] when control is at
  the label [cleanup]. *)
Definition launch_backend_result (malloc_ok : bool) (fk : ForkResult) : Z :=
if malloc_ok then
  match fk with
  | Forked _ => RET_SUCCESS
  | ForkFails => RET_ERROR
  end
else RET_ERROR.

(** [launch_backend]: the function ends in [return RET_SUCCESS]. *)
Definition launch_backend (malloc_ok : bool) (fk : ForkResult) : list Event * Z :=
let result := launch_backend_result malloc_ok fk in
(if malloc_ok
 then [EvSpawn (match fk with Forked _ => true | ForkFails => false end)]
 else [],
 RET_SUCCESS).

(** ** The shared memory segment *)

Section Service.
(** [PATH_MAX] and the width of [wchar_t] come from the system
    headers, [SHLAUNCH_BUILD] from the generated [shlaunch_build.h]. *)
Variables (PATH_MAX sizeof_wchar_t : Z) (SHLAUNCH_BUILD : string).
Variables (ownPid parentPid : Z).

(** [sizeof(struct Exchange)], the structure being packed: three
    [uint32_t], four [int32_t], [build], [dataDir] and [_pad16]. *)
Definition sizeof_Exchange : Z :=
  3 * 4 + 4 * 4 + 8 * 1 + PATH_MAX * sizeof_wchar_t
  + (PATH_MAX * 2 + 8 * 1 + 5 * 4) / 16.

(** [exchange_reset]: [found] is [None] when no segment of that key is
    found, and otherwise what [shmctl(IPC_RMID)] answers. *)
Definition exchange_reset (found : option Z) : list Event * Z :=
  match found with
  | None => ([], 0)
  | Some err => ([EvRemoveRegion], err)
  end.

(** The outcome of [shmget(IPC_CREAT | IPC_EXCL)]. *)
Inductive Shmget :=
  | ShmCreated
  | ShmExists     (* errno is EEXIST or EINVAL *)
  | ShmError.     (* any other errno *)

Record ShmOracle := mkShm {
  shm_first : Shmget;
  shm_reset : option Z;
  shm_second : Shmget;
  shm_attach_ok : bool
}.

(** [shmat] and what follows it in [exchange_open]. *)
Definition exchange_attach (o : ShmOracle) : list Event * Z :=
  if shm_attach_ok o then ([], RET_SUCCESS)
  else ([EvRemoveRegion], RET_SHARED_MEMORY_ERROR).

Definition exchange_open (o : ShmOracle) : list Event * Z :=
  let create := EvCreateRegion sizeof_Exchange in
  match shm_first o with
  | ShmCreated =>
      let '(t, ret) := exchange_attach o in (create :: t, ret)
  | ShmError => ([create], RET_SHARED_MEMORY_ERROR)
  | ShmExists =>
      let '(t_reset, err) := exchange_reset (shm_reset o) in
      if negb (err =? 0) then (create :: t_reset, RET_SHARED_MEMORY_ERROR)
      else
        match shm_second o with
        | ShmCreated =>
            let '(t, ret) := exchange_attach o in
            (create :: t_reset ++ create :: t, ret)
        | _ => (create :: t_reset ++ [create], RET_SHARED_MEMORY_ERROR)
        end
  end.

(** [exchange_close], for an attached segment. *)
Definition exchange_close : list Event := [EvRemoveRegion].

(** ** Activation *)

Inductive PlistResult :=
  | PlistTooBig
  | PlistOpenFails (errno : Z)
  | PlistWritten (result : Z).

Definition create_daemon_plist (r : PlistResult) : list Event * Z :=
  match r with
  | PlistTooBig => ([], E2BIG)
  | PlistOpenFails errno => ([], if errno =? 0 then EPERM else errno)
  | PlistWritten result =>
      (EvFile PLIST_PATH :: (if result =? 0 then [] else [EvUnlink PLIST_PATH]),
       result)
  end.

Inductive DataDirState :=
  | DirPresent
  | DirMissing (mkdir_ok : bool)
  | DirInaccessible.

Definition prepare_data_dir (d : DataDirState) : list Event * Z :=
  match d with
  | DirPresent => ([], RET_SUCCESS)
  | DirMissing true => ([EvFile APP_DATA_DIR], RET_SUCCESS)
  | DirMissing false => ([], RET_ERROR)
  | DirInaccessible => ([], RET_ERROR)
  end.

Record ActivateOracle := mkActivate {
  a_plist : PlistResult;
  a_snaps : nat → Snapshot;
  a_reset : option Z;
  a_local_ok : bool;
  a_global : DataDirState;
  a_symlink_ok : bool
}.

Definition activate (_noKillPid : Z) (o : ActivateOracle) : list Event * Z :=
  let '(t1, err) := create_daemon_plist (a_plist o) in
  if negb (err =? 0) then (t1, RET_ACTIVATE_ERROR)
  else
    let '(t2, err) :=
      kill_old_processes_and_wait ownPid parentPid _noKillPid 0 (a_snaps o) in
    if negb (err =? 0) then (t1 ++ t2, RET_ACTIVATE_ERROR)
    else
      let '(t3, err) := exchange_reset (a_reset o) in
      if negb (err =? 0) then (t1 ++ t2 ++ t3, RET_ACTIVATE_ERROR)
      else if negb (a_local_ok o) then
        let '(t4, ret) := prepare_data_dir (a_global o) in
        (t1 ++ t2 ++ t3 ++ t4, ret)
      else
        match a_global o with
        | DirPresent => (t1 ++ t2 ++ t3, 0)
        | _ =>
            (t1 ++ t2 ++ t3
             ++ (if a_symlink_ok o then [EvFile APP_DATA_DIR] else []), 0)
        end.

(** ** The service loop *)

(** What one pass of the [while (!shl->terminate)] loop of [main]
    meets in the world around it. *)
Record Tick := mkTick {
  t_exe_present : bool;            (* access(argv[0], F_OK) == 0 *)
  t_snaps : nat → Snapshot;        (* the process table, kill pass by kill pass *)
  t_cfg : option (list string);    (* the configuration file *)
  t_malloc_ok : bool;              (* malloc in launch_backend *)
  t_fork : ForkResult;             (* fork in launch_backend *)
  t_others : Exchange → Exchange;  (* stores by other processes during msleep *)
  t_sigterm : bool                 (* on_terminate ran during this pass *)
}.

(** The locals [kill], [launch] and [srcPid] of [main]. *)
Record Locals := mkLocals { l_kill : Z; l_launch : Z; l_srcPid : Z }.

(** One pass of the loop; [None] stands for [break]. *)
Definition loop_body (_noKillPid : Z) (t : Tick) (st : Locals)
    : Eff (option Locals) :=
  incr_u32 FCycles;;
  if negb (t_exe_present t) then
    emit (EvUnlink PLIST_PATH);;
    mret None
  else
    (if negb (l_kill st =? 0) then
       emits (kill_old_processes_and_wait ownPid parentPid _noKillPid
                (l_srcPid st) (t_snaps t)).1;;
       _ ← sync_fetch_and_and FLaunch (Z.lnot LAUNCH_FLAG_KILL_FIRST);
       mret tt
     else mret tt);;
    (if negb (l_launch st =? 0) then
       let cfg := (cfg_load (t_cfg t)).1 in
       (if backend cfg then
          let '(t_launch, status) := launch_backend (t_malloc_ok t) (t_fork t) in
          emits t_launch;;
          _ ← sync_swap FStatus (if negb (status =? 0) then 0 else 1);
          mret tt
        else mret tt);;
       _ ← sync_fetch_and_and FLaunch (Z.lnot LAUNCH_MASK);
       mret tt
     else mret tt);;
    others (t_others t);;
    srcPid ← load FLaunchProcessId;
    exchgLaunch ← load FLaunch;
    mret (Some (mkLocals (Z.land exchgLaunch LAUNCH_FLAG_KILL_FIRST)
                         (Z.land exchgLaunch LAUNCH_MASK)
                         srcPid)).

(** How the loop is left. *)
Inductive LoopEnd :=
  | ExecutableGone              (* break *)
  | Terminated                  (* shl->terminate was set *)
  | StillRunning (st : Locals). (* the script of ticks ran out *)

Fixpoint main_loop (_noKillPid : Z) (ticks : list Tick) (terminate : bool)
    (st : Locals) : Eff LoopEnd :=
  if terminate then mret Terminated
  else
    match ticks with
    | [] => mret (StillRunning st)
    | t :: ticks' =>
        r ← loop_body _noKillPid t st;
        match r with
        | None => mret ExecutableGone
        | Some st' => main_loop _noKillPid ticks' (t_sigterm t) st'
        end
    end.

(** What follows the loop in [main], as far as the outside sees it: the
    shutdown signal and [cleanup].  Between the two
    [wait_for_backend_exit] counts processes and sleeps; the time it
    takes is in [MacStop.main_tail]. *)
Definition main_stop : Eff Z :=
  _ ← sync_swap FShutdown 1;
  emits exchange_close;;
  mret RET_SUCCESS.

Record ServiceOracle := mkService {
  o_startup_snaps : nat → Snapshot;
  o_calloc_ok : bool;
  o_setuid_ok : bool;
  o_shm : ShmOracle;
  o_iconv_ok : bool;
  o_cfg : option (list string);
  o_early_sigterm : bool;
  o_ticks : list Tick
}.

(** [main] from the moment the segment is attached up to its [return];
    [None] when the script ends while the loop is still running. *)
Definition main_attached (_noKillPid : Z) (o : ServiceOracle) : Eff (option Z) :=
  store_text (ex_set_dataDir (APP_DATA_DIR +:+ "/"));;
  store_text (ex_set_build (String.substring 0 7 SHLAUNCH_BUILD));;
  store FProcessId ownPid;;
  store FSize sizeof_Exchange;;
  let srcPid := 0 in
  let kill := LAUNCH_FLAG_KILL_FIRST in
  let cfg := (cfg_load (o_cfg o)).1 in
  let launch :=
    if negb (-1 =? _noKillPid) || (autoStart cfg && backend cfg) then 1 else 0 in
  e ← main_loop _noKillPid (o_ticks o) (o_early_sigterm o)
        (mkLocals kill launch srcPid);
  match e with
  | StillRunning _ => mret None
  | _ => ret ← main_stop; mret (Some ret)
  end.

(** [main] when it runs the service. *)
Definition main_service (_noKillPid uid : Z) (o : ServiceOracle)
    : option Z * list Event :=
  let '(t_kill, _) :=
    kill_old_processes_and_wait ownPid parentPid _noKillPid _noKillPid
      (o_startup_snaps o) in
  if negb (o_calloc_ok o) then (Some RET_ERROR, t_kill)
  else if negb (-1 =? uid) && negb (o_setuid_ok o) then
    (Some RET_SETUID_ERROR, t_kill ++ [EvSetuid uid])
  else
    let t_uid := if negb (-1 =? uid) then [EvSetuid uid] else [] in
    let '(t_shm, ret) := exchange_open (o_shm o) in
    if negb (ret =? 0) then (Some ret, t_kill ++ t_uid ++ t_shm)
    else if negb (o_iconv_ok o) then
      (Some ret, t_kill ++ t_uid ++ t_shm ++ exchange_close)
    else
      let '(ret, _, t_run) := run (main_attached _noKillPid o) Exchange_zero in
      (ret, t_kill ++ t_uid ++ t_shm ++ t_run).

(** [main(argc, argv)], with [argc = length argv]: the exit code, if
    the process ends within the script, and what it did. *)
Definition main (argv : list string) (oa : ActivateOracle) (os : ServiceOracle)
    : option Z * list Event :=
  match argv with
  | [] | [_] => (Some RET_ARGS_ERROR, [])
  | _ :: argv1 :: _ =>
      if negb (strcmp_eq argv1 SHLAUNCH_BUILD) then (Some RET_BUILD_MISMATCH, [])
      else if (6 <=? length argv)%nat && strcmp_eq "--activate" (nth 2 argv "")
      then
        let _noKillPid := atoi (nth 3 argv "") in
        let '(t, ret) := activate _noKillPid oa in
        (Some ret, EvHandler :: t)
      else
        let '(ret, t) := main_service (-1) (-1) os in
        (ret, EvHandler :: t)
  end.
End Service.

End Mac.

(** * The Windows service: shlaunchWin/shlaunch.c *)

Module Win.

Definition EXITCODE_SUCCESS : Z := 0.
Definition EXITCODE_BAD_ARGS : Z := 1.
Definition EXITCODE_ERROR : Z := 2.
Definition EXITCODE_SERVICE_ERROR : Z := 3.
Definition EXITCODE_SERVICE_REMOVAL_PENDING : Z := 4.
Definition EXITCODE_SERVICE_EXISTS : Z := 5.
Definition EXITCODE_SERVICE_MISSING : Z := 6.
Definition EXITCODE_DATADIR_POINTER_ERROR : Z := 7.

Definition ERROR_SUCCESS : Z := 0.
Definition ERROR_ACCESS_DENIED : Z := 5.

Definition SERVICE_NAME : string := "shlaunch".
Definition SERVICE_EXE : string := "shlaunch.exe".
Definition BACKEND_EXE : string := "Sighthound Agent.exe".
Definition ARG_PREFIX : string := "--".
Definition ARG_NO_AUTOSTART : string := ARG_PREFIX +:+ "no-autostart".

Definition KILL_CANDIDATES_ALL : list string :=
[SERVICE_EXE; BACKEND_EXE; "Sighthound Video.exe"; "Sighthound USB.exe";
 "Sighthound Web.exe"; "Sighthound XNAT.exe"; "SighthoundXNAT.exe"].

(** [&KILL_CANDIDATES_ALL[1]] *)
Definition KILL_CANDIDATES : list string := drop 1 KILL_CANDIDATES_ALL.

(** ** Configuration *)

Record Config := mkConfig { autoStart : bool; backend : bool }.

(** [GetPrivateProfileString]: the value found for the key, or the
  default when the file or the key is missing. *)
Definition GetPrivateProfileString (found : option string) (default : string)
  : string :=
match found with
| Some value => value
| None => default
end.

(** What the profile API answers for the two keys, and [errno] after
  each call. *)
Record Profile := mkProfile {
ini_autostart : option string;
ini_backend : option string;
ini_errno1 : Z;
ini_errno2 : Z
}.

(** [config_read]: [ctx->config] and the returned flag. *)
Definition config_read (ini : Profile) : Config * bool :=
let value := GetPrivateProfileString (ini_autostart ini) "FALSE" in
let result := negb (ini_errno1 ini =? 2) in
let autoStart := tcsicmp_eq "TRUE" value in
let value := GetPrivateProfileString (ini_backend ini) "TRUE" in
let result := result && negb (ini_errno2 ini =? 2) in
let backend := tcsicmp_eq "TRUE" value in
(mkConfig autoStart backend, result).

(** ** Process enumeration *)

(** How far [enumerate_processes] gets with one PID. *)
Inductive Inspect :=
| CannotOpen              (* OpenProcess fails *)
| CannotName              (* EnumProcessModules or GetModuleBaseName fails *)
| Named (exe : string).

Record Proc := mkProc {
w_pid : Z;
w_inspect : Inspect;
w_terminate_ok : bool;    (* what TerminateProcess would answer *)
w_close_ok : bool         (* what CloseHandle would answer *)
}.

Inductive Snapshot :=
| EnumFails (err : Z)
| Processes (procs : list Proc).

(** A handler gets the context and the process; it returns the new
  context, its BOOL result, whether it left the process handle in
  place, and what it did. *)
Definition Handler (C : Type) : Type := C → Proc → string → C * bool * bool * list Event.

(** The [for] loop of [enumerate_processes]; [ERROR_CLOSE] stands for
  the [GetLastError()] of a failed [CloseHandle]. *)
Definition ERROR_CLOSE : Z := 6.

Fixpoint enumerate_loop {C : Type} (handler : Handler C) (ctx : C)
  (procs : list Proc) (result : Z) : C * Z * list Event :=
match procs with
| [] => (ctx, result, [])
| p :: rest =>
    if w_pid p =? 0 then enumerate_loop handler ctx rest result
    else
      match w_inspect p with
      | CannotOpen => enumerate_loop handler ctx rest result
      | CannotName =>
          if w_close_ok p then enumerate_loop handler ctx rest result
          else (ctx, ERROR_CLOSE, [])
      | Named exe =>
          let '(ctx', continue, handle, t) := handler ctx p exe in
          if handle && negb (w_close_ok p) then (ctx', ERROR_CLOSE, t)
          else if continue then
            let '(ctx'', result', t') :=
              enumerate_loop handler ctx' rest (result + 1) in
            (ctx'', result', t ++ t')
          else (ctx', result, t)
      end
end.

Definition enumerate_processes {C : Type} (handler : Handler C) (ctx : C)
  (snap : Snapshot) : C * Z * list Event :=
match snap with
| EnumFails err => (ctx, err, [])
| Processes procs => enumerate_loop handler ctx procs ERROR_SUCCESS
end.

(** [struct KillContext]; the handles kept in [terminatedProcesses] are
  named by their PID. *)
Record KillContext := mkKill {
kills : Z;
errors : Z;
noKillPid : Z;
candidates : list string;
terminatedProcesses : list Z
}.

Section Service.
(** [GetCurrentProcessId()] *)
Variable ownPid : Z.

(** The [for] loop of [kill_handler] over the candidates; [handle]
    tells whether [*process] is still a handle. *)
Fixpoint kill_candidates (p : Proc) (exe : string) (cands : list string)
    (kctx : KillContext) (handle : bool) : KillContext * bool * list Event :=
  match cands with
  | [] => (kctx, handle, [])
  | candidate :: cands' =>
      if negb (tcsicmp_eq candidate exe) then
        kill_candidates p exe cands' kctx handle
      else if handle && w_terminate_ok p then
        let kctx' :=
          mkKill (kills kctx + 1) (errors kctx) (noKillPid kctx)
            (candidates kctx) (terminatedProcesses kctx ++ [w_pid p]) in
        let '(k, h, t) := kill_candidates p exe cands' kctx' false in
        (k, h, EvSignal (w_pid p) :: t)
      else
        let kctx' :=
          mkKill (kills kctx) (errors kctx + 1) (noKillPid kctx)
            (candidates kctx) (terminatedProcesses kctx) in
        let '(k, h, t) := kill_candidates p exe cands' kctx' handle in
        (k, h, (if handle then [EvSignal (w_pid p)] else []) ++ t)
  end.

Definition kill_handler : Handler KillContext := λ kctx p exe,
  if (w_pid p =? ownPid) || (w_pid p =? noKillPid kctx) then
    (kctx, true, true, [])
  else
    let '(kctx', handle, t) := kill_candidates p exe (candidates kctx) kctx true in
    (kctx', true, handle, t).

(** [kill_processes]: what it did, and the number of errors. *)
Definition kill_processes (candidates : list string) (noKillPid : Z)
    (snap : Snapshot) : list Event * Z :=
  let kctx := mkKill 0 0 noKillPid candidates [] in
  let '(kctx', _, t) := enumerate_processes kill_handler kctx snap in
  (t, errors kctx').

Definition backend_detect_handler : Handler Z := λ counter p exe,
  (counter + (if tcsicmp_eq BACKEND_EXE exe then 1 else 0), true, true, []).

(** ** The service *)

(** [launch_backend]: [create] is [ERROR_SUCCESS] or the error of
    [CreateProcessW]. *)
Definition launch_backend (config : Config) (create : Z) : list Event * Z :=
  if negb (backend config) then ([], ERROR_ACCESS_DENIED)
  else ([EvSpawn (create =? ERROR_SUCCESS)], create).

(** [MAX_PATH] and the width of a pointer come with the platform;
    [TCHAR] is a 16-bit character. *)
Variables (MAX_PATH sizeof_pointer : Z).

(** [sizeof(struct Exchange)] under [#pragma pack(push, 1)]. *)
Definition sizeof_Exchange : Z := 7 * 4 + MAX_PATH * 2.

(** What one pass of the [for (;;)] loop of [svc_main] meets. *)
Record Tick := mkTick {
  t_ini : Profile;                 (* the configuration file *)
  t_procs : Snapshot;              (* the process table *)
  t_create : Z;                    (* CreateProcessW *)
  t_others : Exchange → Exchange;  (* stores by other processes during the wait *)
  t_exit : bool;                   (* evtExit was set *)
  t_exe_present : bool             (* the service executable is on disk;
                                      svc_main never looks *)
}.

(** One pass of the loop; [false] stands for [break]. *)
Definition loop_body (t : Tick) : Eff bool :=
  launch ← sync_swap FLaunch 0;
  interlocked_increment FCycles;;
  status ←
    (if negb (launch =? 0) then
       let config := (config_read (t_ini t)).1 in
       (if negb (Z.land LAUNCH_FLAG_KILL_FIRST launch =? 0) then
          noKill ← load FLaunchProcessId;
          emits (kill_processes KILL_CANDIDATES noKill (t_procs t)).1
        else mret tt);;
       (if negb (Z.land LAUNCH_MASK launch =? 0) then
          emits (launch_backend config (t_create t)).1
        else mret tt);;
       mret launch
     else mret 0);
  _ ← sync_swap FStatus status;
  others (t_others t);;
  mret (negb (t_exit t)).

(** [None] when the script of ticks runs out before the loop ends. *)
Fixpoint svc_loop (ticks : list Tick) : Eff (option unit) :=
  match ticks with
  | [] => mret None
  | t :: ticks' =>
      continue ← loop_body t;
      if (continue : bool) then svc_loop ticks' else mret (Some tt)
  end.

(** What follows the loop in [svc_main], up to the label [cleanup]:
    [procs] is the process table, [waiting] what other processes store
    while the service waits for the flag to be picked up. *)
Definition svc_stop (procs : Snapshot) (waiting : Exchange → Exchange)
    : Eff unit :=
  let backendProcessCount :=
    (enumerate_processes backend_detect_handler 0 procs).1.1 in
  if backendProcessCount =? 0 then mret tt
  else
    store FShutdown 1;;
    others waiting.

Record ServiceOracle := mkService {
  o_calloc_ok : bool;
  o_descriptor_ok : bool;          (* ConvertStringSecurityDescriptor... *)
  o_mapping_ok : bool;             (* CreateFileMapping *)
  o_view_ok : bool;                (* MapViewOfFile *)
  o_register_ok : bool;            (* RegisterServiceCtrlHandler *)
  o_dataDir : option string;       (* get_data_dir_from_pointer *)
  o_acl_ok : bool;                 (* ensure_dir_with_user_acl *)
  o_ini : Profile;
  o_event_ok : bool;               (* CreateEvent *)
  o_ticks : list Tick;
  o_stop_procs : Snapshot;
  o_stop_waiting : Exchange → Exchange
}.

Definition cleanup (mapped : bool) : list Event :=
  (if mapped then [EvRemoveRegion] else []) ++ [EvService "SERVICE_STOPPED"].

(** [svc_main] once the view is mapped, up to [cleanup]; [None] when
    the script ends while the loop is still running. *)
Definition svc_mapped (argv : list string) (o : ServiceOracle) : Eff (option unit) :=
  emit EvZeroRegion;;
  store FProcessId ownPid;;
  if negb (o_register_ok o) then mret (Some tt)
  else
    emit EvHandler;;
    emit (EvService "SERVICE_START_PENDING");;
    match o_dataDir o with
    | None => mret (Some tt)
    | Some dataDir =>
        if negb (o_acl_ok o) then mret (Some tt)
        else
          emit (EvFile dataDir);;
          store_text (ex_set_dataDir dataDir);;
          store FSize sizeof_Exchange;;
          let config := (config_read (o_ini o)).1 in
          let config :=
            if (length argv =? 2)%nat && strcmp_eq ARG_NO_AUTOSTART (nth 1 argv "")
            then mkConfig false (backend config) else config in
          if negb (o_event_ok o) then mret (Some tt)
          else
            emit (EvService "SERVICE_RUNNING");;
            store FLaunch (if autoStart config then 0xffff else 0);;
            e ← svc_loop (o_ticks o);
            match e with
            | None => mret None
            | Some _ =>
                svc_stop (o_stop_procs o) (o_stop_waiting o);;
                mret (Some tt)
            end
    end.

(** [svc_main(argc, argv)]: whether it returned within the script, and
    what it did.  The mapping is created with [sizeof(exchange)],
    [exchange] being declared as [struct Exchange*].  When [calloc]
    fails, [cleanup] passes the null context to [update_status], which
    reads [ctx->ssh]: the function does not return. *)
Definition svc_main (argv : list string) (o : ServiceOracle)
    : bool * list Event :=
  if negb (o_calloc_ok o) then (false, [])
  else if negb (o_descriptor_ok o) then (true, cleanup false)
  else
    let create := EvCreateRegion sizeof_pointer in
    if negb (o_mapping_ok o) then (true, create :: cleanup false)
    else if negb (o_view_ok o) then (true, create :: cleanup true)
    else
      let '(r, _, t) := run (svc_mapped argv o) Exchange_zero in
      match r with
      | None => (false, create :: t)
      | Some _ => (true, create :: t ++ cleanup true)
      end.

(** ** The command line *)

Record CommandOracle := mkCommand {
  c_module_ok : bool;              (* GetModuleFileName *)
  c_remove : Z;                    (* service_remove *)
  c_stop : Z;                      (* the service-manager half of service_shutdown *)
  c_stop_procs : Snapshot;
  c_install : Z;                   (* service_install *)
  c_start : Z;                     (* service_start *)
  c_dispatch : option (list string) (* the arguments the dispatcher passes on *)
}.

Definition service_shutdown (o : CommandOracle) : list Event * Z :=
  let '(t, errs) := kill_processes KILL_CANDIDATES_ALL 0 (c_stop_procs o) in
  (EvService "stop" :: t, if negb (errs =? 0) then EXITCODE_ERROR else c_stop o).

(** The [for] loop of [_tmain] over [argv[1..]]. *)
Fixpoint commands (o : CommandOracle) (args : list string) (exitcode : Z)
    : list Event * Z :=
  match args with
  | [] => ([], exitcode)
  | cmd :: args' =>
      if negb (exitcode =? 0) then ([], exitcode)
      else if has_prefix ARG_PREFIX cmd then commands o args' exitcode
      else
        let step :=
          if strcmp_eq "remove" cmd then Some ([EvService "remove"], c_remove o)
          else if strcmp_eq "shutdown" cmd then Some (service_shutdown o)
          else if strcmp_eq "install" cmd then Some ([EvService "install"], c_install o)
          else if strcmp_eq "start" cmd then Some ([EvService "start"], c_start o)
          else None in
        match step with
        | None => ([], EXITCODE_BAD_ARGS)
        | Some (t, exitcode') =>
            let '(t', r) := commands o args' exitcode' in (t ++ t', r)
        end
  end.

Definition service_execute (o : CommandOracle) (os : ServiceOracle)
    : option Z * list Event :=
  match c_dispatch o with
  | None => (Some EXITCODE_ERROR, [])
  | Some svc_argv =>
      let '(returned, t) := svc_main svc_argv os in
      ((if returned then Some EXITCODE_SUCCESS else None) : option Z, t)
  end.

(** [_tmain(argc, argv)] *)
Definition _tmain (argv : list string) (o : CommandOracle) (os : ServiceOracle)
    : option Z * list Event :=
  if negb (c_module_ok o) then (Some EXITCODE_ERROR, [])
  else if (1 <? length argv)%nat then
    let '(t, exitcode) := commands o (drop 1 argv) EXITCODE_SUCCESS in
    (Some exitcode, t)
  else service_execute o os.
End Service.

End Win.

(** * The client library: launch.c *)

Module Client.

Definition EXCHG_TMOUT_SECS : Z := 10.

(** What one evaluation of the condition of the waiting loop of
  [launch_open] reads from the shared memory, and what [time(NULL)]
  answers right after it. *)
Record Poll := mkPoll { seen_size : Z; seen_cycles : Z; now : Z }.

(** How the attachment goes: [calloc], then [shmget] or
  [OpenFileMapping], then [shmat] or [MapViewOfFile]; the value of
  [cycles] read first and the time at that moment. *)
Record Attach := mkAttach {
calloc_ok : bool;
mapping_ok : bool;
view_ok : bool;
first_cycles : Z;
start : Z
}.

Inductive OpenResult :=
| Handle      (* a handle is returned *)
| Null        (* NULL is returned *)
| Polling.    (* the script of polls ran out inside the loop *)

Section Open.
(** [sizeof(struct Exchange)] of the platform the library is built for. *)
Variable sizeof_Exchange : Z.

(** The loop
    [while (exchange->size != sizeof(struct Exchange) &&
            cycles == exchange->cycles)
       { if (time(NULL) > tmout) goto fail; usleep(1); }] *)
Fixpoint wait_ready (cycles tmout : Z) (polls : list Poll) : OpenResult :=
  match polls with
  | [] => Polling
  | p :: polls' =>
      if negb (seen_size p =? sizeof_Exchange) && (cycles =? seen_cycles p) then
        if now p >? tmout then Null else wait_ready cycles tmout polls'
      else Handle
  end.

(** [launch_open] of the Windows branch, where [launch_close] tests
    its argument. *)
Definition launch_open (a : Attach) (polls : list Poll) : OpenResult :=
  if negb (calloc_ok a) then Null
  else if negb (mapping_ok a) then Null
  else if negb (view_ok a) then Null
  else
    let cycles := first_cycles a in
    let tmout := start a + EXCHG_TMOUT_SECS in
    wait_ready cycles tmout polls.

(** [launch_open] of the other branch: the same once the handle is
    allocated.  When [calloc] gives NULL, the call [launch_close(result)]
    at [fail] reads [lh->exchange] through the null handle, and the
    function does not return: [None]. *)
Definition launch_open_posix (a : Attach) (polls : list Poll)
    : option OpenResult :=
  if negb (calloc_ok a) then None
  else Some (launch_open a polls).
End Open.

(** [launch_do]: the caller's PID is stored, then the launch word is
  swapped in. *)
Definition launch_do (processId signal : Z) : Eff Z :=
store FLaunchProcessId processId;;
sync_swap FLaunch signal.

End Client.

(** * Waiting for the back end on the Mac: shlaunchMac/shlaunch.c *)

Module MacStop.

Definition SHUTDOWN_WAIT_SECS : Z := 10.

(** The sleep of a pass of the loop of [main], in milliseconds. *)
Definition IDLE_MILLIS : Z := 100.

Section Stop.
(** [getpid()] and the global [_noKillPid]. *)
Variables (ownPid _noKillPid : Z).

(** [count_handler]: the context is the counter. *)
Definition count_handler (count : Z) (p : Mac.Proc) : Z * Z :=
  if negb (Mac.is_sv_process (Mac.p_comm p) =? 0) then
    (if negb (Mac.p_pid p =? _noKillPid) && negb (Mac.p_pid p =? ownPid)
     then count + 1 else count,
     0)
  else (count, 0).

(** How [wait_for_backend_exit] ends. *)
Inductive WaitEnd :=
  | EnumerationFailed (eres : Z)    (* return *)
  | BackendGone                     (* break: nothing left *)
  | TimedOut (processesLeft : Z)    (* break: the deadline has come *)
  | StillWaiting.                   (* the script of rounds ran out *)

(** The [for (;;)] loop of [wait_for_backend_exit]: a round is the
    process table that the enumeration sees and what [time(NULL)]
    answers after it. *)
Fixpoint wait_loop (tmout : Z) (rounds : list (Mac.Snapshot * Z)) : WaitEnd :=
  match rounds with
  | [] => StillWaiting
  | (snap, now) :: rounds' =>
      let '(processesLeft, eres) := Mac.enum_processes count_handler 0 snap in
      if negb (eres =? 0) then EnumerationFailed eres
      else if 0 >=? processesLeft then BackendGone
      else if now >=? tmout then TimedOut processesLeft
      else wait_loop tmout rounds'
  end.

(** [wait_for_backend_exit(shl, waitSecs)]; [start] is the first
    [time(NULL)]. *)
Definition wait_for_backend_exit (start waitSecs : Z)
    (rounds : list (Mac.Snapshot * Z)) : WaitEnd :=
  let tmout := start + waitSecs in
  wait_loop tmout rounds.

(** The milliseconds that the loop of [wait_for_backend_exit] spends in
    [msleep(2000)]: a round that neither returns nor breaks sleeps
    once. *)
Fixpoint wait_slept (tmout : Z) (rounds : list (Mac.Snapshot * Z)) : Z :=
  match rounds with
  | [] => 0
  | (snap, now) :: rounds' =>
      let '(processesLeft, eres) := Mac.enum_processes count_handler 0 snap in
      if negb (eres =? 0) then 0
      else if 0 >=? processesLeft then 0
      else if now >=? tmout then 0
      else 2000 + wait_slept tmout rounds'
  end.

(** What follows the loop in [main], the wait included: the swap of
    [shutdown], [wait_for_backend_exit(shl, SHUTDOWN_WAIT_SECS)], then
    [cleanup] and [return ret].  [None] when the script of rounds runs
    out while the wait goes on. *)
Definition main_tail (start : Z) (rounds : list (Mac.Snapshot * Z))
    : Eff (option Z) :=
  _ ← sync_swap FShutdown 1;
  match wait_for_backend_exit start SHUTDOWN_WAIT_SECS rounds with
  | StillWaiting => mret None
  | _ =>
      emits Mac.exchange_close;;
      mret (Some Mac.RET_SUCCESS)
  end.
End Stop.

End MacStop.

(** * Installation and start on Windows: shlaunchWin/shlaunch.c *)

Module WinInstall.

Definition ERROR_SERVICE_ALREADY_RUNNING : Z := 1056.

(** The separator [L"\\"]. *)
Definition BACKSLASH : string := String (ascii_of_nat 92) EmptyString.

Section DataDir.
Variable MAX_PATH : Z.

(** [_tcscpy_s] and [_tcscat_s] into a buffer of [MAX_PATH] characters:
    [None] when the text and its terminator do not fit, in which case
    the invalid-parameter handler ends the process. *)
Definition tcscpy_s (src : string) : option string :=
  if Z.of_nat (String.length src) <? MAX_PATH then Some src else None.

Definition tcscat_s (dst src : string) : option string :=
  if Z.of_nat (String.length dst + String.length src) <? MAX_PATH
  then Some (dst +:+ src) else None.

(** [svObjects] of [is_data_dir], without its [NULL]. *)
Definition svObjects : list string := ["logs"; "license.lic"; "videos"].

(** The loop of [is_data_dir] from [svObject] on: [fs n path] tells
    whether the [n]-th [get_file_attributes] from now finds [path].
    The result is whether [*svObject] is not [NULL] at the end, and the
    paths that were looked up.  The name appended is [*svObjects], the
    first element of the array. *)
Fixpoint is_data_dir_from (fs : nat → string → bool) (path : string)
    (svObject : list string) : option (bool * list string) :=
  match svObject with
  | [] => Some (false, [])
  | _ :: svObject' =>
      svObjectPath ← tcscpy_s path;
      svObjectPath ← tcscat_s svObjectPath BACKSLASH;
      svObjectPath ← tcscat_s svObjectPath (hd "" svObjects);
      if fs O svObjectPath then Some (true, [svObjectPath])
      else
        '(found, looked) ← is_data_dir_from (λ n, fs (S n)) path svObject';
        Some (found, svObjectPath :: looked)
  end.

Definition is_data_dir (fs : nat → string → bool) (path : string)
    : option (bool * list string) :=
  is_data_dir_from fs path svObjects.
End DataDir.

(** The arguments that [service_start] hands to [StartService]. *)
Definition service_start_args : list string :=
  [Win.SERVICE_NAME; Win.ARG_NO_AUTOSTART].

(** [service_start]: [open] is the exit code of [service_open], [start]
    is [None] when [StartService] succeeds and its error otherwise.  The
    result is the arguments handed to [StartService], if it is called,
    and the exit code. *)
Definition service_start (open : Z) (start : option Z)
    : option (list string) * Z :=
  let exitcode := open in
  if exitcode =? Win.EXITCODE_SUCCESS then
    (Some service_start_args,
     match start with
     | None => exitcode
     | Some err =>
         if err =? ERROR_SERVICE_ALREADY_RUNNING then Win.EXITCODE_SUCCESS
         else exitcode
     end)
  else (None, exitcode).

End WinInstall.

(** * Vocabulary of the statements *)

(** The PIDs of the processes of a snapshot that carry a Sighthound
  name, in the order of the snapshot. *)
Definition sv_pids (kips : list Mac.Proc) : list Z :=
map Mac.p_pid
  (List.filter (λ p, negb (Mac.is_sv_process (Mac.p_comm p) =? 0)) kips).

(** The event changes the member [f] of the Exchange. *)
Definition touches (f : Field) (e : Event) : bool :=
match e with
| EvStore g _ | EvIncr g | EvSwap g _ | EvFetchAnd g _ => bool_decide (g = f)
| EvZeroRegion => true
| _ => false
end.

(** The test that guards [kill] in the loop of [Mac.kill_old_processes]. *)
Definition spared (ownPid parentPid _noKillPid noKillPid pid : Z) : bool :=
(ownPid =? pid) || (parentPid =? pid) || (_noKillPid =? pid) || (noKillPid =? pid).

(** [v] is the word TRUE, each letter in either case. *)
Definition either_case (upper lower c : ascii) : Prop := c = upper ∨ c = lower.

Definition casing_of_TRUE (v : string) : Prop :=
  ∃ c1 c2 c3 c4,
    v = String c1 (String c2 (String c3 (String c4 EmptyString)))
    ∧ either_case "T" "t" c1 ∧ either_case "R" "r" c2
    ∧ either_case "U" "u" c3 ∧ either_case "E" "e" c4.

(** The kill step of a pass of the Mac loop, as a trace: the kill passes,
    then the AND-NOT that clears the kill-first bit. *)
Definition mac_kill_step (ownPid parentPid _noKillPid : Z) (t : Mac.Tick)
    (st : Mac.Locals) : list Event :=
  if Mac.l_kill st =? 0 then []
  else
    (Mac.kill_old_processes_and_wait ownPid parentPid _noKillPid
       (Mac.l_srcPid st) (Mac.t_snaps t)).1
    ++ [EvFetchAnd FLaunch (Z.lnot LAUNCH_FLAG_KILL_FIRST)].

(** The launch step of a pass of the Mac loop, as a trace: if the
    configuration permits it, the spawn and the swap of [status]; then,
    permitted or not, the AND-NOT that clears the launch code. *)
Definition mac_launch_step (t : Mac.Tick) (st : Mac.Locals) : list Event :=
  if Mac.l_launch st =? 0 then []
  else
    (if Mac.backend (Mac.cfg_load (Mac.t_cfg t)).1
     then (Mac.launch_backend (Mac.t_malloc_ok t) (Mac.t_fork t)).1
          ++ [EvSwap FStatus 1]
     else [])
    ++ [EvFetchAnd FLaunch (Z.lnot LAUNCH_MASK)].

(** The bits of the launch word that a pass of the Mac loop handles. *)
Definition handled_bits (st : Mac.Locals) : Z :=
  Z.lor (if Mac.l_kill st =? 0 then 0 else LAUNCH_FLAG_KILL_FIRST)
        (if Mac.l_launch st =? 0 then 0 else LAUNCH_MASK).

(** The Exchange after the kill and launch steps of a pass of the Mac
    loop, before the loop sleeps. *)
Definition mac_pass_exchange (t : Mac.Tick) (st : Mac.Locals) (ex : Exchange)
    : Exchange :=
  let ex := ex_set FCycles (wrap_u32 (cycles ex + 1)) ex in
  let ex :=
    if (Mac.l_launch st =? 0) || negb (Mac.backend (Mac.cfg_load (Mac.t_cfg t)).1)
    then ex else ex_set FStatus 1 ex in
  ex_set FLaunch (Z.land (launch ex) (Z.lnot (handled_bits st))) ex.

(** The kill and launch steps of a pass of the Windows loop that found
    [launch] in the launch word, as a trace. *)
Definition win_steps (ownPid : Z) (t : Win.Tick) (ex : Exchange) : list Event :=
  if launch ex =? 0 then []
  else
    (if Z.land LAUNCH_FLAG_KILL_FIRST (launch ex) =? 0 then []
     else (Win.kill_processes ownPid Win.KILL_CANDIDATES (launchProcessId ex)
             (Win.t_procs t)).1)
    ++ (if Z.land LAUNCH_MASK (launch ex) =? 0 then []
        else (Win.launch_backend (Win.config_read (Win.t_ini t)).1 (Win.t_create t)).1).

(** The Exchange after a pass of the Windows loop, before the loop
    waits. *)
Definition win_pass_exchange (ex : Exchange) : Exchange :=
  ex_set FStatus (launch ex)
    (ex_set FCycles (wrap_i32 (cycles ex + 1)) (ex_set FLaunch 0 ex)).

(** The number of back-end processes that [Win.svc_stop] counts. *)
Definition win_backend_count (procs : Win.Snapshot) : Z :=
  (Win.enumerate_processes (Win.backend_detect_handler) 0 procs).1.1.

Definition is_fetch_and (e : Event) : bool :=
  match e with EvFetchAnd _ _ => true | _ => false end.

Definition is_unlink (e : Event) : bool :=
  match e with EvUnlink _ => true | _ => false end.

Definition is_create (e : Event) : bool :=
  match e with EvCreateRegion _ => true | _ => false end.

(** ** Vocabulary of the further properties *)

(** The line assigns [autostart], [backend]: it starts with the token. *)
Definition assigns_autostart (ln : string) : bool :=
  strncmp_eq ln Mac.tokenAutoStart (String.length Mac.tokenAutoStart).

Definition assigns_backend (ln : string) : bool :=
  strncmp_eq ln Mac.tokenBackend (String.length Mac.tokenBackend).

(** The text of the line from position [n] on starts with TRUE. *)
Definition says_TRUE (n : nat) (ln : string) : bool :=
  strncmp_eq (str_from n ln) Mac.CONFIG_VALUE_TRUE (String.length Mac.CONFIG_VALUE_TRUE).

(** The events that a pass of the Mac loop can leave. *)
Definition mac_loop_event (e : Event) : bool :=
  match e with
  | EvIncr FCycles | EvSignal _ | EvSpawn _ => true
  | EvUnlink path => bool_decide (path = Mac.PLIST_PATH)
  | EvFetchAnd FLaunch m =>
      bool_decide (m = Z.lnot LAUNCH_FLAG_KILL_FIRST ∨ m = Z.lnot LAUNCH_MASK)
  | EvSwap FStatus v => bool_decide (v = 1)
  | _ => false
  end.

Definition is_setuid (e : Event) : bool :=
  match e with EvSetuid _ => true | _ => false end.

Definition is_spawn (e : Event) : bool :=
  match e with EvSpawn _ => true | _ => false end.

Definition is_heartbeat (e : Event) : bool :=
  match e with EvIncr FCycles => true | _ => false end.

(** What a client that calls [launch_do] does to the Exchange. *)
Definition client_write (processId signal : Z) (ex : Exchange) : Exchange :=
  exchange_of (run (Client.launch_do processId signal) ex).

(** The number of passes that the Mac loop runs over a script of ticks:
    a pass runs when [terminate] is not set, and is the last one when it
    finds the executable gone. *)
Fixpoint mac_passes (ticks : list Mac.Tick) (terminate : bool) : nat :=
  if terminate then O
  else
    match ticks with
    | [] => O
    | t :: ticks' =>
        S (if Mac.t_exe_present t then mac_passes ticks' (Mac.t_sigterm t) else O)
    end.

(** The other processes leave the heartbeat counter alone. *)
Definition keeps_cycles (g : Exchange → Exchange) : Prop :=
  ∀ ex, cycles (g ex) = cycles ex.

(** [enumerate_processes] gets as far as the handler with this entry of
    the process table. *)
Definition win_handled (p : Win.Proc) : bool :=
  negb (Win.w_pid p =? 0)
  && match Win.w_inspect p with Win.Named _ => true | _ => false end.

(** The argument is skipped by the loop of [_tmain]. *)
Definition is_option (arg : string) : bool := has_prefix Win.ARG_PREFIX arg.

(** The event is a plain store to the launch word. *)
Definition is_launch_store (e : Event) : bool :=
  match e with EvStore FLaunch _ => true | _ => false end.

(** [svc_main] gets as far as its loop. *)
Definition win_service_starts (o : Win.ServiceOracle) : bool :=
  Win.o_register_ok o
  && match Win.o_dataDir o with Some _ => true | None => false end
  && Win.o_acl_ok o && Win.o_event_ok o.

(** What the waiting loop of [launch_open] finds at a poll: the service
    has neither announced its size nor moved its heartbeat. *)
Definition unready (expected : Z) (a : Client.Attach) (p : Client.Poll) : bool :=
  negb (Client.seen_size p =? expected)
  && (Client.first_cycles a =? Client.seen_cycles p).

(** The poll ends the waiting loop: the service is ready, or the
    deadline has passed. *)
Definition ends_wait (expected : Z) (a : Client.Attach) (p : Client.Poll) : bool :=
  negb (unready expected a p)
  || (Client.now p >? Client.start a + Client.EXCHG_TMOUT_SECS).


(** The process is one that [count_handler] counts. *)
Definition counted (ownPid _noKillPid : Z) (p : Mac.Proc) : bool :=
  negb (Mac.is_sv_process (Mac.p_comm p) =? 0)
  && negb (Mac.p_pid p =? _noKillPid) && negb (Mac.p_pid p =? ownPid).

(** The number of processes of a snapshot that [count_handler] counts;
    a failed [sysctl] leaves the counter at 0. *)
Definition backends_left (ownPid _noKillPid : Z) (snap : Mac.Snapshot) : Z :=
  match snap with
  | Mac.SysctlFails _ => 0
  | Mac.Processes kips => Z.of_nat (length (List.filter (counted ownPid _noKillPid) kips))
  end.

(** The round ends the wait for the back end: the enumeration fails,
    nothing is left, or the deadline has come. *)
Definition ends_backend_wait (ownPid _noKillPid tmout : Z)
    (round : Mac.Snapshot * Z) : bool :=
  match round.1 with
  | Mac.SysctlFails _ => true
  | Mac.Processes _ =>
      (backends_left ownPid _noKillPid round.1 =? 0) || (round.2 >=? tmout)
  end.

(** The one path that [is_data_dir] looks up for a directory [path]. *)
Definition logs_of (path : string) : string :=
  path +:+ WinInstall.BACKSLASH +:+ "logs".

(** The events that a pass of the Windows loop can leave. *)
Definition win_loop_event (e : Event) : bool :=
  match e with
  | EvIncr FCycles | EvSignal _ | EvSpawn _ | EvSwap FStatus _ => true
  | EvSwap FLaunch v => bool_decide (v = 0)
  | _ => false
  end.

(** The event is a call of [update_status]. *)
Definition is_report (e : Event) : bool :=
  match e with EvService _ => true | _ => false end.

(** [svc_main] gets as far as mapping the view. *)
Definition win_service_maps (o : Win.ServiceOracle) : bool :=
  Win.o_calloc_ok o && Win.o_descriptor_ok o && Win.o_mapping_ok o && Win.o_view_ok o.

(** * Properties *)

(** ** Process enumeration and the kill pass on the Mac *)

Lemma sv_pids_cons_sv p kips :
Mac.is_sv_process (Mac.p_comm p) ≠ 0 →
sv_pids (p :: kips) = Mac.p_pid p :: sv_pids kips.
Proof.
intros H. unfold sv_pids. simpl.
destruct (Z.eqb_spec (Mac.is_sv_process (Mac.p_comm p)) 0); [done|]. reflexivity.
Qed.

Lemma sv_pids_cons_other p kips :
Mac.is_sv_process (Mac.p_comm p) = 0 → sv_pids (p :: kips) = sv_pids kips.
Proof. intros H. unfold sv_pids. simpl. rewrite H. reflexivity. Qed.

Lemma find_handler_other fpctx p :
  Mac.is_sv_process (Mac.p_comm p) = 0 → Mac.find_handler fpctx p = (fpctx, 0).
Proof. intros H. unfold Mac.find_handler. by rewrite H. Qed.

Lemma find_handler_room fpctx p :
  Mac.is_sv_process (Mac.p_comm p) ≠ 0 →
  Mac.count fpctx < Mac.MAX_PROCESSES →
  Mac.find_handler fpctx p
  = (Mac.mkFind (<[Z.to_nat (Mac.count fpctx) := Mac.p_pid p]> (Mac.pids fpctx))
       (Mac.count fpctx + 1), 0).
Proof.
  intros Hsv Hlt. unfold Mac.find_handler.
  destruct (Z.eqb_spec (Mac.is_sv_process (Mac.p_comm p)) 0); [done|].
  destruct (Z.ltb_spec (Mac.count fpctx) Mac.MAX_PROCESSES); [done|lia].
Qed.

Lemma find_handler_full fpctx p :
  Mac.is_sv_process (Mac.p_comm p) ≠ 0 →
  Mac.MAX_PROCESSES ≤ Mac.count fpctx →
  Mac.find_handler fpctx p = (fpctx, -2).
Proof.
  intros Hsv Hge. unfold Mac.find_handler.
  destruct (Z.eqb_spec (Mac.is_sv_process (Mac.p_comm p)) 0); [done|].
  destruct (Z.ltb_spec (Mac.count fpctx) Mac.MAX_PROCESSES); [lia|done].
Qed.

Lemma enum_loop_cons {C} (handler : C → Mac.Proc → C * Z) ctx p kips :
  Mac.enum_loop handler ctx (p :: kips)
  = (if (handler ctx p).2 =? 0 then Mac.enum_loop handler (handler ctx p).1 kips
     else handler ctx p).
Proof. simpl. by destruct (handler ctx p). Qed.

(** The invariant of [find_handler] along an enumeration: the used part
    of the array grows by the Sighthound PIDs met, until it is full. *)
Lemma enum_find_handler kips : ∀ fpctx,
  length (Mac.pids fpctx) = Z.to_nat Mac.MAX_PROCESSES →
  0 ≤ Mac.count fpctx ≤ Mac.MAX_PROCESSES →
  let r := Mac.enum_loop Mac.find_handler fpctx kips in
  let room := Z.to_nat (Mac.MAX_PROCESSES - Mac.count fpctx) in
  length (Mac.pids r.1) = Z.to_nat Mac.MAX_PROCESSES
  ∧ Mac.count r.1 = Mac.count fpctx + Z.of_nat (length (take room (sv_pids kips)))
  ∧ take (Z.to_nat (Mac.count r.1)) (Mac.pids r.1)
    = take (Z.to_nat (Mac.count fpctx)) (Mac.pids fpctx) ++ take room (sv_pids kips)
  ∧ r.2 = (if decide (length (sv_pids kips) ≤ room)%nat then 0 else -2).
Proof.
  induction kips as [|p kips IH]; intros fpctx Hlen Hcnt r room.
  - subst r room. change (sv_pids []) with (@nil Z). rewrite take_nil.
    cbn [Mac.enum_loop fst snd length]. rewrite app_nil_r, Z.add_0_r.
    repeat split; try done; try (rewrite decide_True; [done | lia]).
  - subst r. rewrite enum_loop_cons.
    destruct (decide (Mac.is_sv_process (Mac.p_comm p) = 0)) as [Hsv|Hsv].
    + rewrite (find_handler_other _ _ Hsv). cbn [fst snd]. rewrite Z.eqb_refl.
      rewrite (sv_pids_cons_other _ _ Hsv). by apply IH.
    + rewrite (sv_pids_cons_sv _ _ Hsv).
      destruct (decide (Mac.count fpctx < Mac.MAX_PROCESSES)) as [Hlt|Hge].
      * rewrite (find_handler_room _ _ Hsv Hlt). cbn [fst snd]. rewrite Z.eqb_refl.
        set (fpctx' := Mac.mkFind _ _).
        destruct (IH fpctx') as (IH1 & IH2 & IH3 & IH4).
        { subst fpctx'. cbn [Mac.pids]. by rewrite length_insert. }
        { subst fpctx'. cbn [Mac.count]. lia. }
        assert (Hroom : room = S (Z.to_nat (Mac.MAX_PROCESSES - Mac.count fpctx'))).
        { subst room fpctx'. cbn [Mac.count]. lia. }
        rewrite Hroom. rewrite firstn_cons. cbn [length].
        repeat split.
        -- exact IH1.
        -- rewrite IH2. subst fpctx'. cbn [Mac.count]. lia.
        -- rewrite IH3. subst fpctx'. cbn [Mac.count Mac.pids].
           replace (Z.to_nat (Mac.count fpctx + 1)) with (S (Z.to_nat (Mac.count fpctx))) by lia.
           rewrite (take_S_r _ _ (Mac.p_pid p)).
           ++ rewrite take_insert_ge by lia. by rewrite <- app_assoc.
           ++ apply list_lookup_insert_eq. lia.
        -- rewrite IH4. repeat case_decide; try done; lia.
      * rewrite (find_handler_full _ _ Hsv) by lia. cbn [fst snd].
        change (-2 =? 0) with false. cbn [fst snd].
        assert (room = O) as -> by (subst room; lia).
        rewrite take_0. cbn [length]. rewrite app_nil_r, Z.add_0_r.
        repeat split; try done; try (rewrite decide_False; [done | cbn [length]; lia]).
Qed.

(** [find_handler] run over a whole snapshot, from the zeroed context. *)
Lemma enum_find_handler_zero kips :
  let r := Mac.enum_processes Mac.find_handler Mac.fpctx_zero (Mac.Processes kips) in
  let recorded := take (Z.to_nat Mac.MAX_PROCESSES) (sv_pids kips) in
  Mac.count r.1 = Z.of_nat (length recorded)
  ∧ take (Z.to_nat (Mac.count r.1)) (Mac.pids r.1) = recorded
  ∧ r.2 = (if decide (length (sv_pids kips) ≤ Z.to_nat Mac.MAX_PROCESSES)%nat
           then 0 else -2).
Proof.
  intros r recorded. subst r recorded. cbn [Mac.enum_processes].
  destruct (enum_find_handler kips Mac.fpctx_zero) as (_ & H2 & H3 & H4).
  { unfold Mac.fpctx_zero. cbn [Mac.pids]. by rewrite length_replicate. }
  { unfold Mac.fpctx_zero, Mac.MAX_PROCESSES. cbn [Mac.count]. lia. }
  unfold Mac.fpctx_zero in H2, H3, H4 at 2 3. cbn [Mac.count Mac.pids] in H2, H3, H4.
  rewrite Z.sub_0_r in *. rewrite Z.add_0_l in H2. rewrite take_0 in H3.
  repeat split; done.
Qed.

Section MacKill.
Context (ownPid parentPid _noKillPid noKillPid : Z).

(** The test that guards [kill] in [kill_old_processes]. *)
Lemma kill_loop_spec sorted : ∀ result,
  Mac.kill_loop ownPid parentPid _noKillPid noKillPid sorted result
  = (map EvSignal (List.filter (λ pid, negb (spared ownPid parentPid _noKillPid noKillPid pid)) sorted),
     result - Z.of_nat (length (List.filter (spared ownPid parentPid _noKillPid noKillPid) sorted))).
Proof.
  induction sorted as [|pid rest IH]; intros result; cbn [Mac.kill_loop List.filter map length].
  - f_equal. lia.
  - fold (spared ownPid parentPid _noKillPid noKillPid pid). destruct (spared ownPid parentPid _noKillPid noKillPid pid) eqn:Hs; cbn [negb].
    + rewrite IH. cbn [length]. f_equal. lia.
    + rewrite IH. reflexivity.
Qed.

Lemma filter_split_length {A} (f : A → bool) (l : list A) :
  (length (List.filter f l) + length (List.filter (λ x, negb (f x)) l))%nat = length l.
Proof.
  induction l as [|x l IH]; cbn [List.filter length]; [done|].
  destruct (f x); cbn [negb length]; lia.
Qed.

Lemma kill_old_processes_signals snap e :
  e ∈ (Mac.kill_old_processes ownPid parentPid _noKillPid noKillPid snap).1 →
  ∃ pid, e = EvSignal pid ∧ spared ownPid parentPid _noKillPid noKillPid pid = false.
Proof.
  unfold Mac.kill_old_processes.
  destruct (Mac.enum_processes _ _ _) as [fpctx err].
  rewrite kill_loop_spec. cbn [fst].
  intros (pid & -> & Hin)%list_elem_of_fmap.
  exists pid. split; [done|].
  apply list_elem_of_In, filter_In in Hin as [_ Hs].
  by destruct (spared ownPid parentPid _noKillPid noKillPid pid).
Qed.

Lemma kill_wait_loop_signals retries : ∀ snaps e,
  e ∈ (Mac.kill_wait_loop ownPid parentPid _noKillPid noKillPid retries snaps).1 →
  ∃ pid, e = EvSignal pid ∧ spared ownPid parentPid _noKillPid noKillPid pid = false.
Proof.
  induction retries as [|retries IH]; intros snaps e; cbn [Mac.kill_wait_loop].
  - destruct (Mac.kill_old_processes _ _ _ _ _) as [t left] eqn:Hk.
    destruct (left =? 0); cbn [fst]; intros Hin;
      apply (kill_old_processes_signals (snaps O)); by rewrite Hk.
  - destruct (Mac.kill_old_processes _ _ _ _ _) as [t left] eqn:Hk.
    destruct (left =? 0); cbn [fst].
    + intros Hin. apply (kill_old_processes_signals (snaps O)). by rewrite Hk.
    + destruct retries as [|retries'].
      * cbn [fst]. intros Hin. apply (kill_old_processes_signals (snaps O)). by rewrite Hk.
      * destruct (Mac.kill_wait_loop _ _ _ _ (S retries') _) as [t' ret] eqn:Hw.
        cbn [fst]. intros [Hin|Hin]%elem_of_app.
        -- apply (kill_old_processes_signals (snaps O)). by rewrite Hk.
        -- apply (IH (λ n, snaps (S n))). by rewrite Hw.
Qed.

Lemma kill_old_processes_and_wait_signals snaps e :
  e ∈ (Mac.kill_old_processes_and_wait ownPid parentPid _noKillPid noKillPid snaps).1 →
  ∃ pid, e = EvSignal pid ∧ spared ownPid parentPid _noKillPid noKillPid pid = false.
Proof. apply kill_wait_loop_signals. Qed.
End MacKill.

Lemma qsort_Permutation cmp cells : Mac.qsort cmp cells ≡ₚ cells.
Proof. unfold Mac.qsort. apply merge_sort_Permutation. Qed.

(** C10.  In the Mac build a kill pass records at most 256
    ([MAX_PROCESSES]) Sighthound PIDs: the array holds the first 256
    Sighthound PIDs of the snapshot, in its order; when the snapshot
    holds more, the enumeration stops with the error -2.  The signals
    sent and the number returned are computed from the recorded PIDs
    alone, so a process beyond the cap is neither counted nor
    signalled in that pass. *)
Theorem kill_pass_cap (ownPid parentPid _noKillPid noKillPid : Z) (kips : list Mac.Proc) :
  let recorded := take (Z.to_nat Mac.MAX_PROCESSES) (sv_pids kips) in
  let found := Mac.enum_processes Mac.find_handler Mac.fpctx_zero (Mac.Processes kips) in
  let pass := Mac.kill_old_processes ownPid parentPid _noKillPid noKillPid (Mac.Processes kips) in
  (length recorded ≤ 256)%nat
  ∧ Mac.count found.1 = Z.of_nat (length recorded)
  ∧ take (Z.to_nat (Mac.count found.1)) (Mac.pids found.1) = recorded
  ∧ found.2 = (if decide (length (sv_pids kips) ≤ 256)%nat then 0 else -2)
  ∧ Mac.qsort Mac.cmp_int recorded ≡ₚ recorded
  ∧ pass.1 = map EvSignal
               (List.filter (λ pid, negb (spared ownPid parentPid _noKillPid noKillPid pid))
                  (Mac.qsort Mac.cmp_int recorded))
  ∧ pass.2 = Z.of_nat (length pass.1).
Proof.
  intros recorded found pass.
  destruct (enum_find_handler_zero kips) as (H1 & H2 & H3).
  fold found in H1, H2, H3. fold recorded in H1, H2.
  assert (Hpass : pass = (map EvSignal
               (List.filter (λ pid, negb (spared ownPid parentPid _noKillPid noKillPid pid))
                  (Mac.qsort Mac.cmp_int recorded)),
            Z.of_nat (length (List.filter (λ pid, negb (spared ownPid parentPid _noKillPid noKillPid pid))
                  (Mac.qsort Mac.cmp_int recorded))))).
  { subst pass. unfold Mac.kill_old_processes. fold found.
    destruct found as [fpctx err] eqn:Hf. cbn [fst snd] in *.
    rewrite kill_loop_spec, H2. f_equal.
    rewrite H1.
    rewrite <- (Permutation_length (qsort_Permutation Mac.cmp_int recorded)).
    pose proof (filter_split_length (spared ownPid parentPid _noKillPid noKillPid)
                  (Mac.qsort Mac.cmp_int recorded)). lia. }
  repeat split.
  - subst recorded. rewrite length_take. change (Z.to_nat Mac.MAX_PROCESSES) with 256%nat. lia.
  - exact H1.
  - exact H2.
  - exact H3.
  - apply qsort_Permutation.
  - by rewrite Hpass.
  - rewrite Hpass. cbn [fst snd]. by rewrite length_map.
Qed.

(** A snapshot with 257 processes named [shlaunch], PIDs 1 to 257: the
    enumeration stops with -2, 256 PIDs are recorded, and PID 257 gets
    no signal although it is not a spared one. *)
Example kill_pass_with_257_processes :
  let kips :=
    map (λ n, Mac.mkProc 0 (Z.of_nat n) 1 "shlaunch") (seq 1 257) in
  let found := Mac.enum_processes Mac.find_handler Mac.fpctx_zero (Mac.Processes kips) in
  let pass := Mac.kill_old_processes 1 2 (-1) 3 (Mac.Processes kips) in
  found.2 = -2
  ∧ Mac.count found.1 = 256
  ∧ pass.2 = 253
  ∧ bool_decide (EvSignal 256 ∈ pass.1) = true
  ∧ bool_decide (EvSignal 257 ∈ pass.1) = false.
Proof. vm_compute. repeat split; reflexivity. Qed.

(** ** The kill pass on Windows *)

Section WinKill.
Context (ownPid : Z).

Lemma kill_candidates_spec p exe cands : ∀ kctx handle,
  let r := Win.kill_candidates p exe cands kctx handle in
  Win.noKillPid r.1.1 = Win.noKillPid kctx
  ∧ Win.candidates r.1.1 = Win.candidates kctx
  ∧ Forall (λ e, e = EvSignal (Win.w_pid p)) r.2.
Proof.
  induction cands as [|c cands IH]; intros kctx handle; cbn [Win.kill_candidates].
  - repeat split; constructor.
  - destruct (tcsicmp_eq c exe); cbn [negb]; [|apply IH].
    destruct (handle && Win.w_terminate_ok p).
    + destruct (Win.kill_candidates _ _ _ _ _) as [[k h] t] eqn:Hk.
      specialize (IH (Win.mkKill (Win.kills kctx + 1) (Win.errors kctx)
                        (Win.noKillPid kctx) (Win.candidates kctx)
                        (Win.terminatedProcesses kctx ++ [Win.w_pid p])) false).
      rewrite Hk in IH. cbn in IH. destruct IH as (? & ? & ?).
      cbn. repeat split; try done. by constructor.
    + destruct (Win.kill_candidates _ _ _ _ _) as [[k h] t] eqn:Hk.
      specialize (IH (Win.mkKill (Win.kills kctx) (Win.errors kctx + 1)
                        (Win.noKillPid kctx) (Win.candidates kctx)
                        (Win.terminatedProcesses kctx)) handle).
      rewrite Hk in IH. cbn in IH. destruct IH as (? & ? & ?).
      cbn. repeat split; try done.
      destruct handle; cbn; [by constructor | done].
Qed.

Lemma kill_handler_spec kctx p exe :
  let r := Win.kill_handler ownPid kctx p exe in
  Win.noKillPid r.1.1.1 = Win.noKillPid kctx
  ∧ Forall (λ e, ∃ pid, e = EvSignal pid ∧ pid ≠ ownPid ∧ pid ≠ Win.noKillPid kctx) r.2.
Proof.
  unfold Win.kill_handler.
  destruct (Z.eqb_spec (Win.w_pid p) ownPid) as [|Hown]; cbn [orb].
  { split; [done | constructor]. }
  destruct (Z.eqb_spec (Win.w_pid p) (Win.noKillPid kctx)) as [|Hnk]; cbn [orb].
  { split; [done | constructor]. }
  pose proof (kill_candidates_spec p exe (Win.candidates kctx) kctx true) as H.
  destruct (Win.kill_candidates _ _ _ _ _) as [[k h] t]. cbn in *.
  destruct H as (H1 & _ & H3). split; [done|].
  eapply Forall_impl; [exact H3|]. intros e ->. by exists (Win.w_pid p).
Qed.

Lemma enumerate_kill_handler procs : ∀ kctx result,
  Forall (λ e, ∃ pid, e = EvSignal pid ∧ pid ≠ ownPid ∧ pid ≠ Win.noKillPid kctx)
    (Win.enumerate_loop (Win.kill_handler ownPid) kctx procs result).2.
Proof.
  induction procs as [|p procs IH]; intros kctx result; cbn [Win.enumerate_loop].
  - constructor.
  - destruct (Win.w_pid p =? 0); [apply IH|].
    destruct (Win.w_inspect p) as [| |exe]; [apply IH| |].
    + destruct (Win.w_close_ok p); [apply IH | constructor].
    + pose proof (kill_handler_spec kctx p exe) as Hh.
      destruct (Win.kill_handler ownPid kctx p exe) as [[[kctx' continue] handle] t].
      cbn in Hh. destruct Hh as [Hnk Ht].
      destruct (handle && negb (Win.w_close_ok p)); [done|].
      destruct continue; [|done].
      specialize (IH kctx' (result + 1)).
      destruct (Win.enumerate_loop _ _ _ _) as [[k r] t'].
      cbn in *. rewrite Hnk in IH. by apply Forall_app.
Qed.

Lemma kill_processes_signals candidates noKillPid snap :
  Forall (λ e, ∃ pid, e = EvSignal pid ∧ pid ≠ ownPid ∧ pid ≠ noKillPid)
    (Win.kill_processes ownPid candidates noKillPid snap).1.
Proof.
  unfold Win.kill_processes, Win.enumerate_processes.
  destruct snap as [err|procs]; [constructor|].
  pose proof (enumerate_kill_handler procs (Win.mkKill 0 0 noKillPid candidates []) Win.ERROR_SUCCESS) as H.
  destruct (Win.enumerate_loop _ _ _ _) as [[k r] t]. exact H.
Qed.
End WinKill.

(** C3, as amended.  On the Mac a kill pass ([kill_old_processes], and
    so [kill_old_processes_and_wait]) never signals the service's own
    PID, its parent's PID, the global [_noKillPid] or the PID passed as
    [noKillPid].  On Windows [kill_processes] never terminates the
    service's own PID or the PID passed as [noKillPid]; the parent is
    not looked at. *)
Theorem kill_exclusion (ownPid parentPid _noKillPid noKillPid : Z)
    (snap : Mac.Snapshot) (snaps : nat → Mac.Snapshot)
    (candidates : list string) (wsnap : Win.Snapshot) :
  let pass := (Mac.kill_old_processes ownPid parentPid _noKillPid noKillPid snap).1 in
  let passes :=
    (Mac.kill_old_processes_and_wait ownPid parentPid _noKillPid noKillPid snaps).1 in
  let win := (Win.kill_processes ownPid candidates noKillPid wsnap).1 in
  ((EvSignal ownPid ∉ pass) ∧ (EvSignal parentPid ∉ pass)
   ∧ (EvSignal _noKillPid ∉ pass) ∧ (EvSignal noKillPid ∉ pass))
  ∧ ((EvSignal ownPid ∉ passes) ∧ (EvSignal parentPid ∉ passes)
     ∧ (EvSignal _noKillPid ∉ passes) ∧ (EvSignal noKillPid ∉ passes))
  ∧ ((EvSignal ownPid ∉ win) ∧ (EvSignal noKillPid ∉ win)).
Proof.
  intros pass passes win.
  assert (Hsp : ∀ pid, spared ownPid parentPid _noKillPid noKillPid pid = false →
                 pid ≠ ownPid ∧ pid ≠ parentPid ∧ pid ≠ _noKillPid ∧ pid ≠ noKillPid).
  { intros pid. unfold spared. rewrite !orb_false_iff, !Z.eqb_neq.
    intros [[[? ?] ?] ?]. repeat split; congruence. }
  assert (Hpass : ∀ pid, EvSignal pid ∈ pass → spared ownPid parentPid _noKillPid noKillPid pid = false).
  { intros pid Hin. apply kill_old_processes_signals in Hin as (pid' & [= ->] & Hs). done. }
  assert (Hpasses : ∀ pid, EvSignal pid ∈ passes → spared ownPid parentPid _noKillPid noKillPid pid = false).
  { intros pid Hin. apply kill_old_processes_and_wait_signals in Hin as (pid' & [= ->] & Hs). done. }
  assert (Hwin : ∀ pid, EvSignal pid ∈ win → pid ≠ ownPid ∧ pid ≠ noKillPid).
  { intros pid Hin.
    pose proof (kill_processes_signals ownPid candidates noKillPid wsnap) as H.
    rewrite Forall_forall in H. apply H in Hin as (pid' & [= ->] & Hne). exact Hne. }
  repeat split; intros Hin;
    first [ apply Hpass, Hsp in Hin | apply Hpasses, Hsp in Hin | apply Hwin in Hin ];
    tauto.
Qed.

(** C3 as stated fails on Windows: a parent process that carries the
    name of a kill candidate is terminated, by the kill of the service
    loop as well as by the kill of the [shutdown] command, which spares
    nobody but the caller itself. *)
Lemma windows_parent_is_not_spared :
  let ownPid := 100 in
  let parentPid := 4 in
  let launchProcessId := 200 in
  let agent :=
    Win.Processes [Win.mkProc parentPid (Win.Named "Sighthound Agent.exe") true true] in
  let frontend :=
    Win.Processes [Win.mkProc parentPid (Win.Named "Sighthound Video.exe") true true] in
  (Win.kill_processes ownPid Win.KILL_CANDIDATES launchProcessId agent).1
  = [EvSignal parentPid]
  ∧ (Win.kill_processes ownPid Win.KILL_CANDIDATES_ALL 0 frontend).1
    = [EvSignal parentPid].
Proof. split; reflexivity. Qed.

(** ** Reading the configuration *)

Lemma tolower_matches (upper lower c : ascii) :
  tolower upper = lower → tolower lower = lower →
  (∀ d, tolower d = lower → d = upper ∨ d = lower) →
  Ascii.eqb (tolower upper) (tolower c) = true ↔ either_case upper lower c.
Proof.
  intros Hu Hl Hinv. rewrite Hu. split.
  - intros H%Ascii.eqb_eq. symmetry in H. by apply Hinv.
  - intros [->| ->]; rewrite ?Hu, ?Hl; apply Ascii.eqb_refl.
Qed.

Ltac all_chars d :=
  destruct d as [[] [] [] [] [] [] [] []]; vm_compute; intros H;
  first [discriminate H | by left | by right].

Lemma tolower_T c : Ascii.eqb (tolower "T") (tolower c) = true ↔ either_case "T" "t" c.
Proof. apply tolower_matches; [done | done | intros d; all_chars d]. Qed.
Lemma tolower_R c : Ascii.eqb (tolower "R") (tolower c) = true ↔ either_case "R" "r" c.
Proof. apply tolower_matches; [done | done | intros d; all_chars d]. Qed.
Lemma tolower_U c : Ascii.eqb (tolower "U") (tolower c) = true ↔ either_case "U" "u" c.
Proof. apply tolower_matches; [done | done | intros d; all_chars d]. Qed.
Lemma tolower_E c : Ascii.eqb (tolower "E") (tolower c) = true ↔ either_case "E" "e" c.
Proof. apply tolower_matches; [done | done | intros d; all_chars d]. Qed.

Lemma tcsicmp_TRUE (v : string) : tcsicmp_eq "TRUE" v = true ↔ casing_of_TRUE v.
Proof.
  unfold casing_of_TRUE. split.
  - destruct v as [|c1 [|c2 [|c3 [|c4 [|c5 v]]]]]; cbn [tcsicmp_eq]; try discriminate.
    + destruct (Ascii.eqb _ (tolower c1)); discriminate.
    + destruct (Ascii.eqb _ (tolower c1)); [|discriminate].
      destruct (Ascii.eqb _ (tolower c2)); discriminate.
    + destruct (Ascii.eqb _ (tolower c1)); [|discriminate].
      destruct (Ascii.eqb _ (tolower c2)); [|discriminate].
      destruct (Ascii.eqb _ (tolower c3)); discriminate.
    + destruct (Ascii.eqb _ (tolower c1)) eqn:H1; [|discriminate].
      destruct (Ascii.eqb _ (tolower c2)) eqn:H2; [|discriminate].
      destruct (Ascii.eqb _ (tolower c3)) eqn:H3; [|discriminate].
      destruct (Ascii.eqb _ (tolower c4)) eqn:H4; [|discriminate].
      intros _. exists c1, c2, c3, c4.
      apply tolower_T in H1. apply tolower_R in H2.
      apply tolower_U in H3. apply tolower_E in H4. done.
    + destruct (Ascii.eqb _ (tolower c1)); [|discriminate].
      destruct (Ascii.eqb _ (tolower c2)); [|discriminate].
      destruct (Ascii.eqb _ (tolower c3)); [|discriminate].
      destruct (Ascii.eqb _ (tolower c4)); discriminate.
  - intros (c1 & c2 & c3 & c4 & -> & H1 & H2 & H3 & H4).
    apply tolower_T in H1. apply tolower_R in H2.
    apply tolower_U in H3. apply tolower_E in H4.
    cbn [tcsicmp_eq]. by rewrite H1, H2, H3, H4.
Qed.

(** [strncmp] against a whole word accepts what starts with the word. *)
Lemma strncmp_prefix (word s : string) :
  strncmp_eq s word (String.length word) = true ↔ ∃ rest, s = word +:+ rest.
Proof.
  revert s. induction word as [|c word IH]; intros s; cbn [String.length strncmp_eq].
  - split; [intros _; exists s; reflexivity | reflexivity].
  - destruct s as [|d s].
    + split; [done | intros [rest H]; discriminate H].
    + destruct (Ascii.eqb_spec d c) as [->|Hne].
      * rewrite IH. split; intros [rest H]; exists rest.
        -- by rewrite H.
        -- by injection H.
      * split; [done | intros [rest H]; injection H; intros; by subst].
Qed.

Lemma str_from_app (word rest : string) :
  str_from (String.length word) (word +:+ rest) = rest.
Proof. induction word as [|c word IH]; cbn; [done | exact IH]. Qed.

Lemma cfg_line_autostart st value :
  Mac.cfg_line st ("autostart=" +:+ value)
  = (Mac.mkConfig (strncmp_eq value "TRUE" 4) (Mac.backend st.1), Z.lor st.2 1).
Proof.
  destruct st as [cfg found]. unfold Mac.cfg_line.
  change (String.length Mac.tokenAutoStart) with (String.length "autostart=").
  change Mac.tokenAutoStart with "autostart=".
  rewrite (proj2 (strncmp_prefix "autostart=" _)) by (by exists value).
  by rewrite str_from_app.
Qed.

Lemma cfg_line_backend st value :
  Mac.cfg_line st ("backend=" +:+ value)
  = (Mac.mkConfig (Mac.autoStart st.1) (strncmp_eq value "TRUE" 4), Z.lor st.2 2).
Proof.
  destruct st as [cfg found]. unfold Mac.cfg_line.
  change (strncmp_eq ("backend=" +:+ value) Mac.tokenAutoStart _) with false.
  cbv iota.
  change (String.length Mac.tokenBackend) with (String.length "backend=").
  change Mac.tokenBackend with "backend=".
  rewrite (proj2 (strncmp_prefix "backend=" _)) by (by exists value).
  by rewrite str_from_app.
Qed.

(** C8, as amended.  On the Mac a line that assigns [autostart] or
    [backend] sets the key to true exactly when the text after the [=]
    starts with the upper-case letters TRUE, and to false otherwise.  On
    Windows the key is true exactly when the value is the word TRUE in
    any casing. *)
Theorem config_value_comparison (value : string) (st : Mac.SHLaunchConfig * Z)
    (other : option string) (errno1 errno2 : Z) :
  (Mac.autoStart (Mac.cfg_line st ("autostart=" +:+ value)).1 = true
   ↔ ∃ rest, value = "TRUE" +:+ rest)
  ∧ (Mac.backend (Mac.cfg_line st ("backend=" +:+ value)).1 = true
     ↔ ∃ rest, value = "TRUE" +:+ rest)
  ∧ (Win.autoStart (Win.config_read (Win.mkProfile (Some value) other errno1 errno2)).1 = true
     ↔ casing_of_TRUE value)
  ∧ (Win.backend (Win.config_read (Win.mkProfile other (Some value) errno1 errno2)).1 = true
     ↔ casing_of_TRUE value).
Proof.
  rewrite cfg_line_autostart, cfg_line_backend. cbn [fst Mac.autoStart Mac.backend].
  unfold Win.config_read. cbn [fst Win.autoStart Win.backend Win.ini_autostart
    Win.ini_backend Win.GetPrivateProfileString].
  repeat split; first [apply (strncmp_prefix "TRUE") | apply tcsicmp_TRUE].
Qed.

(** C8 as stated fails on the Mac: [true] and [True] give false. *)
Lemma config_lower_case_true_is_false_on_mac :
  Mac.autoStart (Mac.cfg_load (Some ["autostart=true"; "backend=TRUE"])).1 = false
  ∧ Mac.backend (Mac.cfg_load (Some ["autostart=TRUE"; "backend=True"])).1 = false.
Proof. split; reflexivity. Qed.

(** ** One pass of the Mac service loop *)

Lemma land_handled x (st : Mac.Locals) :
  Z.land x (Z.lnot (handled_bits st))
  = (let x1 := if Mac.l_kill st =? 0 then x
               else Z.land x (Z.lnot LAUNCH_FLAG_KILL_FIRST) in
     if Mac.l_launch st =? 0 then x1 else Z.land x1 (Z.lnot LAUNCH_MASK)).
Proof.
  unfold handled_bits. cbv zeta.
  destruct (Mac.l_launch st =? 0), (Mac.l_kill st =? 0).
  - change (Z.lnot (Z.lor 0 0)) with (-1). by rewrite Z.land_m1_r.
  - by rewrite Z.lor_0_r.
  - by rewrite Z.lor_0_l.
  - rewrite <- Z.land_assoc. f_equal.
Qed.

Ltac eff_unfold :=
  unfold mbind, mret, Eff_bind, Eff_ret, incr_u32, interlocked_increment,
    others, store_text, load, store, sync_swap, sync_fetch_and_and, emit, emits, run.

Section MacLoop.
Context (ownPid parentPid _noKillPid : Z).

Lemma loop_body_gone t st ex :
  Mac.t_exe_present t = false →
  run (Mac.loop_body ownPid parentPid _noKillPid t st) ex
  = (None, ex_set FCycles (wrap_u32 (cycles ex + 1)) ex,
     [EvIncr FCycles; EvUnlink Mac.PLIST_PATH]).
Proof.
  intros H. unfold Mac.loop_body. rewrite H. reflexivity.
Qed.

Lemma loop_body_present t st ex :
  Mac.t_exe_present t = true →
  let ex' := Mac.t_others t (mac_pass_exchange t st ex) in
  run (Mac.loop_body ownPid parentPid _noKillPid t st) ex
  = (Some (Mac.mkLocals (Z.land (launch ex') LAUNCH_FLAG_KILL_FIRST)
             (Z.land (launch ex') LAUNCH_MASK) (launchProcessId ex')),
     ex',
     EvIncr FCycles :: mac_kill_step ownPid parentPid _noKillPid t st
       ++ mac_launch_step t st).
Proof.
  intros H ex'. subst ex'.
  unfold mac_pass_exchange. cbv zeta. rewrite !land_handled. cbv zeta.
  unfold Mac.loop_body, mac_kill_step, mac_launch_step.
  rewrite H.
  destruct (Mac.kill_old_processes_and_wait _ _ _ _ _) as [kt kr].
  destruct (Mac.cfg_load (Mac.t_cfg t)) as [cfg ok]. cbn [fst snd].
  destruct ex as [sz pid cyc sta lpid lau shu bld dir].
  destruct (Mac.l_kill st =? 0) eqn:Hk, (Mac.l_launch st =? 0) eqn:Hl,
    (Mac.backend cfg) eqn:Hb;
    eff_unfold; cbn; rewrite ?Hk, ?Hl; cbn; rewrite ?app_nil_r, <- ?app_assoc; cbn.
  all: reflexivity.
Qed.
End MacLoop.

Lemma filter_none {A} (f : A → bool) (l : list A) :
  Forall (λ x, f x = false) l → List.filter f l = [].
Proof.
  induction 1 as [|x l Hx _ IH]; cbn [List.filter]; [done|]. by rewrite Hx.
Qed.

Section MacLoopFacts.
Context (ownPid parentPid _noKillPid : Z).

Lemma kill_wait_only_signals noKillPid snaps :
  Forall (λ e, ∃ pid, e = EvSignal pid)
    (Mac.kill_old_processes_and_wait ownPid parentPid _noKillPid noKillPid snaps).1.
Proof.
  apply Forall_forall. intros e He.
  apply kill_old_processes_and_wait_signals in He as (pid & -> & _). by exists pid.
Qed.

Lemma mac_kill_step_quiet t st :
  Forall (λ e, touches FShutdown e = false ∧ touches FStatus e = false)
    (mac_kill_step ownPid parentPid _noKillPid t st).
Proof.
  unfold mac_kill_step. destruct (Mac.l_kill st =? 0); [constructor|].
  apply Forall_app. split; [|by repeat constructor].
  eapply Forall_impl; [apply kill_wait_only_signals|]. by intros e [pid ->].
Qed.

Lemma mac_launch_step_quiet t st :
  Forall (λ e, touches FShutdown e = false) (mac_launch_step t st).
Proof.
  unfold mac_launch_step, Mac.launch_backend.
  destruct (Mac.l_launch st =? 0); [constructor|].
  destruct (Mac.backend _); [|by repeat constructor].
  destruct (Mac.t_malloc_ok t); by repeat constructor.
Qed.

Lemma loop_body_quiet t st ex :
  Forall (λ e, touches FShutdown e = false)
    (trace_of (run (Mac.loop_body ownPid parentPid _noKillPid t st) ex)).
Proof.
  destruct (Mac.t_exe_present t) eqn:Hexe.
  - rewrite loop_body_present by done. cbn [trace_of snd].
    constructor; [done|]. apply Forall_app. split.
    + eapply Forall_impl; [apply mac_kill_step_quiet|]. by intros e [? ?].
    + apply mac_launch_step_quiet.
  - rewrite loop_body_gone by done. by repeat constructor.
Qed.

Lemma main_loop_cons t ticks st ex :
  run (Mac.main_loop ownPid parentPid _noKillPid (t :: ticks) false st) ex
  = (let '(r, ex1, t1) := run (Mac.loop_body ownPid parentPid _noKillPid t st) ex in
     match r with
     | None => (Mac.ExecutableGone, ex1, t1)
     | Some st' =>
         let '(e, ex2, t2) :=
           run (Mac.main_loop ownPid parentPid _noKillPid ticks (Mac.t_sigterm t) st') ex1 in
         (e, ex2, t1 ++ t2)
     end).
Proof.
  cbn [Mac.main_loop]. unfold run at 1, mbind, Eff_bind.
  unfold run. destruct (Mac.loop_body _ _ _ t st ex) as [[r ex1] t1].
  destruct r as [st'|]; [done|]. cbn. by rewrite app_nil_r.
Qed.

Lemma main_loop_quiet ticks : ∀ terminate st ex,
  Forall (λ e, touches FShutdown e = false)
    (trace_of (run (Mac.main_loop ownPid parentPid _noKillPid ticks terminate st) ex)).
Proof.
  induction ticks as [|t ticks IH]; intros terminate st ex.
  - destruct terminate; constructor.
  - destruct terminate; [constructor|].
    rewrite main_loop_cons.
    pose proof (loop_body_quiet t st ex) as Hb.
    destruct (run (Mac.loop_body _ _ _ t st) ex) as [[r ex1] t1].
    destruct r as [st'|]; [|exact Hb].
    specialize (IH (Mac.t_sigterm t) st' ex1).
    destruct (run (Mac.main_loop _ _ _ ticks _ st') ex1) as [[e ex2] t2].
    apply Forall_app. by split.
Qed.

(** The loop is left at the end of the pass in which the signal came. *)
Lemma main_loop_sigterm t ticks st ex :
  Mac.t_sigterm t = true →
  let body := run (Mac.loop_body ownPid parentPid _noKillPid t st) ex in
  run (Mac.main_loop ownPid parentPid _noKillPid (t :: ticks) false st) ex
  = (match result_of body with
     | None => Mac.ExecutableGone
     | Some _ => Mac.Terminated
     end, exchange_of body, trace_of body).
Proof.
  intros Hterm body. subst body. rewrite main_loop_cons, Hterm.
  destruct (run (Mac.loop_body _ _ _ t st) ex) as [[r ex1] t1].
  destruct r as [st'|]; [|done].
  destruct ticks; cbn; by rewrite app_nil_r.
Qed.

Context (PATH_MAX sizeof_wchar_t : Z) (SHLAUNCH_BUILD : string).

Lemma main_attached_run (o : Mac.ServiceOracle) ex :
  let init :=
    [EvStore FProcessId ownPid;
     EvStore FSize (Mac.sizeof_Exchange PATH_MAX sizeof_wchar_t)] in
  let ex0 :=
    ex_set FSize (Mac.sizeof_Exchange PATH_MAX sizeof_wchar_t)
      (ex_set FProcessId ownPid
         (ex_set_build (String.substring 0 7 SHLAUNCH_BUILD)
            (ex_set_dataDir (Mac.APP_DATA_DIR +:+ "/") ex))) in
  let cfg := (Mac.cfg_load (Mac.o_cfg o)).1 in
  let st0 :=
    Mac.mkLocals LAUNCH_FLAG_KILL_FIRST
      (if negb (-1 =? _noKillPid) || (Mac.autoStart cfg && Mac.backend cfg)
       then 1 else 0) 0 in
  let loop :=
    run (Mac.main_loop ownPid parentPid _noKillPid (Mac.o_ticks o)
           (Mac.o_early_sigterm o) st0) ex0 in
  run (Mac.main_attached PATH_MAX sizeof_wchar_t SHLAUNCH_BUILD ownPid parentPid
         _noKillPid o) ex
  = match result_of loop with
    | Mac.StillRunning _ => (None, exchange_of loop, init ++ trace_of loop)
    | _ => (Some Mac.RET_SUCCESS, ex_set FShutdown 1 (exchange_of loop),
            init ++ trace_of loop ++ [EvSwap FShutdown 1; EvRemoveRegion])
    end.
Proof.
  intros init ex0 cfg st0 loop. subst init loop.
  unfold Mac.main_attached. cbv zeta. fold cfg. fold st0.
  unfold run, mbind, Eff_bind, others, store_text, store, mret, Eff_ret. cbn [fst snd].
  fold ex0.
  destruct (Mac.main_loop ownPid parentPid _noKillPid (Mac.o_ticks o)
              (Mac.o_early_sigterm o) st0 ex0) as [[e ex1] t1].
  cbn [result_of exchange_of trace_of fst snd].
  destruct e; cbn; rewrite ?app_nil_r; reflexivity.
Qed.
End MacLoopFacts.

(** ** One pass of the Windows service loop *)

Section WinLoopFacts.
Context (ownPid : Z).

Lemma win_loop_body_run t ex :
  run (Win.loop_body ownPid t) ex
  = (negb (Win.t_exit t), Win.t_others t (win_pass_exchange ex),
     EvSwap FLaunch 0 :: EvIncr FCycles :: win_steps ownPid t ex
       ++ [EvSwap FStatus (launch ex)]).
Proof.
  unfold Win.loop_body, win_steps, win_pass_exchange.
  destruct ex as [sz pid cyc sta lpid lau shu bld dir].
  eff_unfold.
  cbn -[Win.kill_processes Win.KILL_CANDIDATES Win.launch_backend Win.config_read].
  destruct (Z.eqb_spec lau 0) as [->|Hne];
    cbn -[Win.kill_processes Win.KILL_CANDIDATES Win.launch_backend Win.config_read];
    [reflexivity|].
  destruct (Z.land LAUNCH_FLAG_KILL_FIRST lau =? 0), (Z.land LAUNCH_MASK lau =? 0);
    cbn -[Win.kill_processes Win.KILL_CANDIDATES Win.launch_backend Win.config_read];
    rewrite ?app_nil_r, <- ?app_assoc; reflexivity.
Qed.

Lemma win_steps_quiet t ex :
  Forall (λ e, touches FShutdown e = false ∧ is_fetch_and e = false ∧ is_unlink e = false)
    (win_steps ownPid t ex).
Proof.
  unfold win_steps, Win.launch_backend.
  destruct (launch ex =? 0); [constructor|].
  apply Forall_app. split.
  - destruct (Z.land LAUNCH_FLAG_KILL_FIRST (launch ex) =? 0); [constructor|].
    eapply Forall_impl; [apply kill_processes_signals|].
    by intros e (pid & -> & _).
  - destruct (Z.land LAUNCH_MASK (launch ex) =? 0); [constructor|].
    destruct (Win.backend _); by repeat constructor.
Qed.

Lemma win_loop_body_quiet t ex :
  Forall (λ e, touches FShutdown e = false ∧ is_unlink e = false)
    (trace_of (run (Win.loop_body ownPid t) ex)).
Proof.
  rewrite win_loop_body_run. cbn [trace_of snd].
  do 2 (constructor; [done|]). apply Forall_app. split; [|by repeat constructor].
  eapply Forall_impl; [apply win_steps_quiet|]. by intros e (? & ? & ?).
Qed.

Lemma win_loop_body_no_fetch_and t ex :
  Forall (λ e, is_fetch_and e = false) (trace_of (run (Win.loop_body ownPid t) ex)).
Proof.
  rewrite win_loop_body_run. cbn [trace_of snd].
  do 2 (constructor; [done|]). apply Forall_app. split; [|by repeat constructor].
  eapply Forall_impl; [apply win_steps_quiet|]. by intros e (? & ? & ?).
Qed.

Lemma svc_loop_cons t ticks ex :
  run (Win.svc_loop ownPid (t :: ticks)) ex
  = (let '(continue, ex1, t1) := run (Win.loop_body ownPid t) ex in
     if continue : bool then
       let '(r, ex2, t2) := run (Win.svc_loop ownPid ticks) ex1 in (r, ex2, t1 ++ t2)
     else (Some tt, ex1, t1)).
Proof.
  cbn [Win.svc_loop]. unfold run at 1, mbind, Eff_bind. unfold run.
  destruct (Win.loop_body ownPid t ex) as [[continue ex1] t1].
  destruct continue; [done|]. cbn. by rewrite app_nil_r.
Qed.

Lemma svc_loop_quiet ticks : ∀ ex,
  Forall (λ e, touches FShutdown e = false ∧ is_unlink e = false)
    (trace_of (run (Win.svc_loop ownPid ticks) ex)).
Proof.
  induction ticks as [|t ticks IH]; intros ex; [constructor|].
  rewrite svc_loop_cons.
  pose proof (win_loop_body_quiet t ex) as Hb.
  destruct (run (Win.loop_body ownPid t) ex) as [[continue ex1] t1].
  destruct continue; [|exact Hb].
  specialize (IH ex1).
  destruct (run (Win.svc_loop ownPid ticks) ex1) as [[r ex2] t2].
  apply Forall_app. by split.
Qed.
End WinLoopFacts.

Lemma svc_stop_run procs waiting ex :
  run (Win.svc_stop procs waiting) ex
  = (if win_backend_count procs =? 0 then (tt, ex, [])
     else (tt, waiting (ex_set FShutdown 1 ex), [EvStore FShutdown 1])).
Proof.
  unfold Win.svc_stop, win_backend_count.
  destruct (_ =? 0); reflexivity.
Qed.

(** ** The launch word and the status *)

(** C1.  In a pass of the Mac loop that handles a launch command which
    the configuration permits, [launch_backend] returns [RET_SUCCESS]
    whatever [malloc] and [fork] answered, so that the one event of the
    pass that touches [status] is the atomic swap to 1, and [status] is
    1 after the launch step: a failed spawn is reported as a success. *)
Theorem status_is_one_after_every_permitted_launch
    (ownPid parentPid _noKillPid : Z) (t : Mac.Tick) (st : Mac.Locals)
    (ex : Exchange)
    (Hexe : Mac.t_exe_present t = true)
    (Hlaunch : Mac.l_launch st ≠ 0)
    (Hpermitted : Mac.backend (Mac.cfg_load (Mac.t_cfg t)).1 = true) :
  let pass := run (Mac.loop_body ownPid parentPid _noKillPid t st) ex in
  (Mac.launch_backend (Mac.t_malloc_ok t) (Mac.t_fork t)).2 = Mac.RET_SUCCESS
  ∧ List.filter (touches FStatus) (trace_of pass) = [EvSwap FStatus 1]
  ∧ status (mac_pass_exchange t st ex) = 1
  ∧ exchange_of pass = Mac.t_others t (mac_pass_exchange t st ex).
Proof.
  intros pass. subst pass. rewrite loop_body_present by done.
  cbn [trace_of exchange_of fst snd].
  apply Z.eqb_neq in Hlaunch.
  split; [reflexivity|]. split; [|split; [|reflexivity]].
  - cbn [List.filter touches]. rewrite bool_decide_eq_false_2 by discriminate.
    rewrite List.filter_app.
    rewrite (filter_none (touches FStatus) (mac_kill_step _ _ _ _ _)).
    2:{ eapply Forall_impl; [apply mac_kill_step_quiet|]. by intros e [? ?]. }
    unfold mac_launch_step, Mac.launch_backend. rewrite Hlaunch, Hpermitted.
    by destruct (Mac.t_malloc_ok t).
  - unfold mac_pass_exchange. rewrite Hlaunch, Hpermitted. by destruct ex.
Qed.

(** The pass at which [fork] fails: [result] is [RET_ERROR] at the end
    of [launch_backend], and [status] is swapped to 1. *)
Lemma status_is_one_after_failed_fork :
  let t :=
    Mac.mkTick true (λ _, Mac.Processes []) (Some ["backend=TRUE"])
      true Mac.ForkFails (λ ex, ex) false in
  let st := Mac.mkLocals 0 1 0 in
  let pass := run (Mac.loop_body 100 1 (-1) t st) (ex_set FLaunch 1 Exchange_zero) in
  Mac.t_exe_present t = true
  ∧ Mac.l_launch st ≠ 0
  ∧ Mac.backend (Mac.cfg_load (Mac.t_cfg t)).1 = true
  ∧ Mac.launch_backend_result true Mac.ForkFails = Mac.RET_ERROR
  ∧ trace_of pass
    = [EvIncr FCycles; EvSpawn false; EvSwap FStatus 1;
       EvFetchAnd FLaunch (Z.lnot LAUNCH_MASK)]
  ∧ List.filter (touches FStatus) (trace_of pass) = [EvSwap FStatus 1]
  ∧ status (exchange_of pass) = 1.
Proof.
  intros t st pass.
  assert (Hlaunch : Mac.l_launch st ≠ 0) by discriminate.
  split; [reflexivity|]. split; [exact Hlaunch|]. split; [reflexivity|].
  split; [reflexivity|]. split; [reflexivity|]. split; [|reflexivity].
  exact (proj1 (proj2 (status_is_one_after_every_permitted_launch 100 1 (-1) t st
    (ex_set FLaunch 1 Exchange_zero) eq_refl Hlaunch eq_refl))).
Defined.

(** C4, as amended.  A pass of the Mac loop (the executable being
    there) clears the kill-first bit with an atomic AND-NOT after the
    kill step and the low 16 bits with an atomic AND-NOT after the
    launch step, the latter whether or not the configuration permitted
    the launch; the handled bits of the launch word are zero afterwards
    and the other bits are kept.  A pass of the Windows loop consumes
    the whole launch word with an atomic swap to zero before the kill
    and launch steps, and uses no AND-NOT. *)
Theorem launch_word_consumed (ownPid parentPid _noKillPid : Z) (t : Mac.Tick)
    (st : Mac.Locals) (ex : Exchange) (wownPid : Z) (wt : Win.Tick) (wex : Exchange)
    (Hexe : Mac.t_exe_present t = true) :
  let mac := run (Mac.loop_body ownPid parentPid _noKillPid t st) ex in
  let win := run (Win.loop_body wownPid wt) wex in
  (trace_of mac
   = EvIncr FCycles :: mac_kill_step ownPid parentPid _noKillPid t st
       ++ mac_launch_step t st
   ∧ exchange_of mac = Mac.t_others t (mac_pass_exchange t st ex)
   ∧ launch (mac_pass_exchange t st ex)
     = Z.land (launch ex) (Z.lnot (handled_bits st))
   ∧ Z.land (launch (mac_pass_exchange t st ex)) (handled_bits st) = 0)
  ∧ (trace_of win
     = EvSwap FLaunch 0 :: EvIncr FCycles :: win_steps wownPid wt wex
         ++ [EvSwap FStatus (launch wex)]
     ∧ List.filter is_fetch_and (trace_of win) = []
     ∧ exchange_of win = Win.t_others wt (win_pass_exchange wex)
     ∧ launch (win_pass_exchange wex) = 0).
Proof.
  intros mac win. subst mac win.
  rewrite loop_body_present by done.
  assert (Hl : launch (mac_pass_exchange t st ex)
               = Z.land (launch ex) (Z.lnot (handled_bits st))).
  { unfold mac_pass_exchange. cbv zeta.
    destruct (_ || _); by destruct ex. }
  split; [repeat split; try done|].
  - rewrite Hl, <- Z.land_assoc, (Z.land_comm (Z.lnot _)), Z.land_lnot_diag.
    apply Z.land_0_r.
  - split; [by rewrite win_loop_body_run|].
    split; [apply filter_none, win_loop_body_no_fetch_and|].
    rewrite win_loop_body_run. split; [done | by destruct wex].
Qed.

(** A denied launch with the kill-first bit: both parts of the launch
    word are cleared, nothing is spawned. *)
Lemma launch_word_consumed_witness :
  let t :=
    Mac.mkTick true (λ _, Mac.Processes []) (Some ["backend=FALSE"])
      true (Mac.Forked 77) (λ ex, ex) false in
  Mac.t_exe_present t = true
  ∧ trace_of (run (Mac.loop_body 100 1 (-1) t (Mac.mkLocals 0x10000 5 42))
                (ex_set FLaunch 0x10005 Exchange_zero))
    = [EvIncr FCycles; EvFetchAnd FLaunch (Z.lnot LAUNCH_FLAG_KILL_FIRST);
       EvFetchAnd FLaunch (Z.lnot LAUNCH_MASK)].
Proof.
  split; [reflexivity|].
  pose proof (launch_word_consumed 100 1 (-1)
    (Mac.mkTick true (λ _, Mac.Processes []) (Some ["backend=FALSE"])
       true (Mac.Forked 77) (λ ex, ex) false)
    (Mac.mkLocals 0x10000 5 42) (ex_set FLaunch 0x10005 Exchange_zero)
    100 (Win.mkTick (Win.mkProfile None None 0 0) (Win.Processes []) 0 (λ ex, ex) false true)
    Exchange_zero eq_refl) as [[H _] _].
  rewrite H. reflexivity.
Defined.

(** C4 as stated fails on Windows: the pass swaps the whole word to
    zero, bits above bit 16 included, where an AND-NOT of the handled
    bits would keep them. *)
Lemma windows_pass_swaps_launch_word_to_zero :
  let t :=
    Win.mkTick (Win.mkProfile None (Some "TRUE") 0 0) (Win.Processes []) 0
      (λ ex, ex) false true in
  let pass := run (Win.loop_body 100 t) (ex_set FLaunch 0x30001 Exchange_zero) in
  trace_of pass
  = [EvSwap FLaunch 0; EvIncr FCycles; EvSpawn true; EvSwap FStatus 0x30001]
  ∧ launch (exchange_of pass) = 0
  ∧ Z.land 0x30001 (Z.lnot (Z.lor LAUNCH_FLAG_KILL_FIRST LAUNCH_MASK)) = 0x20000.
Proof. repeat split; reflexivity. Qed.

(** ** Leaving the loop *)

Section MacStopFacts.
Context (ownPid _noKillPid : Z).

Lemma count_handler_spec count p :
  MacStop.count_handler ownPid _noKillPid count p
  = (count + (if counted ownPid _noKillPid p then 1 else 0), 0).
Proof.
  unfold MacStop.count_handler, counted.
  destruct (Mac.is_sv_process (Mac.p_comm p) =? 0); cbn [negb andb].
  - by rewrite Z.add_0_r.
  - destruct (negb (Mac.p_pid p =? _noKillPid) && negb (Mac.p_pid p =? ownPid));
      [done | by rewrite Z.add_0_r].
Qed.

Lemma enum_count_handler kips : ∀ count,
  Mac.enum_loop (MacStop.count_handler ownPid _noKillPid) count kips
  = (count + Z.of_nat (length (List.filter (counted ownPid _noKillPid) kips)), 0).
Proof.
  induction kips as [|p kips IH]; intros count.
  - cbn. by rewrite Z.add_0_r.
  - rewrite enum_loop_cons, count_handler_spec. cbn [fst snd Z.eqb].
    rewrite IH. cbn [List.filter].
    destruct (counted ownPid _noKillPid p); cbn [length]; f_equal; lia.
Qed.

(** What a round of the wait does, by whether it ends the wait. *)
Lemma wait_round tmout round rounds :
  (MacStop.wait_slept ownPid _noKillPid tmout (round :: rounds)
   = if ends_backend_wait ownPid _noKillPid tmout round then 0
     else 2000 + MacStop.wait_slept ownPid _noKillPid tmout rounds)
  ∧ (if ends_backend_wait ownPid _noKillPid tmout round
     then MacStop.wait_loop ownPid _noKillPid tmout (round :: rounds)
          ≠ MacStop.StillWaiting
     else MacStop.wait_loop ownPid _noKillPid tmout (round :: rounds)
          = MacStop.wait_loop ownPid _noKillPid tmout rounds).
Proof.
  destruct round as [snap now].
  cbn [MacStop.wait_slept MacStop.wait_loop]. unfold ends_backend_wait. cbn [fst snd].
  destruct snap as [res|kips].
  - cbn [Mac.enum_processes]. by destruct (res =? 0).
  - cbn [Mac.enum_processes backends_left]. rewrite enum_count_handler.
    cbn [negb Z.eqb]. rewrite Z.add_0_l.
    set (left := Z.of_nat _).
    assert (Hleft : (0 >=? left) = (left =? 0)).
    { subst left. destruct (Z.eqb_spec (Z.of_nat (length
        (List.filter (counted ownPid _noKillPid) kips))) 0); lia. }
    rewrite Hleft. destruct (left =? 0); cbn [orb]; [done|].
    by destruct (now >=? tmout).
Qed.

Lemma wait_slept_nonneg tmout rounds :
  0 ≤ MacStop.wait_slept ownPid _noKillPid tmout rounds.
Proof.
  induction rounds as [|round rounds IH]; [done|].
  rewrite (proj1 (wait_round tmout round rounds)).
  destruct (ends_backend_wait _ _ _ round); lia.
Qed.

Lemma ends_at_the_deadline tmout snap now :
  tmout ≤ now → ends_backend_wait ownPid _noKillPid tmout (snap, now) = true.
Proof.
  intros H. unfold ends_backend_wait. cbn [fst snd]. destruct snap; [done|].
  apply orb_true_iff. right. apply Z.geb_le. lia.
Qed.

(** With a clock that is at [b] at the first round and has advanced by
    the two seconds of every sleep, the wait is over after [k] sleeps
    when the deadline is within [2 * k] seconds of [b]. *)
Lemma wait_is_bounded tmout (k : nat) : ∀ rounds b,
  (∀ i round, rounds !! i = Some round → b + 2 * Z.of_nat i ≤ round.2) →
  tmout ≤ b + 2 * Z.of_nat k →
  (k < length rounds)%nat →
  MacStop.wait_slept ownPid _noKillPid tmout rounds ≤ 2000 * Z.of_nat k
  ∧ MacStop.wait_loop ownPid _noKillPid tmout rounds ≠ MacStop.StillWaiting.
Proof.
  induction k as [|k IH]; intros rounds b Hclock Hk Hlen.
  - destruct rounds as [|[snap now] rounds]; [cbn in Hlen; lia|].
    pose proof (Hclock O (snap, now) eq_refl) as H0. cbn [snd] in H0.
    destruct (wait_round tmout (snap, now) rounds) as [Hs Hl].
    rewrite ends_at_the_deadline in Hs, Hl by lia.
    split; [rewrite Hs; lia | exact Hl].
  - destruct rounds as [|round rounds]; [cbn in Hlen; lia|].
    destruct (wait_round tmout round rounds) as [Hs Hl].
    destruct (ends_backend_wait ownPid _noKillPid tmout round).
    + split; [rewrite Hs; lia | exact Hl].
    + destruct (IH rounds (b + 2)) as [IHs IHl].
      * intros i r Hi. specialize (Hclock (S i) r Hi). lia.
      * lia.
      * cbn [length] in Hlen. lia.
      * split; [rewrite Hs; lia | by rewrite Hl].
Qed.

Lemma main_tail_run start rounds ex :
  run (MacStop.main_tail ownPid _noKillPid start rounds) ex
  = match MacStop.wait_for_backend_exit ownPid _noKillPid start
            MacStop.SHUTDOWN_WAIT_SECS rounds with
    | MacStop.StillWaiting => (None, ex_set FShutdown 1 ex, [EvSwap FShutdown 1])
    | _ => (Some Mac.RET_SUCCESS, ex_set FShutdown 1 ex,
            [EvSwap FShutdown 1; EvRemoveRegion])
    end.
Proof.
  unfold MacStop.main_tail.
  by destruct (MacStop.wait_for_backend_exit _ _ _ _ _).
Qed.
End MacStopFacts.

(** C6, as amended.  In a pass of the Mac loop in which [access] does
    not find the executable, the service unlinks the plist and breaks
    out of the loop, having only counted the cycle; a service whose
    first pass is that one does nothing more to the outside than set
    [shutdown] and remove the segment, and returns [RET_SUCCESS].  It
    does not return within a loop period, though: between the swap of
    [shutdown] and the removal of the segment [wait_for_backend_exit]
    sleeps two seconds in every round that still counts a Sighthound
    process before its deadline of 10 seconds.  With a clock that
    advances by these sleeps the wait ends, after at most 10 seconds of
    sleep, and [main] returns.  The Windows loop does not look at the
    executable: a pass does the same whether it is there or not, and
    nothing is ever unlinked. *)
Theorem executable_gone_breaks_loop (ownPid parentPid _noKillPid : Z)
    (PATH_MAX sizeof_wchar_t : Z) (SHLAUNCH_BUILD : string) (t : Mac.Tick)
    (ticks : list Mac.Tick) (st : Mac.Locals) (ex : Exchange)
    (o : Mac.ServiceOracle) (start : Z) (rounds : list (Mac.Snapshot * Z))
    (wownPid : Z) (ini : Win.Profile) (procs : Win.Snapshot) (create : Z)
    (oth : Exchange → Exchange) (exit : bool) (wticks : list Win.Tick) (wex : Exchange)
    (Hgone : Mac.t_exe_present t = false)
    (Hclock : ∀ i round, rounds !! i = Some round → start + 2 * Z.of_nat i ≤ round.2)
    (Hrounds : (6 ≤ length rounds)%nat) :
  let service :=
    run (Mac.main_attached PATH_MAX sizeof_wchar_t SHLAUNCH_BUILD ownPid parentPid
           _noKillPid
           (Mac.mkService (Mac.o_startup_snaps o) (Mac.o_calloc_ok o)
              (Mac.o_setuid_ok o) (Mac.o_shm o) (Mac.o_iconv_ok o) (Mac.o_cfg o)
              false (t :: ticks))) ex in
  let tmout := start + MacStop.SHUTDOWN_WAIT_SECS in
  run (Mac.loop_body ownPid parentPid _noKillPid t st) ex
  = (None, ex_set FCycles (wrap_u32 (cycles ex + 1)) ex,
     [EvIncr FCycles; EvUnlink Mac.PLIST_PATH])
  ∧ run (Mac.main_loop ownPid parentPid _noKillPid (t :: ticks) false st) ex
    = (Mac.ExecutableGone, ex_set FCycles (wrap_u32 (cycles ex + 1)) ex,
       [EvIncr FCycles; EvUnlink Mac.PLIST_PATH])
  ∧ result_of service = Some Mac.RET_SUCCESS
  ∧ trace_of service
    = [EvStore FProcessId ownPid;
       EvStore FSize (Mac.sizeof_Exchange PATH_MAX sizeof_wchar_t);
       EvIncr FCycles; EvUnlink Mac.PLIST_PATH; EvSwap FShutdown 1; EvRemoveRegion]
  ∧ run (MacStop.main_tail ownPid _noKillPid start rounds) ex
    = (Some Mac.RET_SUCCESS, ex_set FShutdown 1 ex, [EvSwap FShutdown 1; EvRemoveRegion])
  ∧ 0 ≤ MacStop.wait_slept ownPid _noKillPid tmout rounds
      ≤ 1000 * MacStop.SHUTDOWN_WAIT_SECS
  ∧ (∀ round rounds',
       MacStop.wait_slept ownPid _noKillPid tmout (round :: rounds')
       = if ends_backend_wait ownPid _noKillPid tmout round then 0
         else 2000 + MacStop.wait_slept ownPid _noKillPid tmout rounds')
  ∧ run (Win.loop_body wownPid (Win.mkTick ini procs create oth exit false)) wex
    = run (Win.loop_body wownPid (Win.mkTick ini procs create oth exit true)) wex
  ∧ List.filter is_unlink (trace_of (run (Win.svc_loop wownPid wticks) wex)) = [].
Proof.
  intros service tmout.
  destruct (wait_is_bounded ownPid _noKillPid tmout 5 rounds start Hclock)
    as [Hslept Hends].
  { subst tmout. unfold MacStop.SHUTDOWN_WAIT_SECS. lia. }
  { lia. }
  split; [by apply loop_body_gone|].
  split; [rewrite main_loop_cons, loop_body_gone by done; reflexivity|].
  assert (Hservice : result_of service = Some Mac.RET_SUCCESS
    ∧ trace_of service
      = [EvStore FProcessId ownPid;
         EvStore FSize (Mac.sizeof_Exchange PATH_MAX sizeof_wchar_t);
         EvIncr FCycles; EvUnlink Mac.PLIST_PATH; EvSwap FShutdown 1; EvRemoveRegion]).
  { subst service.
    pose proof (main_attached_run ownPid parentPid _noKillPid PATH_MAX sizeof_wchar_t
      SHLAUNCH_BUILD
      (Mac.mkService (Mac.o_startup_snaps o) (Mac.o_calloc_ok o)
         (Mac.o_setuid_ok o) (Mac.o_shm o) (Mac.o_iconv_ok o) (Mac.o_cfg o)
         false (t :: ticks)) ex) as Hrun.
    cbv zeta in Hrun. cbn [Mac.o_ticks Mac.o_early_sigterm Mac.o_cfg] in Hrun.
    rewrite main_loop_cons, loop_body_gone in Hrun by done.
    cbn [result_of exchange_of trace_of fst snd app] in Hrun.
    rewrite Hrun. by split. }
  split; [apply Hservice|]. split; [apply Hservice|].
  split.
  { rewrite main_tail_run. unfold MacStop.wait_for_backend_exit. cbv zeta.
    fold tmout. by destruct (MacStop.wait_loop ownPid _noKillPid tmout rounds). }
  split.
  { split; [apply wait_slept_nonneg|].
    unfold MacStop.SHUTDOWN_WAIT_SECS. lia. }
  split; [intros round rounds'; apply wait_round|].
  split; [by rewrite !win_loop_body_run|].
  apply filter_none. eapply Forall_impl; [apply svc_loop_quiet|]. by intros e [? ?].
Qed.

(** The executable is gone at the first pass: the second pass is not
    run.  A back-end process is there for two more rounds of the wait:
    [main] returns after four seconds of sleep. *)
Lemma executable_gone_breaks_loop_witness :
  let t :=
    Mac.mkTick false (λ _, Mac.Processes []) None true (Mac.Forked 77) (λ ex, ex) false in
  let backend := Mac.Processes [Mac.mkProc 501 300 100 "Sighthound Video"] in
  let rounds :=
    [(backend, 1000); (backend, 1002); (Mac.Processes [], 1004);
     (Mac.Processes [], 1006); (Mac.Processes [], 1008); (Mac.Processes [], 1010)] in
  Mac.t_exe_present t = false
  ∧ (∀ i round, rounds !! i = Some round → 1000 + 2 * Z.of_nat i ≤ round.2)
  ∧ (6 ≤ length rounds)%nat
  ∧ run (Mac.main_loop 100 1 (-1) [t; t] false (Mac.mkLocals 0 0 0)) Exchange_zero
    = (Mac.ExecutableGone, ex_set FCycles 1 Exchange_zero,
       [EvIncr FCycles; EvUnlink Mac.PLIST_PATH])
  ∧ run (MacStop.main_tail 100 (-1) 1000 rounds) (ex_set FCycles 1 Exchange_zero)
    = (Some 0, ex_set FShutdown 1 (ex_set FCycles 1 Exchange_zero),
       [EvSwap FShutdown 1; EvRemoveRegion])
  ∧ MacStop.wait_slept 100 (-1) 1010 rounds = 4000.
Proof.
  intros t backend rounds.
  assert (Hclock : ∀ i round, rounds !! i = Some round → 1000 + 2 * Z.of_nat i ≤ round.2).
  { intros i round Hi.
    do 6 (destruct i as [|i]; [injection Hi as <-; cbn; lia|]).
    discriminate Hi. }
  assert (Hrounds : (6 ≤ length rounds)%nat) by (cbn; lia).
  split; [reflexivity|]. split; [exact Hclock|]. split; [exact Hrounds|].
  split; [|split; [|reflexivity]].
  - exact (proj1 (proj2 (executable_gone_breaks_loop 100 1 (-1) 1024 4 "r00000" t [t]
      (Mac.mkLocals 0 0 0) Exchange_zero
      (Mac.mkService (λ _, Mac.Processes []) true true
         (Mac.mkShm Mac.ShmCreated None Mac.ShmCreated true) true None false [])
      1000 rounds
      100 (Win.mkProfile None None 0 0) (Win.Processes []) 0 (λ ex, ex) false []
      Exchange_zero eq_refl Hclock Hrounds))).
  - exact (proj1 (proj2 (proj2 (proj2 (proj2 (executable_gone_breaks_loop 100 1 (-1)
      1024 4 "r00000" t [t]
      (Mac.mkLocals 0 0 0) (ex_set FCycles 1 Exchange_zero)
      (Mac.mkService (λ _, Mac.Processes []) true true
         (Mac.mkShm Mac.ShmCreated None Mac.ShmCreated true) true None false [])
      1000 rounds
      100 (Win.mkProfile None None 0 0) (Win.Processes []) 0 (λ ex, ex) false []
      Exchange_zero eq_refl Hclock Hrounds)))))).
Defined.

(** C6 as stated fails on both platforms.  On Windows the loop goes on
    with the executable gone, pass after pass.  On the Mac the loop is
    left in that pass, but with a back-end process still there [main]
    sleeps two seconds in [wait_for_backend_exit] before it returns,
    twenty times the loop period of [IDLE_MILLIS]. *)
Lemma service_outlives_its_executable :
  let t :=
    Win.mkTick (Win.mkProfile None None 0 0) (Win.Processes []) 0 (λ ex, ex)
      false false in
  let gone :=
    Mac.mkTick false (λ _, Mac.Processes []) None true (Mac.Forked 77) (λ ex, ex) false in
  let rounds :=
    [(Mac.Processes [Mac.mkProc 501 300 100 "Sighthound Video"], 1000);
     (Mac.Processes [], 1002)] in
  (Win.t_exe_present t = false
   ∧ run (Win.loop_body 100 t) Exchange_zero
     = (true, ex_set FCycles 1 Exchange_zero,
        [EvSwap FLaunch 0; EvIncr FCycles; EvSwap FStatus 0])
   ∧ run (Win.svc_loop 100 [t; t]) Exchange_zero
     = (None, ex_set FCycles 2 Exchange_zero,
        [EvSwap FLaunch 0; EvIncr FCycles; EvSwap FStatus 0;
         EvSwap FLaunch 0; EvIncr FCycles; EvSwap FStatus 0]))
  ∧ (Mac.t_exe_present gone = false
     ∧ run (Mac.main_loop 100 1 (-1) [gone] false (Mac.mkLocals 0 0 0)) Exchange_zero
       = (Mac.ExecutableGone, ex_set FCycles 1 Exchange_zero,
          [EvIncr FCycles; EvUnlink Mac.PLIST_PATH])
     ∧ MacStop.wait_for_backend_exit 100 (-1) 1000 MacStop.SHUTDOWN_WAIT_SECS rounds
       = MacStop.BackendGone
     ∧ run (MacStop.main_tail 100 (-1) 1000 rounds) (ex_set FCycles 1 Exchange_zero)
       = (Some 0, ex_set FShutdown 1 (ex_set FCycles 1 Exchange_zero),
          [EvSwap FShutdown 1; EvRemoveRegion])
     ∧ MacStop.wait_slept 100 (-1) (1000 + MacStop.SHUTDOWN_WAIT_SECS) rounds = 2000
     ∧ MacStop.IDLE_MILLIS < 2000).
Proof. repeat split; reflexivity. Qed.

(** C5, as amended.  The Mac loop is left at the end of the pass in
    which SIGTERM came; what follows starts with an atomic swap of
    [shutdown] to 1, and that swap is the only event of the service
    that touches [shutdown].  The Windows loop never touches
    [shutdown]; after it, the service stores 1 to [shutdown] (a plain
    store) if it counts at least one back-end process, and does nothing
    to it otherwise. *)
Theorem shutdown_flag_on_stop (ownPid parentPid _noKillPid : Z)
    (PATH_MAX sizeof_wchar_t : Z) (SHLAUNCH_BUILD : string)
    (t : Mac.Tick) (ticks : list Mac.Tick) (st : Mac.Locals) (ex : Exchange)
    (o : Mac.ServiceOracle)
    (wownPid : Z) (wticks : list Win.Tick) (procs : Win.Snapshot)
    (waiting : Exchange → Exchange) (wex : Exchange)
    (Hterm : Mac.t_sigterm t = true) :
  let body := run (Mac.loop_body ownPid parentPid _noKillPid t st) ex in
  let service :=
    run (Mac.main_attached PATH_MAX sizeof_wchar_t SHLAUNCH_BUILD ownPid parentPid
           _noKillPid o) ex in
  run (Mac.main_loop ownPid parentPid _noKillPid (t :: ticks) false st) ex
  = (match result_of body with
     | None => Mac.ExecutableGone
     | Some _ => Mac.Terminated
     end, exchange_of body, trace_of body)
  ∧ run Mac.main_stop ex
    = (Mac.RET_SUCCESS, ex_set FShutdown 1 ex, [EvSwap FShutdown 1; EvRemoveRegion])
  ∧ List.filter (touches FShutdown) (trace_of service)
    = match result_of service with
      | Some _ => [EvSwap FShutdown 1]
      | None => []
      end
  ∧ List.filter (touches FShutdown) (trace_of (run (Win.svc_loop wownPid wticks) wex))
    = []
  ∧ run (Win.svc_stop procs waiting) wex
    = (if win_backend_count procs =? 0 then (tt, wex, [])
       else (tt, waiting (ex_set FShutdown 1 wex), [EvStore FShutdown 1])).
Proof.
  intros body service.
  split; [by apply main_loop_sigterm|].
  split; [reflexivity|].
  split; [|split].
  - subst service.
    pose proof (main_attached_run ownPid parentPid _noKillPid PATH_MAX sizeof_wchar_t
                  SHLAUNCH_BUILD o ex) as Hrun.
    cbv zeta in Hrun. rewrite Hrun.
    match goal with |- context [result_of (run (Mac.main_loop _ _ _ _ _ ?st0) ?ex0)] =>
      pose proof (main_loop_quiet ownPid parentPid _noKillPid (Mac.o_ticks o)
                    (Mac.o_early_sigterm o) st0 ex0) as Hq;
      destruct (run (Mac.main_loop ownPid parentPid _noKillPid (Mac.o_ticks o)
                       (Mac.o_early_sigterm o) st0) ex0) as [[e ex1] t1]
    end.
    cbn [result_of exchange_of trace_of fst snd] in *.
    apply filter_none in Hq.
    destruct e; cbn [result_of trace_of fst snd];
      rewrite ?List.filter_app, Hq; reflexivity.
  - apply filter_none. eapply Forall_impl; [apply svc_loop_quiet|]. by intros e [? ?].
  - apply svc_stop_run.
Qed.

(** SIGTERM comes during the first pass: the second pass is not run. *)
Lemma shutdown_flag_on_stop_witness :
  let t :=
    Mac.mkTick true (λ _, Mac.Processes []) None true (Mac.Forked 77) (λ ex, ex) true in
  Mac.t_sigterm t = true
  ∧ run (Mac.main_loop 100 1 (-1) [t; t] false (Mac.mkLocals 0 0 0)) Exchange_zero
    = (Mac.Terminated, ex_set FCycles 1 Exchange_zero, [EvIncr FCycles]).
Proof.
  split; [reflexivity|].
  exact (proj1 (shutdown_flag_on_stop 100 1 (-1) 1024 4 "r00000"
    (Mac.mkTick true (λ _, Mac.Processes []) None true (Mac.Forked 77) (λ ex, ex) true)
    [Mac.mkTick true (λ _, Mac.Processes []) None true (Mac.Forked 77) (λ ex, ex) true]
    (Mac.mkLocals 0 0 0) Exchange_zero
    (Mac.mkService (λ _, Mac.Processes []) true true
       (Mac.mkShm Mac.ShmCreated None Mac.ShmCreated true) true None false [])
    100 [] (Win.Processes []) (λ ex, ex) Exchange_zero eq_refl)).
Defined.

(** C5 as stated fails on Windows: when no back-end process is found
    the flag stays at 0. *)
Lemma windows_stop_without_backend_keeps_shutdown_zero :
  let table := Win.Processes [Win.mkProc 812 (Win.Named "explorer.exe") true true] in
  let stop := run (Win.svc_stop table (λ ex, ex)) Exchange_zero in
  trace_of stop = [] ∧ shutdown (exchange_of stop) = 0.
Proof. split; reflexivity. Qed.

(** ** The command line *)

(** C7, as amended.  On the Mac, every invocation whose first argument
    differs from the build tag returns 5 ([RET_BUILD_MISMATCH]) and has
    done nothing before, whatever the argument and those after it are.
    Windows has no build tag: there a first argument that is neither an
    option nor one of the four commands ends the program with exit code
    1 ([EXITCODE_BAD_ARGS]), nothing being done before. *)
Theorem build_mismatch_exits (PATH_MAX sizeof_wchar_t : Z) (SHLAUNCH_BUILD : string)
    (ownPid parentPid : Z) (argv0 argv1 : string) (rest : list string)
    (oa : Mac.ActivateOracle) (os : Mac.ServiceOracle)
    (wownPid MAX_PATH sizeof_pointer : Z) (wargv0 wargv1 : string)
    (wrest : list string) (wo : Win.CommandOracle) (wos : Win.ServiceOracle)
    (Hne : argv1 ≠ SHLAUNCH_BUILD)
    (Hmodule : Win.c_module_ok wo = true)
    (Hoption : has_prefix Win.ARG_PREFIX wargv1 = false)
    (Hcommand : wargv1 ∉ ["remove"; "shutdown"; "install"; "start"]) :
  Mac.main PATH_MAX sizeof_wchar_t SHLAUNCH_BUILD ownPid parentPid
    (argv0 :: argv1 :: rest) oa os
  = (Some Mac.RET_BUILD_MISMATCH, [])
  ∧ Win._tmain wownPid MAX_PATH sizeof_pointer (wargv0 :: wargv1 :: wrest) wo wos
    = (Some Win.EXITCODE_BAD_ARGS, []).
Proof.
  split.
  - unfold Mac.main, strcmp_eq.
    destruct (String.eqb_spec argv1 SHLAUNCH_BUILD); [done | reflexivity].
  - unfold Win._tmain. rewrite Hmodule. cbn [negb length Nat.ltb Nat.leb drop].
    cbn [Win.commands]. rewrite Hoption.
    change (Win.EXITCODE_SUCCESS =? 0) with true. cbn [negb].
    unfold strcmp_eq.
    repeat match goal with
    | |- context [String.eqb ?c wargv1] =>
        destruct (String.eqb_spec c wargv1) as [<-|_];
          [exfalso; apply Hcommand; rewrite !elem_of_cons;
           repeat (first [left; reflexivity | right])|]
    end.
    reflexivity.
Qed.

(** The build is r00000.  On the Mac an activation is asked for with
    the tag r99999, and a start with the word [install] in the place of
    the tag; on Windows the first argument is r99999. *)
Lemma build_mismatch_exits_witness :
  let oa :=
    Mac.mkActivate (Mac.PlistWritten 0) (λ _, Mac.Processes []) None true
      Mac.DirPresent true in
  let os :=
    Mac.mkService (λ _, Mac.Processes []) true true
      (Mac.mkShm Mac.ShmCreated None Mac.ShmCreated true) true None false [] in
  let wo := Win.mkCommand true 0 0 (Win.Processes []) 0 0 None in
  let wos :=
    Win.mkService true true true true true None true (Win.mkProfile None None 0 0)
      true [] (Win.Processes []) (λ ex, ex) in
  "r99999" ≠ "r00000"
  ∧ "install" ≠ "r00000"
  ∧ Win.c_module_ok wo = true
  ∧ has_prefix Win.ARG_PREFIX "r99999" = false
  ∧ ("r99999" ∉ ["remove"; "shutdown"; "install"; "start"])
  ∧ Mac.main 1024 4 "r00000" 100 1
      ["shlaunch"; "r99999"; "--activate"; "4711"; "/Users/u/data"; "501"; "u"] oa os
    = (Some 5, [])
  ∧ Mac.main 1024 4 "r00000" 100 1 ["shlaunch"; "install"] oa os = (Some 5, [])
  ∧ Win._tmain 100 260 4 ["shlaunch.exe"; "r99999"] wo wos = (Some 1, []).
Proof.
  intros oa os wo wos.
  assert (Hne : "r99999" ≠ "r00000") by discriminate.
  assert (Hne' : "install" ≠ "r00000") by discriminate.
  assert (Hcommand : "r99999" ∉ ["remove"; "shutdown"; "install"; "start"]).
  { intros H. repeat (apply elem_of_cons in H as [H|H]; [discriminate H|]).
    by apply elem_of_nil in H. }
  split; [exact Hne|]. split; [exact Hne'|]. split; [reflexivity|].
  split; [reflexivity|]. split; [exact Hcommand|].
  split; [|split].
  - exact (proj1 (build_mismatch_exits 1024 4 "r00000" 100 1 "shlaunch" "r99999"
      ["--activate"; "4711"; "/Users/u/data"; "501"; "u"] oa os
      100 260 4 "shlaunch.exe" "r99999" [] wo wos Hne eq_refl eq_refl Hcommand)).
  - exact (proj1 (build_mismatch_exits 1024 4 "r00000" 100 1 "shlaunch" "install"
      [] oa os
      100 260 4 "shlaunch.exe" "r99999" [] wo wos Hne' eq_refl eq_refl Hcommand)).
  - exact (proj2 (build_mismatch_exits 1024 4 "r00000" 100 1 "shlaunch" "r99999"
      [] oa os
      100 260 4 "shlaunch.exe" "r99999" [] wo wos Hne eq_refl eq_refl Hcommand)).
Defined.

(** C7 as stated fails on Windows: the first argument [shutdown] kills
    processes and the exit code is 0; an unknown word gives 1. *)
Lemma windows_first_argument_is_a_command :
  let table :=
    Win.Processes [Win.mkProc 8 (Win.Named "Sighthound Agent.exe") true true] in
  let o := Win.mkCommand true 0 0 table 0 0 None in
  let os :=
    Win.mkService true true true true true None true (Win.mkProfile None None 0 0)
      true [] (Win.Processes []) (λ ex, ex) in
  Win._tmain 100 260 4 ["shlaunch.exe"; "shutdown"] o os
  = (Some 0, [EvService "stop"; EvSignal 8])
  ∧ Win._tmain 100 260 4 ["shlaunch.exe"; "r99999"] o os = (Some 1, []).
Proof. split; reflexivity. Qed.

(** ** The size of the shared region *)

(** C9.  On Windows the first thing [svc_main] does to the outside
    world is to create the mapping, and it asks for [sizeof(exchange)]
    bytes, the size of a pointer, which is less than
    [sizeof(struct Exchange)].  On the Mac every [shmget] that creates
    the segment asks for [sizeof(struct Exchange)] bytes. *)
Theorem windows_mapping_has_the_size_of_a_pointer
    (ownPid MAX_PATH sizeof_pointer : Z) (argv : list string)
    (o : Win.ServiceOracle) (PATH_MAX sizeof_wchar_t : Z) (shm : Mac.ShmOracle)
    (Hcalloc : Win.o_calloc_ok o = true)
    (Hdescriptor : Win.o_descriptor_ok o = true)
    (Hpath : 0 ≤ MAX_PATH)
    (Hpointer : sizeof_pointer ≤ 8) :
  head (Win.svc_main ownPid MAX_PATH sizeof_pointer argv o).2
  = Some (EvCreateRegion sizeof_pointer)
  ∧ sizeof_pointer < Win.sizeof_Exchange MAX_PATH
  ∧ Forall (λ e, e = EvCreateRegion (Mac.sizeof_Exchange PATH_MAX sizeof_wchar_t))
      (List.filter is_create (Mac.exchange_open PATH_MAX sizeof_wchar_t shm).1).
Proof.
  split; [|split].
  - unfold Win.svc_main. rewrite Hcalloc, Hdescriptor. cbn [negb].
    destruct (Win.o_mapping_ok o), (Win.o_view_ok o); cbn [negb]; try reflexivity.
    destruct (run _ _) as [[r ex] t]. by destruct r.
  - unfold Win.sizeof_Exchange. lia.
  - unfold Mac.exchange_open, Mac.exchange_attach, Mac.exchange_reset.
    destruct shm as [first reset second attach_ok].
    cbn [Mac.shm_first Mac.shm_reset Mac.shm_second Mac.shm_attach_ok].
    destruct first, reset as [err|], second, attach_ok;
      try destruct (err =? 0); cbn; repeat constructor.
Qed.

(** The 32-bit build with [MAX_PATH = 260]: 4 bytes are asked for, 548
    are zeroed and announced in [size]. *)
Lemma windows_mapping_of_four_bytes :
  let o :=
    Win.mkService true true true true true (Some "C:/data") true
      (Win.mkProfile None None 0 0) true [] (Win.Processes []) (λ ex, ex) in
  Win.o_calloc_ok o = true
  ∧ Win.o_descriptor_ok o = true
  ∧ 0 ≤ 260
  ∧ 4 ≤ 8
  ∧ head (Win.svc_main 100 260 4 [] o).2 = Some (EvCreateRegion 4)
  ∧ List.filter is_create (Win.svc_main 100 260 4 [] o).2 = [EvCreateRegion 4]
  ∧ Win.sizeof_Exchange 260 = 548
  ∧ List.filter (touches FSize) (Win.svc_main 100 260 4 [] o).2
    = [EvZeroRegion; EvStore FSize 548].
Proof.
  intros o.
  assert (Hpath : 0 ≤ 260) by lia.
  assert (Hpointer : 4 ≤ 8) by lia.
  split; [reflexivity|]. split; [reflexivity|]. split; [exact Hpath|].
  split; [exact Hpointer|]. split; [|repeat split; reflexivity].
  exact (proj1 (windows_mapping_has_the_size_of_a_pointer 100 260 4 [] o 1024 4
    (Mac.mkShm Mac.ShmCreated None Mac.ShmCreated true)
    eq_refl eq_refl Hpath Hpointer)).
Defined.

(** ** Opening the Exchange from a client *)

(** The two branches of the library agree once the handle is
    allocated: what is proved of [launch_open] with [calloc_ok] holds
    of both. *)
Lemma launch_open_posix_allocated (expected : Z) (a : Client.Attach)
    (polls : list Client.Poll) :
  Client.launch_open_posix expected a polls
  = (if Client.calloc_ok a then Some (Client.launch_open expected a polls) else None).
Proof. unfold Client.launch_open_posix. by destruct (Client.calloc_ok a). Qed.

(** C2.  Once the Exchange is attached, [launch_open] returns a handle
    at the first poll at which [size] is the expected one or [cycles]
    differs from the value first read: either of the two is enough, so
    it succeeds with the expected [size] while [cycles] has not moved. *)
Theorem open_succeeds_on_size_or_heartbeat (expected : Z) (a : Client.Attach)
    (p : Client.Poll) (polls : list Client.Poll)
    (Hcalloc : Client.calloc_ok a = true)
    (Hmapping : Client.mapping_ok a = true)
    (Hview : Client.view_ok a = true)
    (Hready : Client.seen_size p = expected
              ∨ Client.seen_cycles p ≠ Client.first_cycles a) :
  Client.launch_open expected a (p :: polls) = Client.Handle.
Proof.
  unfold Client.launch_open. rewrite Hcalloc, Hmapping, Hview. cbn [negb].
  cbn [Client.wait_ready].
  destruct (Z.eqb_spec (Client.seen_size p) expected),
    (Z.eqb_spec (Client.first_cycles a) (Client.seen_cycles p)); cbn; try done.
  destruct Hready; congruence.
Qed.

(** The first poll sees the expected [size] and the [cycles] first
    read: a handle is returned. *)
Lemma open_succeeds_without_heartbeat :
  let expected := 548 in
  let a := Client.mkAttach true true true 7 1000 in
  let p := Client.mkPoll expected 7 1000 in
  Client.calloc_ok a = true
  ∧ Client.mapping_ok a = true
  ∧ Client.view_ok a = true
  ∧ Client.seen_size p = expected
  ∧ Client.seen_cycles p = Client.first_cycles a
  ∧ Client.launch_open expected a [p] = Client.Handle.
Proof.
  intros expected a p.
  do 5 (split; [reflexivity|]).
  exact (open_succeeds_on_size_or_heartbeat expected a p [] eq_refl eq_refl eq_refl
           (or_introl eq_refl)).
Defined.

(** The deadline only matters while neither of the two holds. *)
Example open_fails_at_the_deadline :
  let a := Client.mkAttach true true true 7 1000 in
  Client.launch_open 548 a [Client.mkPoll 0 8 1000] = Client.Handle
  ∧ Client.launch_open 548 a [Client.mkPoll 0 7 1000; Client.mkPoll 0 7 1011]
    = Client.Null
  ∧ Client.launch_open 548 a [Client.mkPoll 0 7 1000; Client.mkPoll 0 7 1010]
    = Client.Polling.
Proof. repeat split; reflexivity. Qed.

(** * Further properties of the code *)

(** ** The configuration file as a whole (Mac) *)

Lemma assigns_exclusive ln : assigns_autostart ln = true → assigns_backend ln = false.
Proof.
  unfold assigns_autostart, assigns_backend.
  destruct ln as [|c ln]; [done|].
  change Mac.tokenAutoStart with "autostart=". change Mac.tokenBackend with "backend=".
  cbn [String.length strncmp_eq].
  destruct (Ascii.eqb_spec c "a") as [->|]; [done|discriminate].
Qed.

Lemma cfg_line_cases st ln :
  Mac.cfg_line st ln
  = (if assigns_autostart ln then
       (Mac.mkConfig (says_TRUE 10 ln) (Mac.backend st.1), Z.lor st.2 1)
     else if assigns_backend ln then
       (Mac.mkConfig (Mac.autoStart st.1) (says_TRUE 8 ln), Z.lor st.2 2)
     else st).
Proof. by destruct st as [cfg found]. Qed.

(** What the loop of [cfg_load] has in [*cfg] and [found] after a
    sequence of lines. *)
Lemma cfg_lines_state lines :
  foldl Mac.cfg_line (Mac._cfgDefault, 0) lines
  = (Mac.mkConfig
       (match last (List.filter assigns_autostart lines) with
        | Some ln => says_TRUE 10 ln
        | None => false
        end)
       (match last (List.filter assigns_backend lines) with
        | Some ln => says_TRUE 8 ln
        | None => true
        end),
     (if existsb assigns_autostart lines then 1 else 0)
     + (if existsb assigns_backend lines then 2 else 0)).
Proof.
  induction lines as [|ln lines IH] using rev_ind; [reflexivity|].
  rewrite foldl_app. cbn [foldl]. rewrite IH, cfg_line_cases. cbn [fst snd Mac.autoStart Mac.backend].
  rewrite !List.filter_app, !existsb_app. cbn [List.filter existsb]. rewrite !orb_false_r.
  destruct (assigns_autostart ln) eqn:Ha.
  - rewrite (assigns_exclusive _ Ha). rewrite app_nil_r, last_snoc, orb_true_r, orb_false_r.
    f_equal. by destruct (existsb assigns_autostart lines), (existsb assigns_backend lines).
  - destruct (assigns_backend ln) eqn:Hb.
    + rewrite app_nil_r, last_snoc, orb_true_r, orb_false_r.
      f_equal. by destruct (existsb assigns_autostart lines), (existsb assigns_backend lines).
    + by rewrite !app_nil_r, !orb_false_r.
Qed.

(** X1.  [cfg_load] returns false, with the defaults (no autostart, back
    end allowed), when the file cannot be opened; when it can, the flag
    returned is true exactly when some line that [fgets] gave starts
    with [autostart=] and some line starts with [backend=], whatever
    their values and whatever else the file holds. *)
Theorem cfg_load_complete_flag (lines : list string) :
  Mac.cfg_load None = (Mac._cfgDefault, false)
  ∧ (Mac.cfg_load (Some lines)).2
    = existsb assigns_autostart lines && existsb assigns_backend lines.
Proof.
  split; [reflexivity|].
  unfold Mac.cfg_load. rewrite cfg_lines_state. cbn [snd].
  by destruct (existsb assigns_autostart lines), (existsb assigns_backend lines).
Qed.

(** X2.  In [cfg_load] the last assignment wins: [autoStart] is decided
    by the last line that starts with [autostart=] (true when the text
    after the token starts with TRUE) and is false when there is none;
    [backend] is decided by the last line that starts with [backend=]
    and is true when there is none. *)
Theorem cfg_load_last_assignment_wins (lines : list string) :
  Mac.autoStart (Mac.cfg_load (Some lines)).1
  = match last (List.filter assigns_autostart lines) with
    | Some ln => says_TRUE 10 ln
    | None => false
    end
  ∧ Mac.backend (Mac.cfg_load (Some lines)).1
    = match last (List.filter assigns_backend lines) with
      | Some ln => says_TRUE 8 ln
      | None => true
      end.
Proof. unfold Mac.cfg_load. rewrite cfg_lines_state. by split. Qed.

(** ** The repeated kill pass (Mac) *)

Section MacKillWait.
Context (ownPid parentPid _noKillPid noKillPid : Z).

Lemma kill_wait_loop_last snaps :
  Mac.kill_wait_loop ownPid parentPid _noKillPid noKillPid 1 snaps
  = (let p := Mac.kill_old_processes ownPid parentPid _noKillPid noKillPid (snaps O) in
     (p.1, if p.2 =? 0 then Mac.RET_SUCCESS else Mac.RET_ERROR)).
Proof.
  cbn [Mac.kill_wait_loop]. destruct (Mac.kill_old_processes _ _ _ _ _) as [t remaining].
  cbn [fst snd]. by destruct (remaining =? 0).
Qed.

Lemma kill_wait_loop_more retries snaps :
  Mac.kill_wait_loop ownPid parentPid _noKillPid noKillPid (S (S retries)) snaps
  = (let p := Mac.kill_old_processes ownPid parentPid _noKillPid noKillPid (snaps O) in
     if p.2 =? 0 then (p.1, Mac.RET_SUCCESS)
     else
       let w := Mac.kill_wait_loop ownPid parentPid _noKillPid noKillPid (S retries)
                  (λ n, snaps (S n)) in
       (p.1 ++ w.1, w.2)).
Proof.
  change (Mac.kill_wait_loop ownPid parentPid _noKillPid noKillPid (S (S retries)) snaps)
    with (let '(t, remaining) :=
            Mac.kill_old_processes ownPid parentPid _noKillPid noKillPid (snaps O) in
          if remaining =? 0 then (t, Mac.RET_SUCCESS)
          else
            let '(t', ret) :=
              Mac.kill_wait_loop ownPid parentPid _noKillPid noKillPid (S retries)
                (λ n, snaps (S n)) in
            (t ++ t', ret)).
  destruct (Mac.kill_old_processes _ _ _ _ _) as [t remaining]. cbn [fst snd].
  destruct (remaining =? 0); [done|]. by destruct (Mac.kill_wait_loop _ _ _ _ _ _).
Qed.

Lemma kill_wait_loop_passes retries : ∀ snaps,
  let pass n := Mac.kill_old_processes ownPid parentPid _noKillPid noKillPid (snaps n) in
  let r := Mac.kill_wait_loop ownPid parentPid _noKillPid noKillPid (S retries) snaps in
  ∃ k, (1 ≤ k ≤ S retries)%nat
    ∧ r.1 = concat (map (λ n, (pass n).1) (seq 0 k))
    ∧ (∀ n, (n < k - 1)%nat → (pass n).2 ≠ 0)
    ∧ ((r.2 = Mac.RET_SUCCESS ∧ (pass (k - 1)%nat).2 = 0)
       ∨ (r.2 = Mac.RET_ERROR ∧ k = S retries ∧ (pass (k - 1)%nat).2 ≠ 0)).
Proof.
  induction retries as [|retries IH]; intros snaps pass r; subst r.
  - rewrite kill_wait_loop_last. cbv zeta. fold (pass O).
    exists 1%nat. change (1 - 1)%nat with O. cbn [seq map concat fst snd]. rewrite app_nil_r.
    split; [lia|]. split; [done|]. split; [intros n; lia|].
    destruct (Z.eqb_spec (pass O).2 0); [by left | by right].
  - rewrite kill_wait_loop_more. cbv zeta. fold (pass O).
    destruct (Z.eqb_spec (pass O).2 0) as [H0|Hne].
    + exists 1%nat. change (1 - 1)%nat with O. cbn [seq map concat fst snd]. rewrite app_nil_r.
      split; [lia|]. split; [done|]. split; [intros n; lia|]. by left.
    + specialize (IH (λ n, snaps (S n))). cbv zeta in IH.
      destruct IH as (k & Hk & Htrace & Hbefore & Hend).
      cbn [fst snd].
      exists (S k). split; [lia|]. split; [|split].
      * cbn [seq map concat]. f_equal.
        rewrite Htrace. f_equal. rewrite <- seq_shift, map_map. reflexivity.
      * intros n Hn. destruct n as [|n]; [done|].
        apply (Hbefore n). lia.
      * replace (S k - 1)%nat with (S (k - 1)) by lia.
        destruct Hend as [[-> H0]|(-> & -> & H0)]; [left | right]; repeat split; done.
Qed.
End MacKillWait.

(** X3.  [kill_old_processes_and_wait] runs at least one and at most 20
    ([KILL_WAIT_RETRIES]) kill passes; what it does is what these
    passes do, one after the other; every pass but the last signalled
    something; it returns [RET_SUCCESS] when the last pass signalled
    nothing, and [RET_ERROR] when the twentieth pass still signalled
    something. *)
Theorem kill_wait_is_bounded (ownPid parentPid _noKillPid noKillPid : Z)
    (snaps : nat → Mac.Snapshot) :
  let pass n := Mac.kill_old_processes ownPid parentPid _noKillPid noKillPid (snaps n) in
  let r := Mac.kill_old_processes_and_wait ownPid parentPid _noKillPid noKillPid snaps in
  ∃ k, (1 ≤ k ≤ 20)%nat
    ∧ r.1 = concat (map (λ n, (pass n).1) (seq 0 k))
    ∧ Forall (λ n, (pass n).2 ≠ 0) (seq 0 (k - 1))
    ∧ ((r.2 = Mac.RET_SUCCESS ∧ (pass (k - 1)%nat).2 = 0)
       ∨ (r.2 = Mac.RET_ERROR ∧ k = 20%nat ∧ (pass (k - 1)%nat).2 ≠ 0)).
Proof.
  intros pass r.
  destruct (kill_wait_loop_passes ownPid parentPid _noKillPid noKillPid 19 snaps)
    as (k & Hk & Htrace & Hbefore & Hend).
  exists k. split; [exact Hk|]. split; [exact Htrace|]. split; [|exact Hend].
  apply Forall_forall. intros n Hn. apply Hbefore.
  apply list_elem_of_In, in_seq in Hn. lia.
Qed.

(** ** What a kill pass signals (Mac) *)

Lemma is_sv_process_names comm :
  Mac.is_sv_process comm ≠ 0 → comm ∈ Mac.SIGHTHOUND_PROCESS_NAMES.
Proof.
  unfold Mac.is_sv_process, Mac.SIGHTHOUND_PROCESS_NAMES.
  generalize [Mac.SV_EXE; "shlaunch"]. intros names.
  induction names as [|name names IH]; cbn [Mac.is_sv_process_from]; [done|].
  unfold strcmp_eq. destruct (String.eqb_spec name comm) as [->|_].
  - intros _. apply list_elem_of_here.
  - intros H. apply list_elem_of_further, IH, H.
Qed.

Lemma sv_pids_from kips pid :
  pid ∈ sv_pids kips →
  ∃ p, p ∈ kips ∧ Mac.p_pid p = pid ∧ Mac.p_comm p ∈ Mac.SIGHTHOUND_PROCESS_NAMES.
Proof.
  unfold sv_pids. intros Hin%list_elem_of_In%in_map_iff.
  destruct Hin as (p & <- & Hp%filter_In). destruct Hp as [Hp Hsv].
  exists p. split; [by apply list_elem_of_In|]. split; [done|].
  apply is_sv_process_names. by destruct (Z.eqb_spec (Mac.is_sv_process (Mac.p_comm p)) 0).
Qed.

(** What a pass signals, in terms of the recorded PIDs. *)
Lemma kill_pass_trace ownPid parentPid _noKillPid noKillPid kips :
  (Mac.kill_old_processes ownPid parentPid _noKillPid noKillPid (Mac.Processes kips)).1
  = map EvSignal
      (List.filter (λ pid, negb (spared ownPid parentPid _noKillPid noKillPid pid))
         (Mac.qsort Mac.cmp_int (take (Z.to_nat Mac.MAX_PROCESSES) (sv_pids kips)))).
Proof.
  destruct (enum_find_handler_zero kips) as (_ & H2 & _).
  unfold Mac.kill_old_processes.
  destruct (Mac.enum_processes _ _ _) as [fpctx err]. cbn [fst snd] in *.
  by rewrite kill_loop_spec, H2.
Qed.

(** X4.  A kill pass on the Mac signals only processes of the snapshot
    whose command name is one of [SIGHTHOUND_PROCESS_NAMES]; when
    [sysctl] fails it signals nothing and returns 0. *)
Theorem kill_pass_signals_only_named (ownPid parentPid _noKillPid noKillPid : Z)
    (kips : list Mac.Proc) (res : Z) :
  Forall (λ e, ∃ p, p ∈ kips ∧ e = EvSignal (Mac.p_pid p)
                 ∧ Mac.p_comm p ∈ Mac.SIGHTHOUND_PROCESS_NAMES)
    (Mac.kill_old_processes ownPid parentPid _noKillPid noKillPid (Mac.Processes kips)).1
  ∧ Mac.kill_old_processes ownPid parentPid _noKillPid noKillPid (Mac.SysctlFails res)
    = ([], 0).
Proof.
  split; [|reflexivity].
  rewrite kill_pass_trace. apply Forall_forall. intros e He.
  apply list_elem_of_In, in_map_iff in He as (pid & <- & Hpid%filter_In).
  destruct Hpid as [Hpid _]. apply list_elem_of_In in Hpid.
  rewrite qsort_Permutation in Hpid.
  apply elem_of_take in Hpid as (i & Hi & _).
  apply list_elem_of_lookup_2 in Hi.
  destruct (sv_pids_from _ _ Hi) as (p & Hp & <- & Hname).
  by exists p.
Qed.

(** ** The order of the signals (Mac) *)

Lemma cmp_int_total : Total (λ a b, Mac.cmp_int a b ≤ 0).
Proof.
  intros a b. unfold Mac.cmp_int, wrap_i32.
  destruct (decide ((a - b + 2 ^ 31) `mod` 2 ^ 32 - 2 ^ 31 ≤ 0)) as [|Hgt]; [by left|].
  right.
  replace (b - a + 2 ^ 31) with (- (a - b + 2 ^ 31) + 1 * 2 ^ 32) by lia.
  rewrite Z.mod_add by lia.
  pose proof (Z.mod_pos_bound (a - b + 2 ^ 31) (2 ^ 32) ltac:(lia)).
  pose proof (Z.mod_pos_bound (- (a - b + 2 ^ 31)) (2 ^ 32) ltac:(lia)).
  pose proof (Z.div_mod (a - b + 2 ^ 31) (2 ^ 32) ltac:(lia)).
  pose proof (Z.div_mod (- (a - b + 2 ^ 31)) (2 ^ 32) ltac:(lia)).
  lia.
Qed.

Lemma cmp_int_in_range a b :
  0 ≤ a < 2 ^ 31 → 0 ≤ b < 2 ^ 31 → Mac.cmp_int a b ≤ 0 → a ≤ b.
Proof.
  intros Ha Hb. unfold Mac.cmp_int, wrap_i32.
  rewrite Z.mod_small by lia. lia.
Qed.

Lemma Sorted_within {A} (P : A → Prop) (R R' : relation A) (l : list A) :
  (∀ x y, P x → P y → R x y → R' x y) → Forall P l → Sorted R l → Sorted R' l.
Proof.
  intros HR HP Hs. induction Hs as [|x l Hs IH Hhd]; [constructor|].
  apply Forall_cons in HP as [Hx Hl]. constructor; [by apply IH|].
  destruct Hhd as [|y l Hxy]; constructor.
  apply Forall_cons in Hl as [Hy _]. by apply HR.
Qed.

Lemma StronglySorted_filter {A} (R : relation A) (f : A → bool) (l : list A) :
  StronglySorted R l → StronglySorted R (List.filter f l).
Proof.
  induction 1 as [|x l Hs IH Hall]; cbn [List.filter]; [constructor|].
  destruct (f x); [|done]. constructor; [done|].
  apply Forall_forall. intros y Hy%list_elem_of_In%filter_In.
  rewrite Forall_forall in Hall. apply Hall, list_elem_of_In, Hy.
Qed.

(** X5.  With PIDs in the range of a non-negative [int], a kill pass on
    the Mac sends its signals in ascending order of the PIDs. *)
Theorem kill_pass_signals_in_ascending_order
    (ownPid parentPid _noKillPid noKillPid : Z) (kips : list Mac.Proc)
    (Hrange : Forall (λ p, 0 ≤ Mac.p_pid p < 2 ^ 31) kips) :
  ∃ pids,
    (Mac.kill_old_processes ownPid parentPid _noKillPid noKillPid (Mac.Processes kips)).1
    = map EvSignal pids
    ∧ StronglySorted Z.le pids.
Proof.
  eexists. split; [apply kill_pass_trace|].
  apply StronglySorted_filter, Sorted_StronglySorted; [apply _|].
  set (recorded := take _ _).
  apply (Sorted_within (λ pid, 0 ≤ pid < 2 ^ 31) (λ a b, Mac.cmp_int a b ≤ 0)).
  - intros x y. apply cmp_int_in_range.
  - apply Forall_forall. intros pid Hpid. rewrite qsort_Permutation in Hpid.
    subst recorded. apply elem_of_take in Hpid as (i & Hi & _).
    apply list_elem_of_lookup_2 in Hi.
    destruct (sv_pids_from _ _ Hi) as (p & Hp & <- & _).
    rewrite Forall_forall in Hrange. by apply Hrange.
  - unfold Mac.qsort.
    apply (@Sorted_merge_sort Z (λ a b, Mac.cmp_int a b ≤ 0) _ cmp_int_total).
Qed.

Lemma kill_pass_signals_in_ascending_order_witness :
  let kips :=
    [Mac.mkProc 501 30 1 "shlaunch"; Mac.mkProc 501 12 1 "Sighthound Video";
     Mac.mkProc 0 20 1 "launchd"; Mac.mkProc 501 7 1 "shlaunch"] in
  Forall (λ p, 0 ≤ Mac.p_pid p < 2 ^ 31) kips
  ∧ ∃ pids,
      (Mac.kill_old_processes 100 1 (-1) 12 (Mac.Processes kips)).1 = map EvSignal pids
      ∧ StronglySorted Z.le pids.
Proof.
  intros kips.
  assert (Hrange : Forall (λ p, 0 ≤ Mac.p_pid p < 2 ^ 31) kips).
  { repeat constructor; cbn; lia. }
  split; [exact Hrange|].
  exact (kill_pass_signals_in_ascending_order 100 1 (-1) 12 kips Hrange).
Defined.

(** ** What the Mac loop does to the outside *)

Section MacLoopEvents.
Context (ownPid parentPid _noKillPid : Z).

Lemma loop_body_events t st ex :
  Forall (λ e, mac_loop_event e = true)
    (trace_of (run (Mac.loop_body ownPid parentPid _noKillPid t st) ex)).
Proof.
  destruct (Mac.t_exe_present t) eqn:Hexe.
  - rewrite loop_body_present by done. cbn [trace_of snd].
    constructor; [done|]. apply Forall_app. split.
    + unfold mac_kill_step. destruct (Mac.l_kill st =? 0); [constructor|].
      apply Forall_app. split; [|by repeat constructor].
      eapply Forall_impl; [apply kill_wait_only_signals|]. by intros e [pid ->].
    + unfold mac_launch_step, Mac.launch_backend.
      destruct (Mac.l_launch st =? 0); [constructor|].
      destruct (Mac.backend _); [|by repeat constructor].
      destruct (Mac.t_malloc_ok t); by repeat constructor.
  - rewrite loop_body_gone by done. by repeat constructor.
Qed.

Lemma main_loop_events ticks : ∀ terminate st ex,
  Forall (λ e, mac_loop_event e = true)
    (trace_of (run (Mac.main_loop ownPid parentPid _noKillPid ticks terminate st) ex)).
Proof.
  induction ticks as [|t ticks IH]; intros terminate st ex.
  - destruct terminate; constructor.
  - destruct terminate; [constructor|].
    rewrite main_loop_cons.
    pose proof (loop_body_events t st ex) as Hb.
    destruct (run (Mac.loop_body _ _ _ t st) ex) as [[r ex1] t1].
    destruct r as [st'|]; [|exact Hb].
    specialize (IH (Mac.t_sigterm t) st' ex1).
    destruct (run (Mac.main_loop _ _ _ ticks _ st') ex1) as [[e ex2] t2].
    apply Forall_app. by split.
Qed.
End MacLoopEvents.

(** X6.  Whatever the ticks, the Mac loop does nothing to the outside
    but count the heartbeat, signal processes, spawn the back end,
    unlink the plist, clear the kill-first bit or the launch code of
    the launch word with an atomic AND-NOT, and swap [status] to 1.  So
    it never writes [size], [processId], [launchProcessId] or
    [shutdown], and it never sets [status] back to 0. *)
Theorem mac_loop_alphabet (ownPid parentPid _noKillPid : Z) (ticks : list Mac.Tick)
    (terminate : bool) (st : Mac.Locals) (ex : Exchange) :
  let trace :=
    trace_of (run (Mac.main_loop ownPid parentPid _noKillPid ticks terminate st) ex) in
  Forall (λ e, mac_loop_event e = true) trace
  ∧ Forall (λ e, touches FSize e = false ∧ touches FProcessId e = false
               ∧ touches FLaunchProcessId e = false ∧ touches FShutdown e = false
               ∧ e ≠ EvSwap FStatus 0)
      trace.
Proof.
  intros trace. pose proof (main_loop_events ownPid parentPid _noKillPid ticks terminate st ex) as H.
  fold trace in H. split; [exact H|].
  eapply Forall_impl; [exact H|]. intros e He.
  destruct e as [| | | | | | | | | |f v|f|f v|f m]; try destruct f; try discriminate He;
    cbn in *; repeat split; try done.
  apply bool_decide_eq_true in He. intros [= ->]. discriminate.
Qed.

(** ** The Mac program as a whole *)

Lemma loop_events_no_setuid (l : list Event) :
  Forall (λ e, mac_loop_event e = true) l → Forall (λ e, is_setuid e = false) l.
Proof.
  intros H. eapply Forall_impl; [exact H|]. intros e He. by destruct e.
Qed.

Lemma signals_no_setuid (l : list Event) :
  Forall (λ e, ∃ pid, e = EvSignal pid) l → Forall (λ e, is_setuid e = false) l.
Proof. intros H. eapply Forall_impl; [exact H|]. by intros e [pid ->]. Qed.

Lemma exchange_open_result PATH_MAX sizeof_wchar_t o :
  let r := Mac.exchange_open PATH_MAX sizeof_wchar_t o in
  Forall (λ e, is_setuid e = false) r.1
  ∧ (r.2 = Mac.RET_SUCCESS ∨ r.2 = Mac.RET_SHARED_MEMORY_ERROR).
Proof.
  unfold Mac.exchange_open, Mac.exchange_attach, Mac.exchange_reset.
  destruct o as [first reset second attach_ok].
  cbn [Mac.shm_first Mac.shm_reset Mac.shm_second Mac.shm_attach_ok].
  destruct first, reset as [err|], second, attach_ok;
    try destruct (err =? 0); cbn;
    (split; [by repeat constructor | auto]).
Qed.

Lemma activate_result ownPid parentPid _noKillPid o :
  let r := Mac.activate ownPid parentPid _noKillPid o in
  Forall (λ e, is_setuid e = false) r.1
  ∧ (r.2 = 0 ∨ r.2 = Mac.RET_ERROR ∨ r.2 = Mac.RET_ACTIVATE_ERROR).
Proof.
  unfold Mac.activate, Mac.create_daemon_plist, Mac.exchange_reset, Mac.prepare_data_dir.
  pose proof (signals_no_setuid _
    (kill_wait_only_signals ownPid parentPid _noKillPid 0 (Mac.a_snaps o))) as Hk.
  destruct (Mac.kill_old_processes_and_wait _ _ _ _ _) as [t2 err2]. cbn [fst] in Hk.
  destruct o as [plist snaps reset local_ok global symlink_ok].
  cbn [Mac.a_plist Mac.a_reset Mac.a_local_ok Mac.a_global Mac.a_symlink_ok].
  destruct plist as [|errno|result]; cbn.
  - split; [constructor | auto].
  - destruct (errno =? 0) eqn:He; cbn; [split; [constructor | auto]|].
    rewrite He. cbn. split; [constructor | auto].
  - destruct (result =? 0); cbn; [|split; [by repeat constructor | auto]].
    destruct (err2 =? 0); cbn; [|split; [by constructor | auto]].
    destruct reset as [err|]; cbn.
    + destruct (err =? 0); cbn.
      * destruct local_ok; cbn.
        -- destruct global as [|[]|], symlink_ok; cbn;
             (split; [constructor; [done|]; rewrite ?Forall_app; repeat split;
                        try done; by repeat constructor | auto]).
        -- destruct global as [|[]|]; cbn;
             (split; [constructor; [done|]; rewrite ?Forall_app; repeat split;
                        try done; by repeat constructor | auto]).
      * split; [constructor; [done|]; rewrite ?Forall_app; repeat split;
                  try done; by repeat constructor | auto].
    + destruct local_ok; cbn.
      * destruct global as [|[]|], symlink_ok; cbn;
          (split; [constructor; [done|]; rewrite ?Forall_app; repeat split;
                     try done; by repeat constructor | auto]).
      * destruct global as [|[]|]; cbn;
          (split; [constructor; [done|]; rewrite ?Forall_app; repeat split;
                     try done; by repeat constructor | auto]).
Qed.

Lemma main_attached_result PATH_MAX sizeof_wchar_t SHLAUNCH_BUILD ownPid parentPid
    _noKillPid o ex :
  let r := run (Mac.main_attached PATH_MAX sizeof_wchar_t SHLAUNCH_BUILD ownPid
                  parentPid _noKillPid o) ex in
  Forall (λ e, is_setuid e = false) (trace_of r)
  ∧ (result_of r = None ∨ result_of r = Some Mac.RET_SUCCESS).
Proof.
  intros r. subst r.
  pose proof (main_attached_run ownPid parentPid _noKillPid PATH_MAX sizeof_wchar_t
                SHLAUNCH_BUILD o ex) as Hrun.
  cbv zeta in Hrun. rewrite Hrun. clear Hrun.
  match goal with |- context [result_of (run (Mac.main_loop _ _ _ _ _ ?st0) ?ex0)] =>
    pose proof (loop_events_no_setuid _
      (main_loop_events ownPid parentPid _noKillPid (Mac.o_ticks o)
         (Mac.o_early_sigterm o) st0 ex0)) as Hq;
    destruct (run (Mac.main_loop ownPid parentPid _noKillPid (Mac.o_ticks o)
                     (Mac.o_early_sigterm o) st0) ex0) as [[e ex1] t1]
  end.
  cbn [result_of exchange_of trace_of fst snd] in *.
  destruct e; cbn [result_of trace_of fst snd];
    (split; [|auto]); repeat (constructor; [done|]);
    rewrite ?Forall_app; repeat split; try done; by repeat constructor.
Qed.

Ltac codes :=
  cbn; unfold Mac.RET_SUCCESS, Mac.RET_ERROR, Mac.RET_SHARED_MEMORY_ERROR,
    Mac.RET_ACTIVATE_ERROR, Mac.RET_ARGS_ERROR, Mac.RET_BUILD_MISMATCH in *; lia.

(** X7.  [main] on the Mac never calls [setuid]: on the way to the
    service [uid] is still -1 when it is tested, and the activation
    does not reach the test.  The exit code, when [main] returns, is
    between 0 and 5: [RET_SETUID_ERROR] (6) is never returned. *)
Theorem mac_main_never_drops_privileges (PATH_MAX sizeof_wchar_t : Z)
    (SHLAUNCH_BUILD : string) (ownPid parentPid : Z) (argv : list string)
    (oa : Mac.ActivateOracle) (os : Mac.ServiceOracle) :
  let r := Mac.main PATH_MAX sizeof_wchar_t SHLAUNCH_BUILD ownPid parentPid argv oa os in
  List.filter is_setuid r.2 = []
  ∧ match r.1 with
    | Some code => 0 ≤ code ≤ 5
    | None => True
    end.
Proof.
  intros r. subst r. unfold Mac.main.
  destruct argv as [|argv0 [|argv1 rest]]; [by split; [|codes].. |].
  destruct (strcmp_eq argv1 SHLAUNCH_BUILD); cbn [negb]; [|by split; [|codes]].
  destruct (_ && _).
  - pose proof (activate_result ownPid parentPid
                  (atoi (nth 3 (argv0 :: argv1 :: rest) "")) oa) as [Ht Hr].
    destruct (Mac.activate _ _ _ _) as [t ret]. cbn [fst snd] in *.
    split; [by apply filter_none; constructor|].
    unfold Mac.RET_ERROR, Mac.RET_ACTIVATE_ERROR in Hr. lia.
  - unfold Mac.main_service.
    pose proof (signals_no_setuid _
      (kill_wait_only_signals ownPid parentPid (-1) (-1) (Mac.o_startup_snaps os))) as Hk.
    destruct (Mac.kill_old_processes_and_wait _ _ _ _ _) as [t_kill ret_kill].
    cbn [fst] in Hk.
    destruct (Mac.o_calloc_ok os); cbn [negb].
    2:{ split; [by apply filter_none; constructor | codes]. }
    change (-1 =? -1) with true. cbn [negb andb app].
    pose proof (exchange_open_result PATH_MAX sizeof_wchar_t (Mac.o_shm os)) as [Hs Hsr].
    destruct (Mac.exchange_open _ _ _) as [t_shm ret]. cbn [fst snd] in *.
    destruct Hsr as [-> | ->].
    + change (Mac.RET_SUCCESS =? 0) with true. cbn [negb].
      destruct (Mac.o_iconv_ok os); cbn [negb].
      * pose proof (main_attached_result PATH_MAX sizeof_wchar_t SHLAUNCH_BUILD ownPid
                      parentPid (-1) os Exchange_zero) as [Ha Har].
        destruct (run _ _) as [[ret ex] t_run]. cbn [result_of trace_of fst snd] in *.
        split.
        -- apply filter_none. constructor; [done|]. rewrite !Forall_app. by repeat split.
        -- destruct Har as [-> | ->]; codes.
      * split; [|codes].
        apply filter_none. constructor; [done|]. rewrite !Forall_app.
        repeat split; try done. by repeat constructor.
    + change (Mac.RET_SHARED_MEMORY_ERROR =? 0) with false. cbn [negb].
      split; [|codes].
      apply filter_none. constructor; [done|]. rewrite !Forall_app. by repeat split.
Qed.

(** ** The heartbeat *)

Section MacHeartbeat.
Context (ownPid parentPid _noKillPid : Z).

Lemma mac_kill_step_no_heartbeat t st :
  List.filter is_heartbeat (mac_kill_step ownPid parentPid _noKillPid t st) = [].
Proof.
  apply filter_none. unfold mac_kill_step. destruct (Mac.l_kill st =? 0); [constructor|].
  apply Forall_app. split; [|by repeat constructor].
  eapply Forall_impl; [apply kill_wait_only_signals|]. by intros e [pid ->].
Qed.

Lemma mac_launch_step_no_heartbeat t st :
  List.filter is_heartbeat (mac_launch_step t st) = [].
Proof.
  apply filter_none. unfold mac_launch_step, Mac.launch_backend.
  destruct (Mac.l_launch st =? 0); [constructor|].
  destruct (Mac.backend _); [|by repeat constructor].
  destruct (Mac.t_malloc_ok t); by repeat constructor.
Qed.

Lemma cycles_mac_pass_exchange t st ex :
  cycles (mac_pass_exchange t st ex) = wrap_u32 (cycles ex + 1).
Proof.
  unfold mac_pass_exchange. cbv zeta. destruct (_ || _); by destruct ex.
Qed.

Lemma wrap_u32_succ c n :
  wrap_u32 (wrap_u32 (c + 1) + Z.of_nat n) = wrap_u32 (c + Z.of_nat (S n)).
Proof.
  unfold wrap_u32. rewrite Zplus_mod_idemp_l. f_equal. lia.
Qed.

Lemma main_loop_heartbeat ticks : ∀ terminate st ex,
  Forall (λ t, keeps_cycles (Mac.t_others t)) ticks →
  let r := run (Mac.main_loop ownPid parentPid _noKillPid ticks terminate st) ex in
  length (List.filter is_heartbeat (trace_of r)) = mac_passes ticks terminate
  ∧ wrap_u32 (cycles (exchange_of r))
    = wrap_u32 (cycles ex + Z.of_nat (mac_passes ticks terminate)).
Proof.
  induction ticks as [|t ticks IH]; intros terminate st ex Hk r; subst r.
  - destruct terminate; cbn; by rewrite Z.add_0_r.
  - destruct terminate; [cbn; by rewrite Z.add_0_r|].
    apply Forall_cons in Hk as [Ht Hk].
    rewrite main_loop_cons. cbn [mac_passes].
    destruct (Mac.t_exe_present t) eqn:Hexe.
    + rewrite loop_body_present by done. cbv zeta.
      specialize (IH (Mac.t_sigterm t)
        (Mac.mkLocals
           (Z.land (launch (Mac.t_others t (mac_pass_exchange t st ex)))
              LAUNCH_FLAG_KILL_FIRST)
           (Z.land (launch (Mac.t_others t (mac_pass_exchange t st ex))) LAUNCH_MASK)
           (launchProcessId (Mac.t_others t (mac_pass_exchange t st ex))))
        (Mac.t_others t (mac_pass_exchange t st ex)) Hk).
      cbv zeta in IH.
      destruct (run (Mac.main_loop _ _ _ ticks _ _) _) as [[e ex2] t2].
      cbn [trace_of exchange_of fst snd] in *. destruct IH as [IH1 IH2].
      split.
      * rewrite <- app_comm_cons, <- app_assoc.
        change (List.filter is_heartbeat (EvIncr FCycles :: ?l))
          with (EvIncr FCycles :: List.filter is_heartbeat l).
        rewrite !List.filter_app, mac_kill_step_no_heartbeat,
          mac_launch_step_no_heartbeat. cbn [app length]. by rewrite IH1.
      * rewrite IH2, Ht, cycles_mac_pass_exchange.
        apply wrap_u32_succ.
    + rewrite loop_body_gone by done. cbn [trace_of exchange_of fst snd].
      split; [reflexivity|].
      cbn [cycles ex_set]. destruct ex; cbn. unfold wrap_u32.
      by rewrite Zmod_mod.
Qed.
End MacHeartbeat.

(** X8.  The heartbeat of the Mac service: over a script of ticks the
    loop increments [cycles] once in every pass it starts, the pass
    that finds the executable gone included, and nowhere else; when the
    other processes leave [cycles] alone and it starts within
    [uint32_t], its value afterwards is the value at the start plus the
    number of passes, modulo 2^32. *)
Theorem mac_heartbeat_counts_passes (ownPid parentPid _noKillPid : Z)
    (ticks : list Mac.Tick) (terminate : bool) (st : Mac.Locals) (ex : Exchange)
    (Hothers : Forall (λ t, keeps_cycles (Mac.t_others t)) ticks)
    (Hrange : 0 ≤ cycles ex < 2 ^ 32) :
  let r := run (Mac.main_loop ownPid parentPid _noKillPid ticks terminate st) ex in
  length (List.filter is_heartbeat (trace_of r)) = mac_passes ticks terminate
  ∧ cycles (exchange_of r) = (cycles ex + Z.of_nat (mac_passes ticks terminate)) `mod` 2 ^ 32.
Proof.
  intros r.
  destruct (main_loop_heartbeat ownPid parentPid _noKillPid ticks terminate st ex Hothers)
    as [H1 H2].
  fold r in H1, H2. split; [exact H1|].
  fold (wrap_u32 (cycles ex + Z.of_nat (mac_passes ticks terminate))).
  rewrite <- H2. unfold wrap_u32. symmetry. apply Z.mod_small.
  subst r. clear H1 H2.
  revert terminate st ex Hothers Hrange.
  induction ticks as [|t ticks IH]; intros terminate st ex Hk Hrange.
  - by destruct terminate.
  - destruct terminate; [done|].
    apply Forall_cons in Hk as [Ht Hk].
    rewrite main_loop_cons.
    destruct (Mac.t_exe_present t) eqn:Hexe.
    + rewrite loop_body_present by done. cbv zeta.
      match goal with |- context [run (Mac.main_loop _ _ _ ticks ?b ?s) ?e] =>
        specialize (IH b s e Hk) end.
      destruct (run (Mac.main_loop _ _ _ ticks _ _) _) as [[e ex2] t2].
      cbn [exchange_of fst snd] in *. apply IH.
      rewrite Ht, cycles_mac_pass_exchange. unfold wrap_u32.
      apply Z.mod_pos_bound. lia.
    + rewrite loop_body_gone by done. cbn [exchange_of fst snd].
      destruct ex; cbn. apply Z.mod_pos_bound. lia.
Qed.

Lemma mac_heartbeat_counts_passes_witness :
  let t :=
    Mac.mkTick true (λ _, Mac.Processes []) None true (Mac.Forked 77) (λ ex, ex) false in
  let gone :=
    Mac.mkTick false (λ _, Mac.Processes []) None true (Mac.Forked 77) (λ ex, ex) false in
  let ex := ex_set FCycles (2 ^ 32 - 2) Exchange_zero in
  Forall (λ t, keeps_cycles (Mac.t_others t)) [t; t; gone; t]
  ∧ 0 ≤ cycles ex < 2 ^ 32
  ∧ mac_passes [t; t; gone; t] false = 3%nat
  ∧ cycles (exchange_of (run (Mac.main_loop 100 1 (-1) [t; t; gone; t] false
                                (Mac.mkLocals 0 0 0)) ex)) = 1.
Proof.
  intros t gone ex.
  assert (Hk : Forall (λ t, keeps_cycles (Mac.t_others t)) [t; t; gone; t])
    by (repeat constructor).
  assert (Hr : 0 ≤ cycles ex < 2 ^ 32) by (cbn; lia).
  split; [exact Hk|]. split; [exact Hr|]. split; [reflexivity|].
  exact (proj2 (mac_heartbeat_counts_passes 100 1 (-1) [t; t; gone; t] false
                  (Mac.mkLocals 0 0 0) ex Hk Hr)).
Defined.

(** ** When the Mac service spawns the back end *)

Section MacSpawn.
Context (ownPid parentPid _noKillPid : Z).

Lemma mac_kill_step_no_spawn t st :
  List.filter is_spawn (mac_kill_step ownPid parentPid _noKillPid t st) = []
  ∧ List.filter (touches FStatus) (mac_kill_step ownPid parentPid _noKillPid t st) = [].
Proof.
  split; apply filter_none.
  - unfold mac_kill_step. destruct (Mac.l_kill st =? 0); [constructor|].
    apply Forall_app. split; [|by repeat constructor].
    eapply Forall_impl; [apply kill_wait_only_signals|]. by intros e [pid ->].
  - eapply Forall_impl; [apply mac_kill_step_quiet|]. by intros e [? ?].
Qed.
End MacSpawn.

(** X9.  A pass of the Mac loop spawns at most once, and exactly when
    the executable is there, the launch code is not 0, the
    configuration read in that pass allows the back end and [malloc]
    succeeds.  [status] is written (swapped to 1) exactly when the
    first three hold: a launch command that the configuration denies is
    consumed without any write to [status]. *)
Theorem mac_pass_spawns_at_most_once (ownPid parentPid _noKillPid : Z) (t : Mac.Tick)
    (st : Mac.Locals) (ex : Exchange) :
  let pass := run (Mac.loop_body ownPid parentPid _noKillPid t st) ex in
  let permitted :=
    Mac.t_exe_present t && negb (Mac.l_launch st =? 0)
    && Mac.backend (Mac.cfg_load (Mac.t_cfg t)).1 in
  List.filter is_spawn (trace_of pass)
  = (if permitted && Mac.t_malloc_ok t
     then [EvSpawn (match Mac.t_fork t with
                    | Mac.Forked _ => true
                    | Mac.ForkFails => false
                    end)]
     else [])
  ∧ List.filter (touches FStatus) (trace_of pass)
    = (if permitted then [EvSwap FStatus 1] else []).
Proof.
  intros pass permitted. subst pass permitted.
  destruct (Mac.t_exe_present t) eqn:Hexe.
  - rewrite loop_body_present by done. cbn [trace_of snd andb].
    change (List.filter is_spawn (EvIncr FCycles :: ?l)) with (List.filter is_spawn l).
    change (List.filter (touches FStatus) (EvIncr FCycles :: ?l))
      with (List.filter (touches FStatus) l).
    rewrite !List.filter_app.
    destruct (mac_kill_step_no_spawn ownPid parentPid _noKillPid t st) as [-> ->].
    cbn [app]. unfold mac_launch_step, Mac.launch_backend.
    destruct (Mac.l_launch st =? 0); cbn [negb andb]; [done|].
    destruct (Mac.backend _); cbn [andb]; [|done].
    by destruct (Mac.t_malloc_ok t).
  - rewrite loop_body_gone by done. done.
Qed.

(** ** A command from the client to the Mac service *)

Lemma client_write_fields processId signal ex :
  launch (client_write processId signal ex) = signal
  ∧ launchProcessId (client_write processId signal ex) = processId.
Proof. by destruct ex. Qed.

Lemma testbit_mask n : 0 ≤ n → Z.testbit LAUNCH_MASK n = bool_decide (n < 16).
Proof.
  intros Hn. change LAUNCH_MASK with (Z.ones 16).
  case_bool_decide.
  - apply Z.ones_spec_low. lia.
  - apply Z.ones_spec_high. lia.
Qed.

Lemma testbit_kill_first n : 0 ≤ n → Z.testbit LAUNCH_FLAG_KILL_FIRST n = bool_decide (n = 16).
Proof.
  intros Hn. change LAUNCH_FLAG_KILL_FIRST with (2 ^ 16).
  rewrite Z.pow2_bits_eqb by lia.
  case_bool_decide; [by apply Z.eqb_eq | apply Z.eqb_neq; lia].
Qed.

Lemma testbit_above s n : 0 ≤ s < 2 ^ 17 → 17 ≤ n → Z.testbit s n = false.
Proof.
  intros Hs Hn. destruct (decide (s = 0)) as [->|Hne]; [apply Z.bits_0|].
  apply Z.bits_above_log2; [lia|].
  assert (Z.log2 s < 17) by (apply Z.log2_lt_pow2; lia). lia.
Qed.

(** Handling the two parts that a launch word below [2^17] has clears
    the word. *)
Lemma launch_word_cleared (s : Z) :
  0 ≤ s < 2 ^ 17 →
  Z.land s (Z.lnot (handled_bits
    (Mac.mkLocals (Z.land s LAUNCH_FLAG_KILL_FIRST) (Z.land s LAUNCH_MASK) 0))) = 0.
Proof.
  intros Hs. apply Z.bits_inj'. intros n Hn.
  rewrite Z.land_spec, Z.lnot_spec, Z.bits_0 by done.
  unfold handled_bits. cbn [Mac.l_kill Mac.l_launch].
  rewrite Z.lor_spec.
  destruct (Z.testbit s n) eqn:Hbit; [|done]. cbn [andb].
  apply negb_false_iff, orb_true_iff.
  destruct (decide (n < 16)) as [Hlo|Hhi].
  - right. destruct (Z.eqb_spec (Z.land s LAUNCH_MASK) 0) as [H0|_].
    + apply (f_equal (λ z, Z.testbit z n)) in H0.
      rewrite Z.land_spec, Hbit, testbit_mask, bool_decide_eq_true_2, Z.bits_0 in H0
        by done. done.
    + rewrite testbit_mask by done. by apply bool_decide_eq_true_2.
  - left. destruct (decide (n = 16)) as [->|Hne].
    + destruct (Z.eqb_spec (Z.land s LAUNCH_FLAG_KILL_FIRST) 0) as [H0|_]; [|done].
      apply (f_equal (λ z, Z.testbit z 16)) in H0.
      rewrite Z.land_spec, Hbit in H0. done.
    + rewrite testbit_above in Hbit by (done || lia). done.
Qed.

Lemma handled_bits_srcPid k l p q :
  handled_bits (Mac.mkLocals k l p) = handled_bits (Mac.mkLocals k l q).
Proof. reflexivity. Qed.

Lemma launch_mac_pass_exchange t st ex :
  launch (mac_pass_exchange t st ex) = Z.land (launch ex) (Z.lnot (handled_bits st)).
Proof.
  unfold mac_pass_exchange. cbv zeta. destruct (_ || _); by destruct ex.
Qed.

Lemma mac_launch_step_no_signal t st pid : EvSignal pid ∉ mac_launch_step t st.
Proof.
  unfold mac_launch_step, Mac.launch_backend.
  destruct (Mac.l_launch st =? 0); [apply not_elem_of_nil|].
  destruct (Mac.backend _), (Mac.t_malloc_ok t); cbn; intros Hin;
    repeat (apply elem_of_cons in Hin as [Hin|Hin]; [discriminate|]);
    by apply elem_of_nil in Hin.
Qed.

(** X10.  A command of the client library reaches the Mac service and
    is consumed.  When [launch_do] writes a launch word below 2^17 (a
    launch code and the kill-first flag) while the service sleeps, the
    pass ends with the kill flag, the launch code and the caller's PID
    in its locals; the next pass does not signal the caller, leaves the
    launch word at 0 if nobody else writes to it, and ends with nothing
    left to handle. *)
Theorem launch_command_round_trip (ownPid parentPid _noKillPid : Z)
    (clientPid signal : Z) (t1 t2 : Mac.Tick) (st : Mac.Locals) (ex : Exchange)
    (Hexe1 : Mac.t_exe_present t1 = true)
    (Hexe2 : Mac.t_exe_present t2 = true)
    (Hclient : ∀ ex, Mac.t_others t1 ex = client_write clientPid signal ex)
    (Hidle : ∀ ex, launch (Mac.t_others t2 ex) = launch ex)
    (Hsignal : 0 ≤ signal < 2 ^ 17) :
  let pass1 := run (Mac.loop_body ownPid parentPid _noKillPid t1 st) ex in
  let st1 :=
    Mac.mkLocals (Z.land signal LAUNCH_FLAG_KILL_FIRST) (Z.land signal LAUNCH_MASK)
      clientPid in
  let pass2 := run (Mac.loop_body ownPid parentPid _noKillPid t2 st1) (exchange_of pass1) in
  result_of pass1 = Some st1
  ∧ launch (exchange_of pass1) = signal
  ∧ (EvSignal clientPid ∉ trace_of pass2)
  ∧ launch (exchange_of pass2) = 0
  ∧ ∃ srcPid, result_of pass2 = Some (Mac.mkLocals 0 0 srcPid).
Proof.
  intros pass1 st1 pass2.
  assert (H1 : pass1 = (Some st1,
                        client_write clientPid signal (mac_pass_exchange t1 st ex),
                        EvIncr FCycles :: mac_kill_step ownPid parentPid _noKillPid t1 st
                          ++ mac_launch_step t1 st)).
  { subst pass1. rewrite loop_body_present by done. cbv zeta. rewrite Hclient.
    destruct (client_write_fields clientPid signal (mac_pass_exchange t1 st ex))
      as [-> ->]. done. }
  assert (Hl2 : launch (Mac.t_others t2 (mac_pass_exchange t2 st1 (exchange_of pass1))) = 0).
  { rewrite Hidle, launch_mac_pass_exchange, H1. cbn [exchange_of fst snd].
    rewrite (proj1 (client_write_fields _ _ _)).
    subst st1. rewrite (handled_bits_srcPid _ _ clientPid 0).
    by apply launch_word_cleared. }
  subst pass2. rewrite loop_body_present by done. cbv zeta.
  cbn [result_of exchange_of trace_of fst snd]. rewrite Hl2.
  split; [by rewrite H1|]. split.
  { rewrite H1. cbn [exchange_of fst snd]. apply client_write_fields. }
  split; [|split; [done | by eexists]].
  rewrite elem_of_cons, elem_of_app. intros [Hin | [Hin | Hin]]; [done | |].
  - unfold mac_kill_step in Hin. destruct (Mac.l_kill st1 =? 0); [by apply elem_of_nil in Hin|].
    apply elem_of_app in Hin as [Hin|Hin].
    + apply kill_old_processes_and_wait_signals in Hin as (pid & [= <-] & Hs).
      unfold spared in Hs. subst st1. cbn [Mac.l_srcPid] in Hs.
      rewrite Z.eqb_refl, orb_true_r in Hs. done.
    + apply list_elem_of_singleton in Hin. done.
  - by apply mac_launch_step_no_signal in Hin.
Qed.

Lemma launch_command_round_trip_witness :
  let t1 :=
    Mac.mkTick true (λ _, Mac.Processes []) None true (Mac.Forked 77)
      (client_write 4711 0x10001) false in
  let t2 :=
    Mac.mkTick true (λ _, Mac.Processes [Mac.mkProc 501 4711 1 "Sighthound Video"])
      (Some ["backend=TRUE"]) true (Mac.Forked 78) (λ ex, ex) false in
  let pass1 := run (Mac.loop_body 100 1 (-1) t1 (Mac.mkLocals 0 0 0)) Exchange_zero in
  let pass2 :=
    run (Mac.loop_body 100 1 (-1) t2 (Mac.mkLocals 0x10000 1 4711)) (exchange_of pass1) in
  Mac.t_exe_present t1 = true
  ∧ Mac.t_exe_present t2 = true
  ∧ (∀ ex, Mac.t_others t1 ex = client_write 4711 0x10001 ex)
  ∧ (∀ ex, launch (Mac.t_others t2 ex) = launch ex)
  ∧ 0 ≤ 0x10001 < 2 ^ 17
  ∧ launch (exchange_of pass1) = 0x10001
  ∧ trace_of pass2
    = [EvIncr FCycles; EvFetchAnd FLaunch (Z.lnot LAUNCH_FLAG_KILL_FIRST);
       EvSpawn true; EvSwap FStatus 1; EvFetchAnd FLaunch (Z.lnot LAUNCH_MASK)]
  ∧ launch (exchange_of pass2) = 0.
Proof.
  intros t1 t2 pass1 pass2.
  assert (Hs : 0 ≤ 0x10001 < 2 ^ 17) by lia.
  pose proof (launch_command_round_trip 100 1 (-1) 4711 0x10001 t1 t2
                (Mac.mkLocals 0 0 0) Exchange_zero eq_refl eq_refl
                (λ _, eq_refl) (λ _, eq_refl) Hs) as (_ & Hl1 & _ & Hl2 & _).
  split; [reflexivity|]. split; [reflexivity|]. split; [done|]. split; [done|].
  split; [exact Hs|]. split; [exact Hl1|]. split; [reflexivity | exact Hl2].
Defined.

(** ** Activation on the Mac *)





(** ** Waiting for the back end on the Mac *)

(** X12.  [count_handler] counts every process of the snapshot that
    carries a Sighthound name and is neither the service itself nor
    [_noKillPid]; the enumeration never stops early, and the count has
    no cap.  [wait_for_backend_exit] ends at the first round in which
    the enumeration fails, nothing is counted, or the clock has reached
    the deadline. *)
Theorem backend_wait_outcome (ownPid _noKillPid start waitSecs : Z)
    (kips : list Mac.Proc) (rounds : list (Mac.Snapshot * Z)) :
  Mac.enum_processes (MacStop.count_handler ownPid _noKillPid) 0 (Mac.Processes kips)
  = (Z.of_nat (length (List.filter (counted ownPid _noKillPid) kips)), 0)
  ∧ MacStop.wait_for_backend_exit ownPid _noKillPid start waitSecs rounds
    = match List.find (ends_backend_wait ownPid _noKillPid (start + waitSecs)) rounds with
      | None => MacStop.StillWaiting
      | Some (Mac.SysctlFails res, _) =>
          if res =? 0 then MacStop.BackendGone else MacStop.EnumerationFailed res
      | Some (Mac.Processes kips, _) =>
          let left := backends_left ownPid _noKillPid (Mac.Processes kips) in
          if left =? 0 then MacStop.BackendGone else MacStop.TimedOut left
      end.
Proof.
  split.
  - cbn [Mac.enum_processes]. by rewrite enum_count_handler.
  - unfold MacStop.wait_for_backend_exit. cbv zeta.
    generalize (start + waitSecs). intros tmout.
    induction rounds as [|[snap now] rounds IH]; [done|].
    cbn [MacStop.wait_loop List.find]. unfold ends_backend_wait at 1. cbn [fst snd].
    destruct snap as [res|kips'].
    + cbn [Mac.enum_processes]. by destruct (res =? 0).
    + cbn [Mac.enum_processes backends_left]. rewrite enum_count_handler.
      cbn [negb Z.eqb]. rewrite Z.add_0_l.
      set (left := Z.of_nat _).
      assert (Hleft : (0 >=? left) = (left =? 0)).
      { subst left. destruct (Z.eqb_spec (Z.of_nat (length
          (List.filter (counted ownPid _noKillPid) kips'))) 0); lia. }
      rewrite Hleft. destruct (left =? 0) eqn:H0; cbn [orb].
      { cbv zeta. cbn [backends_left]. fold left. by rewrite H0. }
      destruct (now >=? tmout); [|exact IH].
      cbv zeta. cbn [backends_left]. fold left. by rewrite H0.
Qed.

(** ** What a pass of the Windows loop reports *)

Lemma land_zero_l_launch x : x = 0 → Z.land LAUNCH_MASK x = 0.
Proof. intros ->. apply Z.land_0_r. Qed.

(** X13.  A pass of the Windows loop swaps into [status] the launch word
    it took at its start, whatever became of the command: 0 in an idle
    pass, the word itself also after a launch that the configuration
    denied or at which [CreateProcessW] failed.  It spawns at most
    once, exactly when the launch code is not 0 and the configuration
    read in that pass allows the back end. *)
Theorem windows_status_echoes_the_command (ownPid : Z) (t : Win.Tick) (ex : Exchange) :
  let pass := run (Win.loop_body ownPid t) ex in
  List.filter (touches FStatus) (trace_of pass) = [EvSwap FStatus (launch ex)]
  ∧ List.filter is_spawn (trace_of pass)
    = (if negb (Z.land LAUNCH_MASK (launch ex) =? 0)
          && Win.backend (Win.config_read (Win.t_ini t)).1
       then [EvSpawn (Win.t_create t =? Win.ERROR_SUCCESS)]
       else [])
  ∧ status (win_pass_exchange ex) = launch ex
  ∧ exchange_of pass = Win.t_others t (win_pass_exchange ex).
Proof.
  intros pass. subst pass. rewrite win_loop_body_run.
  cbn [trace_of exchange_of fst snd].
  assert (Hkill : ∀ f, (∀ pid, f (EvSignal pid) = false) →
            List.filter f (Win.kill_processes ownPid Win.KILL_CANDIDATES
              (launchProcessId ex) (Win.t_procs t)).1 = []).
  { intros f Hf. apply filter_none.
    eapply Forall_impl; [apply kill_processes_signals|].
    intros e (pid & -> & _). apply Hf. }
  split; [|split; [|split; [by destruct ex | done]]].
  - change (List.filter (touches FStatus) (EvSwap FLaunch 0 :: EvIncr FCycles :: ?l))
      with (List.filter (touches FStatus) l).
    rewrite List.filter_app.
    rewrite (filter_none (touches FStatus) (win_steps _ _ _)); [done|].
    unfold win_steps, Win.launch_backend.
    destruct (launch ex =? 0); [constructor|].
    apply Forall_app. split.
    + destruct (_ =? 0); [constructor|].
      eapply Forall_impl; [apply kill_processes_signals|]. by intros e (pid & -> & _).
    + destruct (_ =? 0); [constructor|]. destruct (Win.backend _); by repeat constructor.
  - change (List.filter is_spawn (EvSwap FLaunch 0 :: EvIncr FCycles :: ?l))
      with (List.filter is_spawn l).
    rewrite List.filter_app. cbn [List.filter is_spawn app]. rewrite app_nil_r.
    unfold win_steps, Win.launch_backend.
    destruct (Z.eqb_spec (launch ex) 0) as [H0|Hne].
    { by rewrite (land_zero_l_launch _ H0). }
    rewrite List.filter_app.
    destruct (Z.land LAUNCH_FLAG_KILL_FIRST (launch ex) =? 0);
      [|rewrite Hkill by done]; cbn [List.filter app];
      destruct (Z.land LAUNCH_MASK (launch ex) =? 0); cbn [negb andb]; try done;
      by destruct (Win.backend _).
Qed.

(** ** Whom the Windows kill pass terminates *)

Section WinKillNames.
Context (ownPid : Z).

Lemma kill_candidates_names p exe cands : ∀ kctx handle,
  (Win.kill_candidates p exe cands kctx handle).2 ≠ [] →
  ∃ c, c ∈ cands ∧ tcsicmp_eq c exe = true.
Proof.
  induction cands as [|c cands IH]; intros kctx handle; cbn [Win.kill_candidates].
  - done.
  - destruct (tcsicmp_eq c exe) eqn:Hc; cbn [negb].
    + intros _. exists c. split; [left | done].
    + intros H. apply IH in H as (c' & Hin & Hc'). exists c'. split; [by right | done].
Qed.

Lemma enumerate_kill_names procs : ∀ kctx result,
  Forall (λ e, ∃ p exe c, p ∈ procs ∧ Win.w_inspect p = Win.Named exe
                ∧ c ∈ Win.candidates kctx ∧ tcsicmp_eq c exe = true
                ∧ e = EvSignal (Win.w_pid p) ∧ Win.w_pid p ≠ 0)
    (Win.enumerate_loop (Win.kill_handler ownPid) kctx procs result).2.
Proof.
  induction procs as [|p procs IH]; intros kctx result; cbn [Win.enumerate_loop].
  - constructor.
  - assert (Hmono : ∀ k r,
      Forall (λ e, ∃ p0 exe c, p0 ∈ procs ∧ Win.w_inspect p0 = Win.Named exe
                ∧ c ∈ Win.candidates k ∧ tcsicmp_eq c exe = true
                ∧ e = EvSignal (Win.w_pid p0) ∧ Win.w_pid p0 ≠ 0)
        (Win.enumerate_loop (Win.kill_handler ownPid) k procs r).2 →
      Win.candidates k = Win.candidates kctx →
      Forall (λ e, ∃ p0 exe c, p0 ∈ p :: procs ∧ Win.w_inspect p0 = Win.Named exe
                ∧ c ∈ Win.candidates kctx ∧ tcsicmp_eq c exe = true
                ∧ e = EvSignal (Win.w_pid p0) ∧ Win.w_pid p0 ≠ 0)
        (Win.enumerate_loop (Win.kill_handler ownPid) k procs r).2).
    { intros k r H Hc. eapply Forall_impl; [exact H|].
      intros e (p0 & exe & c & Hin & Hn & Hcin & Hm & He & H0).
      exists p0, exe, c. rewrite <- Hc. repeat split; try done. by right. }
    destruct (Z.eqb_spec (Win.w_pid p) 0) as [|Hpid]; [by apply Hmono|].
    destruct (Win.w_inspect p) as [| |exe] eqn:Hinsp; [by apply Hmono| |].
    + destruct (Win.w_close_ok p); [by apply Hmono | constructor].
    + assert (Hh : Win.candidates (Win.kill_handler ownPid kctx p exe).1.1.1
                   = Win.candidates kctx
                 ∧ Forall (λ e, ∃ p0 exe c, p0 ∈ p :: procs
                     ∧ Win.w_inspect p0 = Win.Named exe
                     ∧ c ∈ Win.candidates kctx ∧ tcsicmp_eq c exe = true
                     ∧ e = EvSignal (Win.w_pid p0) ∧ Win.w_pid p0 ≠ 0)
                   (Win.kill_handler ownPid kctx p exe).2).
      { unfold Win.kill_handler.
        destruct (_ || _); [split; [done | constructor]|].
        pose proof (kill_candidates_spec p exe (Win.candidates kctx) kctx true) as Hs.
        pose proof (kill_candidates_names p exe (Win.candidates kctx) kctx true) as Hn.
        destruct (Win.kill_candidates _ _ _ _ _) as [[k h] t]. cbn in *.
        destruct Hs as (_ & Hc & Ht). split; [done|].
        destruct t as [|e t]; [constructor|].
        destruct Hn as (c & Hcin & Hm); [done|].
        eapply Forall_impl; [exact Ht|]. intros e' ->.
        exists p, exe, c. repeat split; try done. by left. }
      destruct (Win.kill_handler ownPid kctx p exe) as [[[kctx' continue] handle] t].
      cbn [fst snd] in Hh. destruct Hh as [Hc Ht].
      destruct (handle && negb (Win.w_close_ok p)); [done|].
      destruct continue; [|done].
      specialize (Hmono kctx' (result + 1) (IH kctx' (result + 1)) Hc).
      destruct (Win.enumerate_loop _ _ _ _) as [[k r] t'].
      cbn [fst snd] in *. by apply Forall_app.
Qed.
End WinKillNames.

(** X14.  [kill_processes] on Windows terminates, or tries to terminate,
    only processes of the table with a PID other than 0, the service's
    own and [noKillPid], whose executable name equals one of the
    candidates without regard to case; when [EnumProcesses] fails it
    does nothing and counts no error. *)
Theorem windows_kill_pass_terminates_only_candidates (ownPid : Z)
    (cands : list string) (noKillPid : Z) (procs : list Win.Proc) (err : Z) :
  Forall (λ e, ∃ p exe c,
            p ∈ procs ∧ Win.w_inspect p = Win.Named exe
            ∧ c ∈ cands ∧ tcsicmp_eq c exe = true
            ∧ e = EvSignal (Win.w_pid p)
            ∧ Win.w_pid p ≠ 0 ∧ Win.w_pid p ≠ ownPid ∧ Win.w_pid p ≠ noKillPid)
    (Win.kill_processes ownPid cands noKillPid (Win.Processes procs)).1
  ∧ Win.kill_processes ownPid cands noKillPid (Win.EnumFails err) = ([], 0).
Proof.
  split; [|reflexivity].
  pose proof (kill_processes_signals ownPid cands noKillPid (Win.Processes procs)) as H1.
  unfold Win.kill_processes, Win.enumerate_processes in *.
  pose proof (enumerate_kill_names ownPid procs (Win.mkKill 0 0 noKillPid cands [])
                Win.ERROR_SUCCESS) as H2.
  destruct (Win.enumerate_loop _ _ _ _) as [[k r] t]. cbn [fst snd Win.candidates] in *.
  rewrite Forall_forall in H1, H2. apply Forall_forall. intros e He.
  destruct (H1 e He) as (pid & -> & Hown & Hnk).
  destruct (H2 _ He) as (p & exe & c & Hin & Hn & Hc & Hm & [= Hpid] & H0).
  exists p, exe, c. rewrite <- Hpid. repeat split; try done; by rewrite Hpid.
Qed.

(** ** What the Windows enumeration returns *)

Lemma enumerate_loop_count {C} (handler : Win.Handler C) procs : ∀ ctx result,
  (∀ ctx p exe, (handler ctx p exe).1.1.2 = true) →
  Forall (λ p, Win.w_close_ok p = true) procs →
  (Win.enumerate_loop handler ctx procs result).1.2
  = result + Z.of_nat (length (List.filter win_handled procs)).
Proof.
  intros ctx result Hcont Hclose. revert ctx result.
  induction Hclose as [|p procs Hp _ IH]; intros ctx result;
    cbn [Win.enumerate_loop List.filter].
  - cbn. lia.
  - unfold win_handled at 1.
    destruct (Win.w_pid p =? 0); cbn [negb andb]; [apply IH|].
    destruct (Win.w_inspect p) as [| |exe]; [apply IH| |].
    + rewrite Hp. apply IH.
    + specialize (Hcont ctx p exe).
      destruct (handler ctx p exe) as [[[ctx' continue] handle] t].
      cbn [fst snd] in Hcont. subst continue.
      rewrite Hp, andb_false_r.
      specialize (IH ctx' (result + 1)).
      destruct (Win.enumerate_loop handler ctx' procs (result + 1)) as [[c r] t'].
      cbn [fst snd length] in *. lia.
Qed.

(** X15.  The result of [enumerate_processes] on Windows is a count:
    when every handle is closed without error and the handler always
    returns TRUE, the value returned is the number of processes that
    reached the handler, not [ERROR_SUCCESS]. *)
Theorem windows_enumeration_returns_a_count {C : Type} (handler : Win.Handler C)
    (ctx : C) (procs : list Win.Proc)
    (Hcontinue : ∀ ctx p exe, (handler ctx p exe).1.1.2 = true)
    (Hclose : Forall (λ p, Win.w_close_ok p = true) procs) :
  (Win.enumerate_processes handler ctx (Win.Processes procs)).1.2
  = Z.of_nat (length (List.filter win_handled procs)).
Proof.
  cbn [Win.enumerate_processes].
  rewrite enumerate_loop_count by done. unfold Win.ERROR_SUCCESS. lia.
Qed.

Lemma windows_enumeration_returns_a_count_witness :
  let procs :=
    [Win.mkProc 0 Win.CannotOpen true true;
     Win.mkProc 4 Win.CannotOpen true true;
     Win.mkProc 812 (Win.Named "explorer.exe") true true;
     Win.mkProc 900 (Win.Named "Sighthound Agent.exe") true true] in
  (∀ ctx p exe, (Win.backend_detect_handler ctx p exe).1.1.2 = true)
  ∧ Forall (λ p, Win.w_close_ok p = true) procs
  ∧ (Win.enumerate_processes Win.backend_detect_handler 0 (Win.Processes procs)).1.2 = 2
  ∧ Win.ERROR_SUCCESS = 0.
Proof.
  intros procs.
  assert (Hc : ∀ ctx p exe, (Win.backend_detect_handler ctx p exe).1.1.2 = true) by done.
  assert (Hp : Forall (λ p, Win.w_close_ok p = true) procs) by (repeat constructor).
  split; [exact Hc|]. split; [exact Hp|]. split; [|reflexivity].
  exact (windows_enumeration_returns_a_count Win.backend_detect_handler 0 procs Hc Hp).
Defined.

(** ** The commands of the Windows program *)

Section WinCommands.
Context (ownPid : Z) (o : Win.CommandOracle).

Lemma commands_failed args exitcode :
  exitcode ≠ 0 → Win.commands ownPid o args exitcode = ([], exitcode).
Proof.
  intros H. apply Z.eqb_neq in H. destruct args; cbn [Win.commands]; [done|].
  by rewrite H.
Qed.

Lemma commands_app args1 : ∀ args2 exitcode,
  Win.commands ownPid o (args1 ++ args2) exitcode
  = (let '(t1, r1) := Win.commands ownPid o args1 exitcode in
     if r1 =? 0 then
       let '(t2, r2) := Win.commands ownPid o args2 0 in (t1 ++ t2, r2)
     else (t1, r1)).
Proof.
  induction args1 as [|cmd args1 IH]; intros args2 exitcode.
  - cbn [app Win.commands].
    destruct (Z.eqb_spec exitcode 0) as [->|Hne].
    + by destruct (Win.commands ownPid o args2 0).
    + by apply commands_failed.
  - cbn [app Win.commands].
    destruct (Z.eqb_spec exitcode 0) as [->|Hne]; cbn [negb].
    2:{ apply Z.eqb_neq in Hne. by rewrite Hne. }
    destruct (has_prefix Win.ARG_PREFIX cmd); [apply IH|].
    match goal with |- context [match ?s with Some _ => _ | None => _ end] =>
      destruct s as [[t e']|] end.
    + rewrite IH. destruct (Win.commands ownPid o args1 e') as [t1 r1].
      destruct (r1 =? 0); [|done].
      destruct (Win.commands ownPid o args2 0) as [t2 r2]. by rewrite app_assoc.
    + done.
Qed.

Lemma commands_skip_options args : ∀ exitcode,
  Win.commands ownPid o args exitcode
  = Win.commands ownPid o (List.filter (λ arg, negb (is_option arg)) args) exitcode.
Proof.
  induction args as [|arg args IH]; intros exitcode; [done|].
  destruct (Z.eqb_spec exitcode 0) as [->|Hne].
  2:{ by rewrite !commands_failed. }
  cbn [List.filter]. unfold is_option at 1.
  destruct (has_prefix Win.ARG_PREFIX arg) eqn:Harg; cbn [negb].
  - cbn [Win.commands]. rewrite Harg. cbn. apply IH.
  - cbn [Win.commands]. rewrite Harg. cbn [negb Z.eqb].
    match goal with |- context [match ?s with Some _ => _ | None => _ end] =>
      destruct s as [[t e']|] end; [|done].
    by rewrite IH.
Qed.
End WinCommands.

(** X16.  The loop of [_tmain] runs the commands from left to right
    until one fails: a command line in two parts ends like its first
    part when that part fails, and otherwise does what both parts do
    and ends with the exit code of the second.  Arguments that start
    with [--] are skipped: dropping them changes nothing, and a command
    line made of them does nothing and ends with 0. *)
Theorem windows_commands_run_until_one_fails (ownPid : Z) (o : Win.CommandOracle)
    (args1 args2 : list string) :
  let first := Win.commands ownPid o args1 Win.EXITCODE_SUCCESS in
  let second := Win.commands ownPid o args2 Win.EXITCODE_SUCCESS in
  Win.commands ownPid o (args1 ++ args2) Win.EXITCODE_SUCCESS
  = (if first.2 =? 0 then (first.1 ++ second.1, second.2) else first)
  ∧ first
    = Win.commands ownPid o (List.filter (λ arg, negb (is_option arg)) args1)
        Win.EXITCODE_SUCCESS
  ∧ Win.commands ownPid o (List.filter is_option args1) Win.EXITCODE_SUCCESS
    = ([], Win.EXITCODE_SUCCESS).
Proof.
  intros first second. subst first second. split; [|split].
  - rewrite commands_app. unfold Win.EXITCODE_SUCCESS.
    destruct (Win.commands ownPid o args1 0) as [t1 r1]. cbn [fst snd].
    destruct (r1 =? 0); [|done]. by destruct (Win.commands ownPid o args2 0).
  - apply commands_skip_options.
  - rewrite commands_skip_options.
    replace (List.filter _ (List.filter is_option args1)) with (@nil string); [done|].
    induction args1 as [|a l IH]; cbn [List.filter]; [done|].
    destruct (is_option a) eqn:Ha; cbn [List.filter]; [by rewrite Ha|done].
Qed.

(** ** The initial launch of the Windows service *)

Section WinAutostart.
Context (ownPid : Z).

Lemma win_loop_body_no_store t ex :
  Forall (λ e, is_launch_store e = false) (trace_of (run (Win.loop_body ownPid t) ex)).
Proof.
  rewrite win_loop_body_run. cbn [trace_of snd].
  do 2 (constructor; [done|]). apply Forall_app. split; [|by repeat constructor].
  unfold win_steps, Win.launch_backend.
  destruct (launch ex =? 0); [constructor|].
  apply Forall_app. split.
  - destruct (_ =? 0); [constructor|].
    eapply Forall_impl; [apply kill_processes_signals|]. by intros e (pid & -> & _).
  - destruct (_ =? 0); [constructor|]. destruct (Win.backend _); by repeat constructor.
Qed.

Lemma svc_loop_no_store ticks : ∀ ex,
  Forall (λ e, is_launch_store e = false) (trace_of (run (Win.svc_loop ownPid ticks) ex)).
Proof.
  induction ticks as [|t ticks IH]; intros ex; [constructor|].
  rewrite svc_loop_cons.
  pose proof (win_loop_body_no_store t ex) as Hb.
  destruct (run (Win.loop_body ownPid t) ex) as [[continue ex1] t1].
  destruct continue; [|exact Hb].
  specialize (IH ex1).
  destruct (run (Win.svc_loop ownPid ticks) ex1) as [[r ex2] t2].
  apply Forall_app. by split.
Qed.
End WinAutostart.

(** The configuration that decides the initial launch: what
    [config_read] gave, with [autoStart] cleared by the argument. *)
Lemma svc_mapped_launch_store (ownPid MAX_PATH : Z) (argv : list string)
    (o : Win.ServiceOracle) (ex : Exchange) :
  let config := (Win.config_read (Win.o_ini o)).1 in
  let config :=
    if (length argv =? 2)%nat && strcmp_eq Win.ARG_NO_AUTOSTART (nth 1 argv "")
    then Win.mkConfig false (Win.backend config) else config in
  List.filter is_launch_store (trace_of (run (Win.svc_mapped ownPid MAX_PATH argv o) ex))
  = (if win_service_starts o
     then [EvStore FLaunch (if Win.autoStart config then 0xffff else 0)]
     else []).
Proof.
  cbv zeta. unfold Win.svc_mapped, win_service_starts.
  destruct (Win.o_register_ok o); cbn [negb andb]; [|done].
  destruct (Win.o_dataDir o) as [dataDir|]; [|done].
  destruct (Win.o_acl_ok o); cbn [negb andb]; [|done].
  destruct (Win.o_event_ok o); cbn [negb andb].
  2:{ reflexivity. }
  generalize (Win.autoStart
    (if (length argv =? 2)%nat && strcmp_eq Win.ARG_NO_AUTOSTART (nth 1 argv "")
     then Win.mkConfig false (Win.backend (Win.config_read (Win.o_ini o)).1)
     else (Win.config_read (Win.o_ini o)).1)).
  intros a.
  eff_unfold. cbn [fst snd].
  match goal with |- context [Win.svc_loop ownPid ?ts ?e] =>
    pose proof (svc_loop_no_store ownPid ts e) as Hl;
    unfold run in Hl;
    destruct (Win.svc_loop ownPid ts e) as [[r ex1] t1]
  end.
  cbn [trace_of snd] in Hl. apply filter_none in Hl.
  destruct r as [[]|]; cbn [fst snd].
  - pose proof (svc_stop_run (Win.o_stop_procs o) (Win.o_stop_waiting o) ex1) as Hs.
    unfold run in Hs. rewrite Hs. clear Hs.
    destruct (_ =? 0); cbn [trace_of fst snd app List.filter is_launch_store];
      rewrite !List.filter_app, Hl; done.
  - cbn [trace_of fst snd app List.filter is_launch_store].
    rewrite !List.filter_app, Hl. done.
Qed.

(** X17.  The initial launch of the Windows service: [svc_main] stores
    to [launch] at most once, when it has got as far as its loop; it
    stores 0xffff when the configuration has [autostart] set to TRUE
    (in any casing) and the service was not started with the single
    argument [--no-autostart], and 0 otherwise.  Neither the loop nor
    the shutdown stores to [launch]. *)
Theorem windows_initial_launch (ownPid MAX_PATH : Z) (argv : list string)
    (o : Win.ServiceOracle) (ex : Exchange) :
  let autostart :=
    tcsicmp_eq "TRUE" (Win.GetPrivateProfileString (Win.ini_autostart (Win.o_ini o)) "FALSE")
    && negb ((length argv =? 2)%nat && strcmp_eq "--no-autostart" (nth 1 argv "")) in
  List.filter is_launch_store (trace_of (run (Win.svc_mapped ownPid MAX_PATH argv o) ex))
  = (if win_service_starts o
     then [EvStore FLaunch (if autostart then 0xffff else 0)]
     else []).
Proof.
  intros autostart. subst autostart.
  rewrite svc_mapped_launch_store.
  destruct (win_service_starts o); [|done].
  change Win.ARG_NO_AUTOSTART with "--no-autostart".
  destruct ((length argv =? 2)%nat && strcmp_eq "--no-autostart" (nth 1 argv ""));
    cbn [negb Win.autoStart].
  - by rewrite andb_false_r.
  - unfold Win.config_read. cbn [fst Win.autoStart]. by rewrite andb_true_r.
Qed.

(** ** Starting the Windows service by command *)

(** X18.  [service_start] returns the exit code of [service_open],
    whatever [StartService] answers: a service that could be opened but
    not started is reported as a success.  [StartService] is handed the
    arguments [shlaunch] and [--no-autostart], and a service that runs
    with these stores 0 as its initial launch word, whatever the
    configuration says. *)
Theorem service_start_reports_the_open (ownPid MAX_PATH : Z) (open : Z)
    (start : option Z) (o : Win.ServiceOracle) (ex : Exchange) :
  (WinInstall.service_start open start).2 = open
  ∧ (WinInstall.service_start open start).1
    = (if open =? Win.EXITCODE_SUCCESS then Some WinInstall.service_start_args else None)
  ∧ List.filter is_launch_store
      (trace_of (run (Win.svc_mapped ownPid MAX_PATH WinInstall.service_start_args o) ex))
    = (if win_service_starts o then [EvStore FLaunch 0] else []).
Proof.
  split; [|split].
  - unfold WinInstall.service_start. cbv zeta.
    destruct (Z.eqb_spec open Win.EXITCODE_SUCCESS) as [->|Hne]; [|done].
    destruct start as [err|]; [|done]. cbn [snd]. by destruct (err =? _).
  - unfold WinInstall.service_start. cbv zeta. by destruct (open =? _).
  - rewrite svc_mapped_launch_store.
    destruct (win_service_starts o); [|done].
    change ((length WinInstall.service_start_args =? 2)%nat
            && strcmp_eq Win.ARG_NO_AUTOSTART (nth 1 WinInstall.service_start_args ""))
      with true.
    reflexivity.
Qed.

(** ** Recognising a data directory on Windows *)

Section WinDataDir.
Context (MAX_PATH : Z).

Lemma length_append (s1 s2 : string) :
  String.length (s1 +:+ s2) = (String.length s1 + String.length s2)%nat.
Proof.
  induction s1 as [|c s1 IH]; [done|].
  simpl. by rewrite IH.
Qed.

Lemma append_assoc (s1 s2 s3 : string) : (s1 +:+ s2) +:+ s3 = s1 +:+ s2 +:+ s3.
Proof.
  induction s1 as [|c s1 IH]; [done|].
  change (String c ((s1 +:+ s2) +:+ s3) = String c (s1 +:+ s2 +:+ s3)).
  by rewrite IH.
Qed.

Lemma find_map_S (f : nat → bool) (l : list nat) :
  List.find f (map S l) = S <$> List.find (λ n, f (S n)) l.
Proof.
  induction l as [|n l IH]; [done|]. cbn [map List.find].
  destruct (f (S n)); [done | exact IH].
Qed.

Lemma svObjectPath_fits path :
  Z.of_nat (String.length path) + 5 < MAX_PATH →
  (svObjectPath ← WinInstall.tcscpy_s MAX_PATH path;
   svObjectPath ← WinInstall.tcscat_s MAX_PATH svObjectPath WinInstall.BACKSLASH;
   WinInstall.tcscat_s MAX_PATH svObjectPath (hd "" WinInstall.svObjects))
  = Some (logs_of path).
Proof.
  intros H. unfold WinInstall.tcscpy_s, WinInstall.tcscat_s.
  destruct (Z.ltb_spec (Z.of_nat (String.length path)) MAX_PATH); [|lia]. cbn [mbind option_bind].
  change (String.length WinInstall.BACKSLASH) with 1%nat.
  destruct (Z.ltb_spec (Z.of_nat (String.length path + 1)) MAX_PATH); [|lia].
  cbn [mbind option_bind]. rewrite length_append.
  change (String.length WinInstall.BACKSLASH) with 1%nat.
  change (String.length (hd "" WinInstall.svObjects)) with 4%nat.
  destruct (Z.ltb_spec (Z.of_nat (String.length path + 1 + 4)) MAX_PATH); [|lia].
  unfold logs_of. cbn [hd WinInstall.svObjects].
  f_equal. apply append_assoc.
Qed.

Lemma svObjectPath_overflow path :
  MAX_PATH ≤ Z.of_nat (String.length path) + 5 →
  (svObjectPath ← WinInstall.tcscpy_s MAX_PATH path;
   svObjectPath ← WinInstall.tcscat_s MAX_PATH svObjectPath WinInstall.BACKSLASH;
   WinInstall.tcscat_s MAX_PATH svObjectPath (hd "" WinInstall.svObjects))
  = None.
Proof.
  intros H. unfold WinInstall.tcscpy_s, WinInstall.tcscat_s.
  destruct (Z.ltb_spec (Z.of_nat (String.length path)) MAX_PATH); [|done].
  cbn [mbind option_bind].
  change (String.length WinInstall.BACKSLASH) with 1%nat.
  destruct (Z.ltb_spec (Z.of_nat (String.length path + 1)) MAX_PATH); [|done].
  cbn [mbind option_bind]. rewrite length_append.
  change (String.length WinInstall.BACKSLASH) with 1%nat.
  change (String.length (hd "" WinInstall.svObjects)) with 4%nat.
  destruct (Z.ltb_spec (Z.of_nat (String.length path + 1 + 4)) MAX_PATH); [lia|done].
Qed.

Lemma is_data_dir_from_spec path svObject : ∀ fs,
  Z.of_nat (String.length path) + 5 < MAX_PATH →
  WinInstall.is_data_dir_from MAX_PATH fs path svObject
  = match List.find (λ n, fs n (logs_of path)) (seq 0 (length svObject)) with
    | Some n => Some (true, replicate (S n) (logs_of path))
    | None => Some (false, replicate (length svObject) (logs_of path))
    end.
Proof.
  intros fs Hfit. revert fs.
  induction svObject as [|o svObject IH]; intros fs; [done|].
  cbn [WinInstall.is_data_dir_from length seq List.find].
  pose proof (svObjectPath_fits path Hfit) as Hp.
  unfold mbind, option_bind in Hp |- *.
  destruct (WinInstall.tcscpy_s MAX_PATH path) as [p1|]; [|done].
  destruct (WinInstall.tcscat_s MAX_PATH p1 WinInstall.BACKSLASH) as [p2|]; [|done].
  rewrite Hp. destruct (fs O (logs_of path)); [done|].
  rewrite IH. rewrite <- seq_shift, find_map_S.
  destruct (List.find _ (seq 0 (length svObject))) as [n|]; done.
Qed.
End WinDataDir.

Lemma is_data_dir_spec (MAX_PATH : Z) (fs : nat → string → bool) (path : string) :
  WinInstall.is_data_dir MAX_PATH fs path
  = (if Z.of_nat (String.length path) + 5 <? MAX_PATH then
       match List.find (λ n, fs n (logs_of path)) (seq 0 3) with
       | Some n => Some (true, replicate (S n) (logs_of path))
       | None => Some (false, replicate 3 (logs_of path))
       end
     else None).
Proof.
  unfold WinInstall.is_data_dir.
  destruct (Z.ltb_spec (Z.of_nat (String.length path) + 5) MAX_PATH) as [Hfit|Hover].
  - by rewrite is_data_dir_from_spec.
  - cbn [WinInstall.svObjects WinInstall.is_data_dir_from].
    pose proof (svObjectPath_overflow MAX_PATH path Hover) as Hp.
    unfold mbind, option_bind in Hp |- *.
    destruct (WinInstall.tcscpy_s MAX_PATH path) as [p1|]; [|done].
    destruct (WinInstall.tcscat_s MAX_PATH p1 WinInstall.BACKSLASH) as [p2|]; [|done].
    by rewrite Hp.
Qed.

(** X19.  [is_data_dir] looks for [logs] only: the name appended in its
    loop is [*svObjects], the first element, so each of its one to
    three lookups is for the [logs] entry of the directory, and the
    result is whether one of them found it.  On a file system that does
    not change meanwhile a directory is recognised exactly when it
    holds [logs], whether or not it holds [license.lic] or [videos].
    A path of [MAX_PATH - 5] characters or more does not fit the
    buffer. *)
Theorem is_data_dir_looks_for_logs_only (MAX_PATH : Z) (fs : nat → string → bool)
    (present : string → bool) (path : string) :
  match WinInstall.is_data_dir MAX_PATH fs path with
  | None => MAX_PATH ≤ Z.of_nat (String.length path) + 5
  | Some (found, looked) =>
      Forall (λ p, p = logs_of path) looked
      ∧ (1 ≤ length looked ≤ 3)%nat
      ∧ found = existsb (λ n, fs n (logs_of path)) (seq 0 3)
  end
  ∧ WinInstall.is_data_dir MAX_PATH (λ _, present) path
    = (if Z.of_nat (String.length path) + 5 <? MAX_PATH
       then Some (present (logs_of path),
                  replicate (if present (logs_of path) then 1 else 3) (logs_of path))
       else None).
Proof.
  rewrite !is_data_dir_spec.
  destruct (Z.ltb_spec (Z.of_nat (String.length path) + 5) MAX_PATH) as [Hfit|Hover];
    [|done].
  split.
  - cbn [seq List.find existsb].
    destruct (fs 0%nat (logs_of path)); [by repeat constructor|].
    destruct (fs 1%nat (logs_of path)); [by repeat constructor|].
    destruct (fs 2%nat (logs_of path)); by repeat constructor.
  - cbn [seq List.find]. by destruct (present (logs_of path)).
Qed.

(** ** What the Windows loop does to the outside *)

Section WinLoopEvents.
Context (ownPid : Z).

Lemma win_loop_body_events t ex :
  Forall (λ e, win_loop_event e = true) (trace_of (run (Win.loop_body ownPid t) ex)).
Proof.
  rewrite win_loop_body_run. cbn [trace_of snd].
  do 2 (constructor; [done|]). apply Forall_app. split; [|by repeat constructor].
  unfold win_steps, Win.launch_backend.
  destruct (launch ex =? 0); [constructor|].
  apply Forall_app. split.
  - destruct (_ =? 0); [constructor|].
    eapply Forall_impl; [apply kill_processes_signals|]. by intros e (pid & -> & _).
  - destruct (_ =? 0); [constructor|]. destruct (Win.backend _); by repeat constructor.
Qed.

Lemma svc_loop_events ticks : ∀ ex,
  Forall (λ e, win_loop_event e = true) (trace_of (run (Win.svc_loop ownPid ticks) ex)).
Proof.
  induction ticks as [|t ticks IH]; intros ex; [constructor|].
  rewrite svc_loop_cons.
  pose proof (win_loop_body_events t ex) as Hb.
  destruct (run (Win.loop_body ownPid t) ex) as [[continue ex1] t1].
  destruct continue; [|exact Hb].
  specialize (IH ex1).
  destruct (run (Win.svc_loop ownPid ticks) ex1) as [[r ex2] t2].
  apply Forall_app. by split.
Qed.
End WinLoopEvents.

(** X21.  Whatever the ticks, the Windows loop does nothing to the
    outside but swap [launch] to 0, count the heartbeat, terminate
    processes, spawn the back end and swap [status].  So it never
    writes [size], [processId], [launchProcessId] or [shutdown], never
    stores to [launch] and never calls [update_status]. *)
Theorem windows_loop_alphabet (ownPid : Z) (ticks : list Win.Tick) (ex : Exchange) :
  let trace := trace_of (run (Win.svc_loop ownPid ticks) ex) in
  Forall (λ e, win_loop_event e = true) trace
  ∧ Forall (λ e, touches FSize e = false ∧ touches FProcessId e = false
               ∧ touches FLaunchProcessId e = false ∧ touches FShutdown e = false
               ∧ is_launch_store e = false ∧ is_report e = false)
      trace.
Proof.
  intros trace. pose proof (svc_loop_events ownPid ticks ex) as H.
  fold trace in H. split; [exact H|].
  eapply Forall_impl; [exact H|]. intros e He.
  destruct e as [| | | | | | | | | |f v|f|f v|f m]; try destruct f; try discriminate He;
    cbn in *; repeat split; done.
Qed.

(** ** The status reports of the Windows service *)

Lemma svc_mapped_reports (ownPid MAX_PATH : Z) (argv : list string)
    (o : Win.ServiceOracle) (ex : Exchange) :
  let r := run (Win.svc_mapped ownPid MAX_PATH argv o) ex in
  List.filter is_report (trace_of r)
  = (if Win.o_register_ok o then [EvService "SERVICE_START_PENDING"] else [])
    ++ (if win_service_starts o then [EvService "SERVICE_RUNNING"] else []).
Proof.
  cbv zeta. unfold Win.svc_mapped, win_service_starts.
  destruct (Win.o_register_ok o); cbn [negb andb]; [|done].
  destruct (Win.o_dataDir o) as [dataDir|]; [|done].
  destruct (Win.o_acl_ok o); cbn [negb andb]; [|done].
  destruct (Win.o_event_ok o); cbn [negb andb].
  2:{ reflexivity. }
  generalize (Win.autoStart
    (if (length argv =? 2)%nat && strcmp_eq Win.ARG_NO_AUTOSTART (nth 1 argv "")
     then Win.mkConfig false (Win.backend (Win.config_read (Win.o_ini o)).1)
     else (Win.config_read (Win.o_ini o)).1)).
  intros a.
  eff_unfold. cbn [fst snd].
  match goal with |- context [Win.svc_loop ownPid ?ts ?e] =>
    pose proof (svc_loop_events ownPid ts e) as Hl;
    unfold run in Hl;
    destruct (Win.svc_loop ownPid ts e) as [[r ex1] t1]
  end.
  cbn [trace_of snd] in Hl.
  assert (Hr : List.filter is_report t1 = []).
  { apply filter_none. eapply Forall_impl; [exact Hl|].
    intros e He. by destruct e. }
  destruct r as [[]|]; cbn [fst snd].
  - pose proof (svc_stop_run (Win.o_stop_procs o) (Win.o_stop_waiting o) ex1) as Hs.
    unfold run in Hs. rewrite Hs. clear Hs.
    destruct (_ =? 0); cbn [trace_of fst snd app List.filter is_report];
      rewrite !List.filter_app, Hr; done.
  - cbn [trace_of fst snd app List.filter is_report].
    rewrite !List.filter_app, Hr. done.
Qed.

(** X22.  The calls of [update_status] that [svc_main] makes are, in
    this order: [SERVICE_START_PENDING] if the control handler was
    registered, [SERVICE_RUNNING] if it got as far as its loop, and
    [SERVICE_STOPPED] whenever it returns, on every way to [cleanup];
    that call is then the last thing it does to the outside. *)
Theorem windows_service_reports (ownPid MAX_PATH sizeof_pointer : Z)
    (argv : list string) (o : Win.ServiceOracle) :
  let r := Win.svc_main ownPid MAX_PATH sizeof_pointer argv o in
  List.filter is_report r.2
  = (if win_service_maps o && Win.o_register_ok o
     then [EvService "SERVICE_START_PENDING"] else [])
    ++ (if win_service_maps o && win_service_starts o
        then [EvService "SERVICE_RUNNING"] else [])
    ++ (if r.1 then [EvService "SERVICE_STOPPED"] else [])
  ∧ (if r.1 then last r.2 else Some (EvService "SERVICE_STOPPED"))
    = Some (EvService "SERVICE_STOPPED").
Proof.
  intros r. subst r. unfold Win.svc_main, win_service_maps, Win.cleanup.
  destruct (Win.o_calloc_ok o); cbn [negb andb]; [|done].
  destruct (Win.o_descriptor_ok o); cbn [negb andb]; [|done].
  destruct (Win.o_mapping_ok o); cbn [negb andb]; [|done].
  destruct (Win.o_view_ok o); cbn [negb andb]; [|done].
  pose proof (svc_mapped_reports ownPid MAX_PATH argv o Exchange_zero) as Hm.
  cbv zeta in Hm.
  destruct (run (Win.svc_mapped ownPid MAX_PATH argv o) Exchange_zero) as [[r ex1] t].
  cbn [trace_of fst snd] in Hm.
  destruct r as [[]|]; cbn [fst snd].
  - split.
    + cbn [List.filter is_report]. rewrite List.filter_app, Hm.
      cbn [app List.filter is_report]. by rewrite <- app_assoc.
    + rewrite app_comm_cons, app_assoc. apply last_snoc.
  - split; [|done].
    cbn [List.filter is_report]. rewrite Hm. by rewrite app_nil_r.
Qed.

(** ** The deadline of the client *)

(** X20.  The outcome of [launch_open] once its handle is allocated:
    NULL when the region cannot be opened or mapped; otherwise the
    first poll decides at which the service is ready (the expected
    [size], or a heartbeat that has moved) or the clock is past the
    deadline of 10 seconds: a handle when the service is ready at that
    poll, be it past the deadline, and NULL when it is not. *)
Theorem launch_open_outcome (expected : Z) (a : Client.Attach)
    (polls : list Client.Poll)
    (Hcalloc : Client.calloc_ok a = true) :
  Client.launch_open expected a polls
  = (if Client.mapping_ok a && Client.view_ok a then
       match List.find (ends_wait expected a) polls with
       | None => Client.Polling
       | Some p => if unready expected a p then Client.Null else Client.Handle
       end
     else Client.Null).
Proof.
  unfold Client.launch_open. rewrite Hcalloc.
  destruct (Client.mapping_ok a), (Client.view_ok a);
    cbn [negb andb]; try reflexivity.
  induction polls as [|p polls IH]; cbn [Client.wait_ready List.find]; [done|].
  unfold ends_wait at 1. fold (unready expected a p).
  destruct (unready expected a p) eqn:Hu; cbn [negb orb]; [|by rewrite Hu].
  destruct (Client.now p >? _); [by rewrite Hu | exact IH].
Qed.

Lemma launch_open_outcome_witness :
  let a := Client.mkAttach true true true 7 1000 in
  let polls :=
    [Client.mkPoll 0 7 1000; Client.mkPoll 0 7 1010; Client.mkPoll 0 7 1011;
     Client.mkPoll 548 8 1011] in
  Client.calloc_ok a = true
  ∧ List.find (ends_wait 548 a) polls = Some (Client.mkPoll 0 7 1011)
  ∧ Client.launch_open 548 a polls = Client.Null.
Proof.
  intros a polls. split; [reflexivity|]. split; [reflexivity|].
  exact (launch_open_outcome 548 a polls eq_refl).
Defined.
